(** * The presentation and synchronisation core of the hello-triangle
      application (sources/01_VulkanTutorial/01_helloTriangle/main.cpp).

    The C++ class [HelloTriangleApplication] is embedded as a record of its
    data members together with the part of the outside world its member
    functions talk to (window, GPU queue, call trace).  Member functions are
    state transformers in a small exception monad; what the Vulkan driver
    and GLFW answer is passed in as an explicit environment argument. *)

From Stdlib Require Import ZArith.
From stdpp Require Import base decidable option list strings gmap.

Local Open Scope Z_scope.

(* stdpp's solvers clear hypotheses that are already gone *)
#[local] Set Warnings "-clear-no-such-hyp".

(** ** Machine integers *)

(** [std::numeric_limits<uint32_t>::max()] *)
Definition UINT32_MAX : Z := 4294967295.

(** Arithmetic on [uint32_t] wraps around modulo 2^32; this is also what
    [static_cast<uint32_t>] does to an [int]. *)
Definition to_uint32 (z : Z) : Z := z mod 4294967296.

Definition is_uint32 (z : Z) : Prop := 0 <= z <= UINT32_MAX.

(** Largest value of an [int]. *)
Definition INT_MAX : Z := 2147483647.

(** [constexpr int MAX_FRAMES_IN_FLIGHT = 2;] *)
Definition MAX_FRAMES_IN_FLIGHT : nat := 2.

(** ** Vulkan enumerations and structures used by the program

    The Vulkan headers are not part of the repository.  The enumerators
    below are the ones the source names; their numeric values are those of
    [vulkan_core.h]. *)

Definition handle : Type := N.
Definition VK_NULL_HANDLE : handle := 0%N.

Inductive VkResult : Type :=
  | VK_SUCCESS
  | VK_NOT_READY
  | VK_TIMEOUT
  | VK_SUBOPTIMAL_KHR
  | VK_ERROR_OUT_OF_DATE_KHR
  | VK_ERROR_DEVICE_LOST
  | VK_ERROR_SURFACE_LOST_KHR
  | VK_ERROR_OUT_OF_HOST_MEMORY
  | VK_ERROR_OUT_OF_DEVICE_MEMORY.

Global Instance VkResult_eq_dec : EqDecision VkResult.
Proof. solve_decision. Defined.

(** The four present modes the source documents in [ChooseSwapPresentMode],
    and the two shared-refresh modes the enumeration also has. *)
Inductive VkPresentModeKHR : Type :=
  | VK_PRESENT_MODE_IMMEDIATE_KHR
  | VK_PRESENT_MODE_MAILBOX_KHR
  | VK_PRESENT_MODE_FIFO_KHR
  | VK_PRESENT_MODE_FIFO_RELAXED_KHR
  | VK_PRESENT_MODE_SHARED_DEMAND_REFRESH_KHR
  | VK_PRESENT_MODE_SHARED_CONTINUOUS_REFRESH_KHR.

Global Instance VkPresentModeKHR_eq_dec : EqDecision VkPresentModeKHR.
Proof. solve_decision. Defined.

(** [VkFormat] and [VkColorSpaceKHR] have hundreds of enumerators; they are
    kept as their integer values. *)
Definition VkFormat : Type := Z.
Definition VK_FORMAT_UNDEFINED : VkFormat := 0.
Definition VK_FORMAT_B8G8R8A8_UNORM : VkFormat := 44.

Definition VkColorSpaceKHR : Type := Z.
Definition VK_COLOR_SPACE_SRGB_NONLINEAR_KHR : VkColorSpaceKHR := 0.

Record VkSurfaceFormatKHR : Type := {
  format : VkFormat;
  colorSpace : VkColorSpaceKHR
}.

Record VkExtent2D : Type := {
  width : Z;   (* uint32_t *)
  height : Z   (* uint32_t *)
}.

Record VkSurfaceCapabilitiesKHR : Type := {
  minImageCount : Z;          (* uint32_t *)
  maxImageCount : Z;          (* uint32_t *)
  currentExtent : VkExtent2D;
  minImageExtent : VkExtent2D;
  maxImageExtent : VkExtent2D;
  currentTransform : Z
}.

Inductive VkSharingMode : Type :=
  | VK_SHARING_MODE_EXCLUSIVE
  | VK_SHARING_MODE_CONCURRENT.

(** [VK_QUEUE_GRAPHICS_BIT] *)
Definition VK_QUEUE_GRAPHICS_BIT : Z := 1.

(** [VK_KHR_SWAPCHAIN_EXTENSION_NAME] *)
Definition VK_KHR_SWAPCHAIN_EXTENSION_NAME : string := "VK_KHR_swapchain".

(** [const std::vector<const char*> g_deviceExtensions] *)
Definition g_deviceExtensions : list string := [VK_KHR_SWAPCHAIN_EXTENSION_NAME].

(** ** The program's own structures *)

(** [struct QueueFamilyIndices] *)
Record QueueFamilyIndices : Type := {
  graphicsFamily : option nat;
  presentFamily : option nat
}.

Definition IsComplete (indices : QueueFamilyIndices) : bool :=
  bool_decide (is_Some (graphicsFamily indices)) && bool_decide (is_Some (presentFamily indices)).

(** [struct SwapChainSupportDetails] (the member is spelled [foramts] in the
    source). *)
Record SwapChainSupportDetails : Type := {
  capabilities : VkSurfaceCapabilitiesKHR;
  foramts : list VkSurfaceFormatKHR;
  presentModes : list VkPresentModeKHR
}.

(** What the driver reports about one queue family: its
    [VkQueueFamilyProperties::queueFlags] and the answer of
    [vkGetPhysicalDeviceSurfaceSupportKHR] for the application's surface. *)
Record QueueFamily : Type := {
  queueFlags : Z;
  presentSupport : bool
}.

(** A physical device as the driver describes it when it is enumerated:
    its handle and the answers to the queries [IsDeviceSuitable] makes. *)
Record PhysicalDevice : Type := {
  pd_handle : handle;
  pd_queueFamilies : list QueueFamily;
  pd_extensions : list string;
  pd_support : SwapChainSupportDetails
}.

(** ** Capability selection (pure part) *)

(** One pass of the [for] loop of [FindQueueFamilies], from family index [i]
    on; the loop leaves as soon as both indices are known. *)
Fixpoint FindQueueFamilies_loop (queueFamilies : list QueueFamily) (i : nat)
    (indices : QueueFamilyIndices) : QueueFamilyIndices :=
  match queueFamilies with
  | [] => indices
  | q :: rest =>
      let indices1 :=
        if negb (Z.land (queueFlags q) VK_QUEUE_GRAPHICS_BIT =? 0)
        then {| graphicsFamily := Some i; presentFamily := presentFamily indices |}
        else indices in
      let indices2 :=
        if presentSupport q
        then {| graphicsFamily := graphicsFamily indices1; presentFamily := Some i |}
        else indices1 in
      if IsComplete indices2 then indices2
      else FindQueueFamilies_loop rest (S i) indices2
  end.

Definition FindQueueFamilies (device : PhysicalDevice) : QueueFamilyIndices :=
  FindQueueFamilies_loop (pd_queueFamilies device) 0%nat
    {| graphicsFamily := None; presentFamily := None |}.

(** [CheckDeviceExtensionSupported]: the required names are put in a
    [std::set], every available name is erased from it, and the device
    passes when nothing is left. *)
Definition CheckDeviceExtensionSupported (device : PhysicalDevice) : bool :=
  let requiredExtensions : gset string := list_to_set g_deviceExtensions in
  let remaining :=
    foldl (fun (req : gset string) (extensionName : string) => req ∖ {[ extensionName ]})
          requiredExtensions (pd_extensions device) in
  bool_decide (remaining = ∅).

Definition QuerySwapChainSupport (device : PhysicalDevice) : SwapChainSupportDetails :=
  pd_support device.

Definition vector_empty {A : Type} (v : list A) : bool :=
  match v with [] => true | _ => false end.

Definition IsDeviceSuitable (device : PhysicalDevice) : bool :=
  let indices := FindQueueFamilies device in
  let extensionsSupported := CheckDeviceExtensionSupported device in
  let swapChainAdequate :=
    if extensionsSupported
    then
      let swapChainSupport := QuerySwapChainSupport device in
      negb (vector_empty (foramts swapChainSupport))
      && negb (vector_empty (presentModes swapChainSupport))
    else false in
  IsComplete indices && extensionsSupported && swapChainAdequate.

(** The range-[for] of [PickPhysicalDevice]: the first suitable device is
    stored and the loop is left; [selected] is the member
    [m_physicalDevice] ([None] for [nullptr]). *)
Fixpoint PickPhysicalDevice_loop (devices : list PhysicalDevice)
    (selected : option PhysicalDevice) : option PhysicalDevice :=
  match devices with
  | [] => selected
  | device :: rest =>
      if IsDeviceSuitable device then Some device
      else PickPhysicalDevice_loop rest selected
  end.

(** ** Swap chain parameters (pure part) *)

Definition surface_format_eqb (f : VkSurfaceFormatKHR) (fmt : VkFormat) (cs : VkColorSpaceKHR) : bool :=
  (fmt =? format f) && (cs =? colorSpace f).

(** [ChooseSwapSurfaceFormat].  [front()] of an empty vector is undefined in
    C++; the model returns the program's preferred format there. *)
Definition ChooseSwapSurfaceFormat (availableFormats : list VkSurfaceFormatKHR) : VkSurfaceFormatKHR :=
  let preferred := {| format := VK_FORMAT_B8G8R8A8_UNORM; colorSpace := VK_COLOR_SPACE_SRGB_NONLINEAR_KHR |} in
  let front := List.hd preferred availableFormats in
  if bool_decide (1%nat = length availableFormats) && (format front =? VK_FORMAT_UNDEFINED)
  then preferred
  else
    match List.find (fun availableFormat =>
                       surface_format_eqb availableFormat
                         VK_FORMAT_B8G8R8A8_UNORM VK_COLOR_SPACE_SRGB_NONLINEAR_KHR)
                    availableFormats with
    | Some availableFormat => availableFormat
    | None => front
    end.

(** The loop of [ChooseSwapPresentMode]: MAILBOX returns at once, IMMEDIATE
    overwrites [bestMode], everything else is skipped. *)
Fixpoint ChooseSwapPresentMode_loop (availablePresentModes : list VkPresentModeKHR)
    (bestMode : VkPresentModeKHR) : VkPresentModeKHR :=
  match availablePresentModes with
  | [] => bestMode
  | availablePresentMode :: rest =>
      if decide (VK_PRESENT_MODE_MAILBOX_KHR = availablePresentMode) then availablePresentMode
      else if decide (VK_PRESENT_MODE_IMMEDIATE_KHR = availablePresentMode)
           then ChooseSwapPresentMode_loop rest availablePresentMode
           else ChooseSwapPresentMode_loop rest bestMode
  end.

Definition ChooseSwapPresentMode (availablePresentModes : list VkPresentModeKHR) : VkPresentModeKHR :=
  ChooseSwapPresentMode_loop availablePresentModes VK_PRESENT_MODE_FIFO_KHR.

(** [std::clamp(v, lo, hi)] on [uint32_t]: [(v < lo) ? lo : (hi < v) ? hi : v]. *)
Definition std_clamp (v lo hi : Z) : Z :=
  if v <? lo then lo else if hi <? v then hi else v.

(** [ChooseSwapExtent]; [framebufferSize] is what [glfwGetFramebufferSize]
    stores into the two [int]s. *)
Definition ChooseSwapExtent (framebufferSize : Z * Z) (capabilities : VkSurfaceCapabilitiesKHR) : VkExtent2D :=
  if negb (UINT32_MAX =? width (currentExtent capabilities))
  then currentExtent capabilities
  else
    let actualExtent :=
      {| width := to_uint32 (fst framebufferSize); height := to_uint32 (snd framebufferSize) |} in
    {| width := std_clamp (width actualExtent)
                          (width (minImageExtent capabilities)) (width (maxImageExtent capabilities));
       height := std_clamp (height actualExtent)
                           (height (minImageExtent capabilities)) (height (maxImageExtent capabilities)) |}.

(** The image count [CreateSwapChain] puts into
    [VkSwapchainCreateInfoKHR::minImageCount]. *)
Definition requestedImageCount (capabilities : VkSurfaceCapabilitiesKHR) : Z :=
  let imageCount := to_uint32 (minImageCount capabilities + 1) in
  if (0 <? maxImageCount capabilities) && (maxImageCount capabilities <? imageCount)
  then maxImageCount capabilities
  else imageCount.

(** ** Calls, GPU work and the application state *)

(** The commands [RecordCommandBuffer] writes into a command buffer. *)
Inductive Command : Type :=
  | CmdBeginRenderPass (renderPass framebuffer : handle) (renderArea : VkExtent2D)
  | CmdBindPipeline (pipeline : handle)
  | CmdSetViewport (extent : VkExtent2D)
  | CmdSetScissor (extent : VkExtent2D)
  | CmdDraw (vertexCount instanceCount firstVertex firstInstance : Z)
  | CmdEndRenderPass.

(** The fields of [VkSwapchainCreateInfoKHR] that [CreateSwapChain] computes. *)
Record VkSwapchainCreateInfoKHR : Type := {
  ci_minImageCount : Z;
  ci_imageFormat : VkFormat;
  ci_imageColorSpace : VkColorSpaceKHR;
  ci_imageExtent : VkExtent2D;
  ci_imageSharingMode : VkSharingMode;
  ci_queueFamilyIndexCount : Z;
  ci_preTransform : Z;
  ci_presentMode : VkPresentModeKHR;
  ci_oldSwapchain : handle
}.

(** What the program does to the outside world, in the order it does it.
    [EvCall] marks the entry of a member function; [EvFenceSignaled] is the
    GPU finishing a submission and signalling the fence of a slot. *)
Inductive Event : Type :=
  | EvCall (fn : string)
  | EvPollEvents
  | EvWaitEvents
  | EvWaitForFences (slot : nat)
  | EvResetFences (slot : nat)
  | EvFenceSignaled (slot : nat)
  | EvDeviceWaitIdle
  | EvAcquireNextImage (swapChain semaphore : handle)
  | EvResetCommandBuffer (commandBuffer : handle)
  | EvBeginCommandBuffer (commandBuffer : handle)
  | EvCmd (commandBuffer : handle) (cmd : Command)
  | EvEndCommandBuffer (commandBuffer : handle)
  | EvQueueSubmit (waitSemaphore commandBuffer signalSemaphore : handle) (fenceSlot : nat)
  | EvQueuePresent (waitSemaphore swapChain : handle) (imageIndex : nat)
  | EvCreateSwapchain (createInfo : VkSwapchainCreateInfoKHR)
  | EvGetSwapchainImages (swapChain : handle)
  | EvCreateImageView (image : handle) (fmt : VkFormat)
  | EvCreateFramebuffer (renderPass imageView : handle) (extent : VkExtent2D)
  | EvAllocateCommandBuffers (commandPool : handle) (count : nat)
  | EvDestroyFramebuffer (framebuffer : handle)
  | EvDestroyImageView (imageView : handle)
  | EvDestroySwapchain (swapChain : handle).

(** A batch handed to [vkQueueSubmit] that the GPU is still working on; when
    it finishes, the fence of slot [sub_fence] is signalled. *)
Record Submission : Type := {
  sub_fence : nat;
  sub_commandBuffer : handle
}.

(** The data members of [HelloTriangleApplication] the modelled functions
    read or write, followed by the state of the window and of the GPU.
    Members that nothing reads after they are created (instance, debug
    messenger, surface, logical device, the two queues) are left out. *)
Record State : Type := {
  m_physicalDevice : option PhysicalDevice;
  m_swapChain : handle;
  m_swapChainImages : list handle;
  m_swapChainImageFormat : VkFormat;
  m_swapChainExtent : VkExtent2D;
  m_swapChainImageViews : list handle;
  m_renderPass : handle;
  m_pipelineLayout : handle;
  m_graphicsPipeline : handle;
  m_swapChainFramebuffers : list handle;
  m_commandPool : handle;
  m_commandBuffers : list handle;
  m_imageAvailableSemaphores : list handle;
  m_renderFinishedSemaphores : list handle;
  m_inFlightFences : list bool;  (* one fence object per slot, kept as its signaled flag *)
  m_currentFrame : nat;  (* size_t *)
  m_framebufferResized : bool;
  framebufferSize : Z * Z;  (* what glfwGetFramebufferSize reports now *)
  gpu_pending : list Submission;  (* submitted work the GPU has not finished *)
  trace : list Event  (* API calls and GPU completions so far, oldest first *)
}.

Definition set_m_physicalDevice (v : option PhysicalDevice) (s : State) : State :=
  {| m_physicalDevice := v; m_swapChain := m_swapChain s;
     m_swapChainImages := m_swapChainImages s;
     m_swapChainImageFormat := m_swapChainImageFormat s;
     m_swapChainExtent := m_swapChainExtent s;
     m_swapChainImageViews := m_swapChainImageViews s; m_renderPass := m_renderPass s;
     m_pipelineLayout := m_pipelineLayout s; m_graphicsPipeline := m_graphicsPipeline s;
     m_swapChainFramebuffers := m_swapChainFramebuffers s;
     m_commandPool := m_commandPool s; m_commandBuffers := m_commandBuffers s;
     m_imageAvailableSemaphores := m_imageAvailableSemaphores s;
     m_renderFinishedSemaphores := m_renderFinishedSemaphores s;
     m_inFlightFences := m_inFlightFences s; m_currentFrame := m_currentFrame s;
     m_framebufferResized := m_framebufferResized s;
     framebufferSize := framebufferSize s; gpu_pending := gpu_pending s;
     trace := trace s |}.

Definition set_m_swapChain (v : handle) (s : State) : State :=
  {| m_physicalDevice := m_physicalDevice s; m_swapChain := v;
     m_swapChainImages := m_swapChainImages s;
     m_swapChainImageFormat := m_swapChainImageFormat s;
     m_swapChainExtent := m_swapChainExtent s;
     m_swapChainImageViews := m_swapChainImageViews s; m_renderPass := m_renderPass s;
     m_pipelineLayout := m_pipelineLayout s; m_graphicsPipeline := m_graphicsPipeline s;
     m_swapChainFramebuffers := m_swapChainFramebuffers s;
     m_commandPool := m_commandPool s; m_commandBuffers := m_commandBuffers s;
     m_imageAvailableSemaphores := m_imageAvailableSemaphores s;
     m_renderFinishedSemaphores := m_renderFinishedSemaphores s;
     m_inFlightFences := m_inFlightFences s; m_currentFrame := m_currentFrame s;
     m_framebufferResized := m_framebufferResized s;
     framebufferSize := framebufferSize s; gpu_pending := gpu_pending s;
     trace := trace s |}.

Definition set_m_swapChainImages (v : list handle) (s : State) : State :=
  {| m_physicalDevice := m_physicalDevice s; m_swapChain := m_swapChain s;
     m_swapChainImages := v; m_swapChainImageFormat := m_swapChainImageFormat s;
     m_swapChainExtent := m_swapChainExtent s;
     m_swapChainImageViews := m_swapChainImageViews s; m_renderPass := m_renderPass s;
     m_pipelineLayout := m_pipelineLayout s; m_graphicsPipeline := m_graphicsPipeline s;
     m_swapChainFramebuffers := m_swapChainFramebuffers s;
     m_commandPool := m_commandPool s; m_commandBuffers := m_commandBuffers s;
     m_imageAvailableSemaphores := m_imageAvailableSemaphores s;
     m_renderFinishedSemaphores := m_renderFinishedSemaphores s;
     m_inFlightFences := m_inFlightFences s; m_currentFrame := m_currentFrame s;
     m_framebufferResized := m_framebufferResized s;
     framebufferSize := framebufferSize s; gpu_pending := gpu_pending s;
     trace := trace s |}.

Definition set_m_swapChainImageFormat (v : VkFormat) (s : State) : State :=
  {| m_physicalDevice := m_physicalDevice s; m_swapChain := m_swapChain s;
     m_swapChainImages := m_swapChainImages s; m_swapChainImageFormat := v;
     m_swapChainExtent := m_swapChainExtent s;
     m_swapChainImageViews := m_swapChainImageViews s; m_renderPass := m_renderPass s;
     m_pipelineLayout := m_pipelineLayout s; m_graphicsPipeline := m_graphicsPipeline s;
     m_swapChainFramebuffers := m_swapChainFramebuffers s;
     m_commandPool := m_commandPool s; m_commandBuffers := m_commandBuffers s;
     m_imageAvailableSemaphores := m_imageAvailableSemaphores s;
     m_renderFinishedSemaphores := m_renderFinishedSemaphores s;
     m_inFlightFences := m_inFlightFences s; m_currentFrame := m_currentFrame s;
     m_framebufferResized := m_framebufferResized s;
     framebufferSize := framebufferSize s; gpu_pending := gpu_pending s;
     trace := trace s |}.

Definition set_m_swapChainExtent (v : VkExtent2D) (s : State) : State :=
  {| m_physicalDevice := m_physicalDevice s; m_swapChain := m_swapChain s;
     m_swapChainImages := m_swapChainImages s;
     m_swapChainImageFormat := m_swapChainImageFormat s; m_swapChainExtent := v;
     m_swapChainImageViews := m_swapChainImageViews s; m_renderPass := m_renderPass s;
     m_pipelineLayout := m_pipelineLayout s; m_graphicsPipeline := m_graphicsPipeline s;
     m_swapChainFramebuffers := m_swapChainFramebuffers s;
     m_commandPool := m_commandPool s; m_commandBuffers := m_commandBuffers s;
     m_imageAvailableSemaphores := m_imageAvailableSemaphores s;
     m_renderFinishedSemaphores := m_renderFinishedSemaphores s;
     m_inFlightFences := m_inFlightFences s; m_currentFrame := m_currentFrame s;
     m_framebufferResized := m_framebufferResized s;
     framebufferSize := framebufferSize s; gpu_pending := gpu_pending s;
     trace := trace s |}.

Definition set_m_swapChainImageViews (v : list handle) (s : State) : State :=
  {| m_physicalDevice := m_physicalDevice s; m_swapChain := m_swapChain s;
     m_swapChainImages := m_swapChainImages s;
     m_swapChainImageFormat := m_swapChainImageFormat s;
     m_swapChainExtent := m_swapChainExtent s; m_swapChainImageViews := v;
     m_renderPass := m_renderPass s; m_pipelineLayout := m_pipelineLayout s;
     m_graphicsPipeline := m_graphicsPipeline s;
     m_swapChainFramebuffers := m_swapChainFramebuffers s;
     m_commandPool := m_commandPool s; m_commandBuffers := m_commandBuffers s;
     m_imageAvailableSemaphores := m_imageAvailableSemaphores s;
     m_renderFinishedSemaphores := m_renderFinishedSemaphores s;
     m_inFlightFences := m_inFlightFences s; m_currentFrame := m_currentFrame s;
     m_framebufferResized := m_framebufferResized s;
     framebufferSize := framebufferSize s; gpu_pending := gpu_pending s;
     trace := trace s |}.

Definition set_m_renderPass (v : handle) (s : State) : State :=
  {| m_physicalDevice := m_physicalDevice s; m_swapChain := m_swapChain s;
     m_swapChainImages := m_swapChainImages s;
     m_swapChainImageFormat := m_swapChainImageFormat s;
     m_swapChainExtent := m_swapChainExtent s;
     m_swapChainImageViews := m_swapChainImageViews s; m_renderPass := v;
     m_pipelineLayout := m_pipelineLayout s; m_graphicsPipeline := m_graphicsPipeline s;
     m_swapChainFramebuffers := m_swapChainFramebuffers s;
     m_commandPool := m_commandPool s; m_commandBuffers := m_commandBuffers s;
     m_imageAvailableSemaphores := m_imageAvailableSemaphores s;
     m_renderFinishedSemaphores := m_renderFinishedSemaphores s;
     m_inFlightFences := m_inFlightFences s; m_currentFrame := m_currentFrame s;
     m_framebufferResized := m_framebufferResized s;
     framebufferSize := framebufferSize s; gpu_pending := gpu_pending s;
     trace := trace s |}.

Definition set_m_pipelineLayout (v : handle) (s : State) : State :=
  {| m_physicalDevice := m_physicalDevice s; m_swapChain := m_swapChain s;
     m_swapChainImages := m_swapChainImages s;
     m_swapChainImageFormat := m_swapChainImageFormat s;
     m_swapChainExtent := m_swapChainExtent s;
     m_swapChainImageViews := m_swapChainImageViews s; m_renderPass := m_renderPass s;
     m_pipelineLayout := v; m_graphicsPipeline := m_graphicsPipeline s;
     m_swapChainFramebuffers := m_swapChainFramebuffers s;
     m_commandPool := m_commandPool s; m_commandBuffers := m_commandBuffers s;
     m_imageAvailableSemaphores := m_imageAvailableSemaphores s;
     m_renderFinishedSemaphores := m_renderFinishedSemaphores s;
     m_inFlightFences := m_inFlightFences s; m_currentFrame := m_currentFrame s;
     m_framebufferResized := m_framebufferResized s;
     framebufferSize := framebufferSize s; gpu_pending := gpu_pending s;
     trace := trace s |}.

Definition set_m_graphicsPipeline (v : handle) (s : State) : State :=
  {| m_physicalDevice := m_physicalDevice s; m_swapChain := m_swapChain s;
     m_swapChainImages := m_swapChainImages s;
     m_swapChainImageFormat := m_swapChainImageFormat s;
     m_swapChainExtent := m_swapChainExtent s;
     m_swapChainImageViews := m_swapChainImageViews s; m_renderPass := m_renderPass s;
     m_pipelineLayout := m_pipelineLayout s; m_graphicsPipeline := v;
     m_swapChainFramebuffers := m_swapChainFramebuffers s;
     m_commandPool := m_commandPool s; m_commandBuffers := m_commandBuffers s;
     m_imageAvailableSemaphores := m_imageAvailableSemaphores s;
     m_renderFinishedSemaphores := m_renderFinishedSemaphores s;
     m_inFlightFences := m_inFlightFences s; m_currentFrame := m_currentFrame s;
     m_framebufferResized := m_framebufferResized s;
     framebufferSize := framebufferSize s; gpu_pending := gpu_pending s;
     trace := trace s |}.

Definition set_m_swapChainFramebuffers (v : list handle) (s : State) : State :=
  {| m_physicalDevice := m_physicalDevice s; m_swapChain := m_swapChain s;
     m_swapChainImages := m_swapChainImages s;
     m_swapChainImageFormat := m_swapChainImageFormat s;
     m_swapChainExtent := m_swapChainExtent s;
     m_swapChainImageViews := m_swapChainImageViews s; m_renderPass := m_renderPass s;
     m_pipelineLayout := m_pipelineLayout s; m_graphicsPipeline := m_graphicsPipeline s;
     m_swapChainFramebuffers := v; m_commandPool := m_commandPool s;
     m_commandBuffers := m_commandBuffers s;
     m_imageAvailableSemaphores := m_imageAvailableSemaphores s;
     m_renderFinishedSemaphores := m_renderFinishedSemaphores s;
     m_inFlightFences := m_inFlightFences s; m_currentFrame := m_currentFrame s;
     m_framebufferResized := m_framebufferResized s;
     framebufferSize := framebufferSize s; gpu_pending := gpu_pending s;
     trace := trace s |}.

Definition set_m_commandPool (v : handle) (s : State) : State :=
  {| m_physicalDevice := m_physicalDevice s; m_swapChain := m_swapChain s;
     m_swapChainImages := m_swapChainImages s;
     m_swapChainImageFormat := m_swapChainImageFormat s;
     m_swapChainExtent := m_swapChainExtent s;
     m_swapChainImageViews := m_swapChainImageViews s; m_renderPass := m_renderPass s;
     m_pipelineLayout := m_pipelineLayout s; m_graphicsPipeline := m_graphicsPipeline s;
     m_swapChainFramebuffers := m_swapChainFramebuffers s; m_commandPool := v;
     m_commandBuffers := m_commandBuffers s;
     m_imageAvailableSemaphores := m_imageAvailableSemaphores s;
     m_renderFinishedSemaphores := m_renderFinishedSemaphores s;
     m_inFlightFences := m_inFlightFences s; m_currentFrame := m_currentFrame s;
     m_framebufferResized := m_framebufferResized s;
     framebufferSize := framebufferSize s; gpu_pending := gpu_pending s;
     trace := trace s |}.

Definition set_m_commandBuffers (v : list handle) (s : State) : State :=
  {| m_physicalDevice := m_physicalDevice s; m_swapChain := m_swapChain s;
     m_swapChainImages := m_swapChainImages s;
     m_swapChainImageFormat := m_swapChainImageFormat s;
     m_swapChainExtent := m_swapChainExtent s;
     m_swapChainImageViews := m_swapChainImageViews s; m_renderPass := m_renderPass s;
     m_pipelineLayout := m_pipelineLayout s; m_graphicsPipeline := m_graphicsPipeline s;
     m_swapChainFramebuffers := m_swapChainFramebuffers s;
     m_commandPool := m_commandPool s; m_commandBuffers := v;
     m_imageAvailableSemaphores := m_imageAvailableSemaphores s;
     m_renderFinishedSemaphores := m_renderFinishedSemaphores s;
     m_inFlightFences := m_inFlightFences s; m_currentFrame := m_currentFrame s;
     m_framebufferResized := m_framebufferResized s;
     framebufferSize := framebufferSize s; gpu_pending := gpu_pending s;
     trace := trace s |}.

Definition set_m_imageAvailableSemaphores (v : list handle) (s : State) : State :=
  {| m_physicalDevice := m_physicalDevice s; m_swapChain := m_swapChain s;
     m_swapChainImages := m_swapChainImages s;
     m_swapChainImageFormat := m_swapChainImageFormat s;
     m_swapChainExtent := m_swapChainExtent s;
     m_swapChainImageViews := m_swapChainImageViews s; m_renderPass := m_renderPass s;
     m_pipelineLayout := m_pipelineLayout s; m_graphicsPipeline := m_graphicsPipeline s;
     m_swapChainFramebuffers := m_swapChainFramebuffers s;
     m_commandPool := m_commandPool s; m_commandBuffers := m_commandBuffers s;
     m_imageAvailableSemaphores := v;
     m_renderFinishedSemaphores := m_renderFinishedSemaphores s;
     m_inFlightFences := m_inFlightFences s; m_currentFrame := m_currentFrame s;
     m_framebufferResized := m_framebufferResized s;
     framebufferSize := framebufferSize s; gpu_pending := gpu_pending s;
     trace := trace s |}.

Definition set_m_renderFinishedSemaphores (v : list handle) (s : State) : State :=
  {| m_physicalDevice := m_physicalDevice s; m_swapChain := m_swapChain s;
     m_swapChainImages := m_swapChainImages s;
     m_swapChainImageFormat := m_swapChainImageFormat s;
     m_swapChainExtent := m_swapChainExtent s;
     m_swapChainImageViews := m_swapChainImageViews s; m_renderPass := m_renderPass s;
     m_pipelineLayout := m_pipelineLayout s; m_graphicsPipeline := m_graphicsPipeline s;
     m_swapChainFramebuffers := m_swapChainFramebuffers s;
     m_commandPool := m_commandPool s; m_commandBuffers := m_commandBuffers s;
     m_imageAvailableSemaphores := m_imageAvailableSemaphores s;
     m_renderFinishedSemaphores := v; m_inFlightFences := m_inFlightFences s;
     m_currentFrame := m_currentFrame s; m_framebufferResized := m_framebufferResized s;
     framebufferSize := framebufferSize s; gpu_pending := gpu_pending s;
     trace := trace s |}.

Definition set_m_inFlightFences (v : list bool) (s : State) : State :=
  {| m_physicalDevice := m_physicalDevice s; m_swapChain := m_swapChain s;
     m_swapChainImages := m_swapChainImages s;
     m_swapChainImageFormat := m_swapChainImageFormat s;
     m_swapChainExtent := m_swapChainExtent s;
     m_swapChainImageViews := m_swapChainImageViews s; m_renderPass := m_renderPass s;
     m_pipelineLayout := m_pipelineLayout s; m_graphicsPipeline := m_graphicsPipeline s;
     m_swapChainFramebuffers := m_swapChainFramebuffers s;
     m_commandPool := m_commandPool s; m_commandBuffers := m_commandBuffers s;
     m_imageAvailableSemaphores := m_imageAvailableSemaphores s;
     m_renderFinishedSemaphores := m_renderFinishedSemaphores s; m_inFlightFences := v;
     m_currentFrame := m_currentFrame s; m_framebufferResized := m_framebufferResized s;
     framebufferSize := framebufferSize s; gpu_pending := gpu_pending s;
     trace := trace s |}.

Definition set_m_currentFrame (v : nat) (s : State) : State :=
  {| m_physicalDevice := m_physicalDevice s; m_swapChain := m_swapChain s;
     m_swapChainImages := m_swapChainImages s;
     m_swapChainImageFormat := m_swapChainImageFormat s;
     m_swapChainExtent := m_swapChainExtent s;
     m_swapChainImageViews := m_swapChainImageViews s; m_renderPass := m_renderPass s;
     m_pipelineLayout := m_pipelineLayout s; m_graphicsPipeline := m_graphicsPipeline s;
     m_swapChainFramebuffers := m_swapChainFramebuffers s;
     m_commandPool := m_commandPool s; m_commandBuffers := m_commandBuffers s;
     m_imageAvailableSemaphores := m_imageAvailableSemaphores s;
     m_renderFinishedSemaphores := m_renderFinishedSemaphores s;
     m_inFlightFences := m_inFlightFences s; m_currentFrame := v;
     m_framebufferResized := m_framebufferResized s;
     framebufferSize := framebufferSize s; gpu_pending := gpu_pending s;
     trace := trace s |}.

Definition set_m_framebufferResized (v : bool) (s : State) : State :=
  {| m_physicalDevice := m_physicalDevice s; m_swapChain := m_swapChain s;
     m_swapChainImages := m_swapChainImages s;
     m_swapChainImageFormat := m_swapChainImageFormat s;
     m_swapChainExtent := m_swapChainExtent s;
     m_swapChainImageViews := m_swapChainImageViews s; m_renderPass := m_renderPass s;
     m_pipelineLayout := m_pipelineLayout s; m_graphicsPipeline := m_graphicsPipeline s;
     m_swapChainFramebuffers := m_swapChainFramebuffers s;
     m_commandPool := m_commandPool s; m_commandBuffers := m_commandBuffers s;
     m_imageAvailableSemaphores := m_imageAvailableSemaphores s;
     m_renderFinishedSemaphores := m_renderFinishedSemaphores s;
     m_inFlightFences := m_inFlightFences s; m_currentFrame := m_currentFrame s;
     m_framebufferResized := v; framebufferSize := framebufferSize s;
     gpu_pending := gpu_pending s; trace := trace s |}.

Definition set_framebufferSize (v : Z * Z) (s : State) : State :=
  {| m_physicalDevice := m_physicalDevice s; m_swapChain := m_swapChain s;
     m_swapChainImages := m_swapChainImages s;
     m_swapChainImageFormat := m_swapChainImageFormat s;
     m_swapChainExtent := m_swapChainExtent s;
     m_swapChainImageViews := m_swapChainImageViews s; m_renderPass := m_renderPass s;
     m_pipelineLayout := m_pipelineLayout s; m_graphicsPipeline := m_graphicsPipeline s;
     m_swapChainFramebuffers := m_swapChainFramebuffers s;
     m_commandPool := m_commandPool s; m_commandBuffers := m_commandBuffers s;
     m_imageAvailableSemaphores := m_imageAvailableSemaphores s;
     m_renderFinishedSemaphores := m_renderFinishedSemaphores s;
     m_inFlightFences := m_inFlightFences s; m_currentFrame := m_currentFrame s;
     m_framebufferResized := m_framebufferResized s; framebufferSize := v;
     gpu_pending := gpu_pending s; trace := trace s |}.

Definition set_gpu_pending (v : list Submission) (s : State) : State :=
  {| m_physicalDevice := m_physicalDevice s; m_swapChain := m_swapChain s;
     m_swapChainImages := m_swapChainImages s;
     m_swapChainImageFormat := m_swapChainImageFormat s;
     m_swapChainExtent := m_swapChainExtent s;
     m_swapChainImageViews := m_swapChainImageViews s; m_renderPass := m_renderPass s;
     m_pipelineLayout := m_pipelineLayout s; m_graphicsPipeline := m_graphicsPipeline s;
     m_swapChainFramebuffers := m_swapChainFramebuffers s;
     m_commandPool := m_commandPool s; m_commandBuffers := m_commandBuffers s;
     m_imageAvailableSemaphores := m_imageAvailableSemaphores s;
     m_renderFinishedSemaphores := m_renderFinishedSemaphores s;
     m_inFlightFences := m_inFlightFences s; m_currentFrame := m_currentFrame s;
     m_framebufferResized := m_framebufferResized s;
     framebufferSize := framebufferSize s; gpu_pending := v; trace := trace s |}.

Definition set_trace (v : list Event) (s : State) : State :=
  {| m_physicalDevice := m_physicalDevice s; m_swapChain := m_swapChain s;
     m_swapChainImages := m_swapChainImages s;
     m_swapChainImageFormat := m_swapChainImageFormat s;
     m_swapChainExtent := m_swapChainExtent s;
     m_swapChainImageViews := m_swapChainImageViews s; m_renderPass := m_renderPass s;
     m_pipelineLayout := m_pipelineLayout s; m_graphicsPipeline := m_graphicsPipeline s;
     m_swapChainFramebuffers := m_swapChainFramebuffers s;
     m_commandPool := m_commandPool s; m_commandBuffers := m_commandBuffers s;
     m_imageAvailableSemaphores := m_imageAvailableSemaphores s;
     m_renderFinishedSemaphores := m_renderFinishedSemaphores s;
     m_inFlightFences := m_inFlightFences s; m_currentFrame := m_currentFrame s;
     m_framebufferResized := m_framebufferResized s;
     framebufferSize := framebufferSize s; gpu_pending := gpu_pending s; trace := v |}.

(** ** The monad of member functions

    A call either returns, is left by a C++ exception, or never returns
    (a wait that nothing will ever end).  The state at that point is kept in
    all three cases. *)

Inductive Result (A : Type) : Type :=
  | Ok (a : A) (s : State)
  | Throw (what : string) (s : State)
  | Block (s : State).

Arguments Ok {A} a s.
Arguments Throw {A} what s.
Arguments Block {A} s.

Definition M (A : Type) : Type := State -> Result A.

Definition res_state {A : Type} (r : Result A) : State :=
  match r with Ok _ s => s | Throw _ s => s | Block s => s end.

Definition ret {A : Type} (a : A) : M A := fun s => Ok a s.

Definition bind {A B : Type} (m : M A) (k : A -> M B) : M B :=
  fun s =>
    match m s with
    | Ok a s' => k a s'
    | Throw what s' => Throw what s'
    | Block s' => Block s'
    end.

Notation "x <- m ;; k" := (bind m (fun x => k))
  (at level 100, m at next level, right associativity, only parsing).
Notation "m ;; k" := (bind m (fun _ => k))
  (at level 100, right associativity, only parsing).

Definition throw {A : Type} (what : string) : M A := fun s => Throw what s.
Definition block {A : Type} : M A := fun s => Block s.
Definition get : M State := fun s => Ok s s.
Definition modify (f : State -> State) : M unit := fun s => Ok tt (f s).
Definition emit (e : Event) : M unit := modify (fun s => set_trace (trace s ++ [e]) s).

Definition throw_if (P : Prop) `{Decision P} (what : string) : M unit :=
  if decide P then throw what else ret tt.

(** [std::vector::at]: bounds-checked access. *)
Definition vector_at {A : Type} (v : list A) (i : nat) : M A :=
  match v !! i with
  | Some x => ret x
  | None => throw "std::out_of_range"
  end.

(** [std::optional::value] *)
Definition optional_value {A : Type} (o : option A) : M A :=
  match o with
  | Some x => ret x
  | None => throw "std::bad_optional_access"
  end.

(** [std::vector::resize]: keep the first [n] elements, pad with
    value-initialised ones. *)
Definition vector_resize {A : Type} (n : nat) (d : A) (v : list A) : list A :=
  take n v ++ replicate (n - length v) d.

(** ** The GPU and the window *)

(** The GPU signals the fence of a slot. *)
Definition signal_fence (slot : nat) (s : State) : State :=
  set_trace (trace s ++ [EvFenceSignaled slot])
    (set_m_inFlightFences (<[slot := true]> (m_inFlightFences s)) s).

(** The GPU finishes the [k]-th pending submission. *)
Definition gpu_finish (k : nat) (s : State) : State :=
  match gpu_pending s !! k with
  | Some sub => signal_fence (sub_fence sub) (set_gpu_pending (delete k (gpu_pending s)) s)
  | None => s
  end.

(** [vkDeviceWaitIdle] returns once the GPU has finished everything that was
    submitted. *)
Definition vkDeviceWaitIdle : M unit :=
  emit EvDeviceWaitIdle;;
  modify (fun s =>
    foldl (fun s' sub => signal_fence (sub_fence sub) s') (set_gpu_pending [] s) (gpu_pending s)).

(** [vkWaitForFences] on the fence of one slot with an infinite timeout: it
    returns at once when the fence is signalled, returns when the GPU
    finishes the submission that signals it, and never returns when no
    pending submission will signal it. *)
Definition vkWaitForFences (slot : nat) : M unit :=
  emit (EvWaitForFences slot);;
  s <- get;;
  if default false (m_inFlightFences s !! slot) then ret tt
  else
    match list_find (fun sub => sub_fence sub = slot) (gpu_pending s) with
    | Some (k, _) => modify (gpu_finish k)
    | None => block
    end.

Definition vkResetFences (slot : nat) : M unit :=
  emit (EvResetFences slot);;
  modify (fun s => set_m_inFlightFences (<[slot := false]> (m_inFlightFences s)) s).

(** [FramebufferResizeCallback] *)
Definition FramebufferResizeCallback : M unit :=
  modify (set_m_framebufferResized true).

(** GLFW processes the events that arrived: a framebuffer resize, if there
    was one, changes the reported size and runs the callback. *)
Definition deliver_events (resize : option (Z * Z)) : M unit :=
  match resize with
  | Some size => modify (set_framebufferSize size);; FramebufferResizeCallback
  | None => ret tt
  end.

Definition glfwPollEvents (resize : option (Z * Z)) : M unit :=
  emit EvPollEvents;; deliver_events resize.

(** [glfwWaitEvents] sleeps until an event arrives; [None] is the case where
    none ever does. *)
Definition glfwWaitEvents (arrival : option (option (Z * Z))) : M unit :=
  emit EvWaitEvents;;
  match arrival with
  | Some resize => deliver_events resize
  | None => block
  end.

(** ** What the driver and the window system answer *)

(** Answers used by one construction of the swap chain. *)
Record SwapChainEnv : Type := {
  env_waitEvents : list (option (Z * Z));   (* one entry per glfwWaitEvents that returns *)
  env_support : SwapChainSupportDetails;    (* QuerySwapChainSupport(m_physicalDevice) now *)
  env_createSwapchain : VkResult * handle;  (* result, and what is written to the output *)
  env_swapchainImages : list handle;        (* vkGetSwapchainImagesKHR *)
  env_createImageView : nat -> VkResult * handle;
  env_createFramebuffer : nat -> VkResult * handle
}.

(** Answers used by one iteration of the main loop. *)
Record FrameEnv : Type := {
  env_pollEvents : option (Z * Z);
  env_acquire : VkResult * nat;             (* result and image index *)
  env_beginCommandBuffer : VkResult;
  env_endCommandBuffer : VkResult;
  env_queueSubmit : VkResult;
  env_queuePresent : VkResult;
  env_recreate : SwapChainEnv
}.

(** ** Swap chain life cycle *)

Definition CreateSwapChain (env : SwapChainEnv) : M unit :=
  s <- get;;
  let swapChainSupport := env_support env in
  let surfaceFormat := ChooseSwapSurfaceFormat (foramts swapChainSupport) in
  let presentMode := ChooseSwapPresentMode (presentModes swapChainSupport) in
  let extent := ChooseSwapExtent (framebufferSize s) (capabilities swapChainSupport) in
  let imageCount := requestedImageCount (capabilities swapChainSupport) in
  let indices :=
    match m_physicalDevice s with
    | Some device => FindQueueFamilies device
    | None => {| graphicsFamily := None; presentFamily := None |}
    end in
  graphics <- optional_value (graphicsFamily indices);;
  present <- optional_value (presentFamily indices);;
  let shared := bool_decide (graphicsFamily indices ≠ presentFamily indices) in
  let createInfo :=
    {| ci_minImageCount := imageCount;
       ci_imageFormat := format surfaceFormat;
       ci_imageColorSpace := colorSpace surfaceFormat;
       ci_imageExtent := extent;
       ci_imageSharingMode := if shared then VK_SHARING_MODE_CONCURRENT else VK_SHARING_MODE_EXCLUSIVE;
       ci_queueFamilyIndexCount := if shared then 2 else 0;
       ci_preTransform := currentTransform (capabilities swapChainSupport);
       ci_presentMode := presentMode;
       ci_oldSwapchain := VK_NULL_HANDLE |} in
  emit (EvCreateSwapchain createInfo);;
  (* [vkCreateSwapchainKHR] is handed [&m_swapChain]: the member holds what
     the driver left there before the result is looked at *)
  modify (set_m_swapChain (snd (env_createSwapchain env)));;
  throw_if (VK_SUCCESS ≠ fst (env_createSwapchain env)) "failed to create swap chain";;
  emit (EvGetSwapchainImages (snd (env_createSwapchain env)));;
  (* resize to the reported count, then the driver fills every element *)
  modify (set_m_swapChainImages (env_swapchainImages env));;
  modify (set_m_swapChainImageFormat (format surfaceFormat));;
  modify (set_m_swapChainExtent extent).

(** The [for] loop of [CreateImageViews] from index [i] on; [images] are the
    elements [m_swapChainImages.at(i)], [.at(i+1)], ... *)
Fixpoint CreateImageViews_loop (env : SwapChainEnv) (images : list handle) (i : nat) : M unit :=
  match images with
  | [] => ret tt
  | image :: rest =>
      s <- get;;
      emit (EvCreateImageView image (m_swapChainImageFormat s));;
      throw_if (VK_SUCCESS ≠ fst (env_createImageView env i)) "failed to create image views";;
      modify (fun s' => set_m_swapChainImageViews
                          (<[i := snd (env_createImageView env i)]> (m_swapChainImageViews s')) s');;
      CreateImageViews_loop env rest (S i)
  end.

Definition CreateImageViews (env : SwapChainEnv) : M unit :=
  modify (fun s => set_m_swapChainImageViews
                     (vector_resize (length (m_swapChainImages s)) VK_NULL_HANDLE
                                    (m_swapChainImageViews s)) s);;
  s <- get;;
  CreateImageViews_loop env (m_swapChainImages s) 0.

Fixpoint CreateFramebuffers_loop (env : SwapChainEnv) (imageViews : list handle) (i : nat) : M unit :=
  match imageViews with
  | [] => ret tt
  | imageView :: rest =>
      s <- get;;
      emit (EvCreateFramebuffer (m_renderPass s) imageView (m_swapChainExtent s));;
      throw_if (VK_SUCCESS ≠ fst (env_createFramebuffer env i)) "failed to create framebuffer";;
      modify (fun s' => set_m_swapChainFramebuffers
                          (<[i := snd (env_createFramebuffer env i)]> (m_swapChainFramebuffers s')) s');;
      (* creating framebuffer [i] leaves the views behind it as they are *)
      CreateFramebuffers_loop env rest (S i)
  end.

Definition CreateFramebuffers (env : SwapChainEnv) : M unit :=
  modify (fun s => set_m_swapChainFramebuffers
                     (vector_resize (length (m_swapChainImageViews s)) VK_NULL_HANDLE
                                    (m_swapChainFramebuffers s)) s);;
  s <- get;;
  CreateFramebuffers_loop env (m_swapChainImageViews s) 0.

Fixpoint emit_all (evs : list Event) : M unit :=
  match evs with
  | [] => ret tt
  | e :: rest => emit e;; emit_all rest
  end.

(** [CleanupSwapChain]: the vectors keep their (now dangling) handles. *)
Definition CleanupSwapChain : M unit :=
  s <- get;;
  emit_all (map EvDestroyFramebuffer (m_swapChainFramebuffers s));;
  emit_all (map EvDestroyImageView (m_swapChainImageViews s));;
  emit (EvDestroySwapchain (m_swapChain s)).

Definition size_is_zero (size : Z * Z) : bool := (0 =? fst size) || (0 =? snd size).

(** The [while] loop at the head of [RecreateSwapChain]; [size] holds the
    local variables [width] and [height].  Each round reads the size first
    and then sleeps in [glfwWaitEvents]. *)
Fixpoint RecreateSwapChain_wait (events : list (option (Z * Z))) (size : Z * Z) : M unit :=
  if size_is_zero size then
    s <- get;;
    let size' := framebufferSize s in
    match events with
    | [] => glfwWaitEvents None
    | arrival :: rest => glfwWaitEvents (Some arrival);; RecreateSwapChain_wait rest size'
    end
  else ret tt.

Definition RecreateSwapChain (env : SwapChainEnv) : M unit :=
  emit (EvCall "RecreateSwapChain");;
  s <- get;;
  RecreateSwapChain_wait (env_waitEvents env) (framebufferSize s);;
  vkDeviceWaitIdle;;
  CleanupSwapChain;;
  CreateSwapChain env;;
  CreateImageViews env;;
  CreateFramebuffers env.

(** ** Command recording *)

Definition RecordCommandBuffer (env : FrameEnv) (commandBuffer framebuffer : handle) : M unit :=
  emit (EvBeginCommandBuffer commandBuffer);;
  throw_if (VK_SUCCESS ≠ env_beginCommandBuffer env) "failed to begin recording command buffer";;
  s <- get;;
  emit (EvCmd commandBuffer (CmdBeginRenderPass (m_renderPass s) framebuffer (m_swapChainExtent s)));;
  emit (EvCmd commandBuffer (CmdBindPipeline (m_graphicsPipeline s)));;
  emit (EvCmd commandBuffer (CmdSetViewport (m_swapChainExtent s)));;
  emit (EvCmd commandBuffer (CmdSetScissor (m_swapChainExtent s)));;
  emit (EvCmd commandBuffer (CmdDraw 3 1 0 0));;
  emit (EvCmd commandBuffer CmdEndRenderPass);;
  emit (EvEndCommandBuffer commandBuffer);;
  throw_if (VK_SUCCESS ≠ env_endCommandBuffer env) "failed to record command buffer".

(** ** One frame

    [DrawFrame] is cut at the points where the GPU can make progress between
    two calls of the controlling thread; the pieces are put together again
    in [DrawFrame] below. *)

(** [vkWaitForFences(..., &m_inFlightFences.at(m_currentFrame), ...)] *)
Definition DrawFrame_wait : M unit :=
  s <- get;;
  _ <- vector_at (m_inFlightFences s) (m_currentFrame s);;
  vkWaitForFences (m_currentFrame s).

(** [vkAcquireNextImageKHR] and the test of its result.  [None]: the frame
    was given up on the stale-chain path and [DrawFrame] has returned;
    [Some imageIndex]: carry on with that image. *)
Definition DrawFrame_acquire (env : FrameEnv) : M (option nat) :=
  s <- get;;
  semaphore <- vector_at (m_imageAvailableSemaphores s) (m_currentFrame s);;
  emit (EvAcquireNextImage (m_swapChain s) semaphore);;
  let result := fst (env_acquire env) in
  let imageIndex := snd (env_acquire env) in
  if decide (VK_ERROR_OUT_OF_DATE_KHR = result) then
    RecreateSwapChain (env_recreate env);;
    ret None
  else if decide (VK_SUCCESS ≠ result ∧ VK_SUBOPTIMAL_KHR ≠ result) then
    throw "failed to acquire swap chain image"
  else ret (Some imageIndex).

(** [vkResetFences], [vkResetCommandBuffer], [RecordCommandBuffer] *)
Definition DrawFrame_record (env : FrameEnv) (imageIndex : nat) : M unit :=
  s <- get;;
  _ <- vector_at (m_inFlightFences s) (m_currentFrame s);;
  vkResetFences (m_currentFrame s);;
  commandBuffer <- vector_at (m_commandBuffers s) imageIndex;;
  emit (EvResetCommandBuffer commandBuffer);;
  commandBuffer <- vector_at (m_commandBuffers s) imageIndex;;
  framebuffer <- vector_at (m_swapChainFramebuffers s) imageIndex;;
  RecordCommandBuffer env commandBuffer framebuffer.

(** [vkQueueSubmit]: on success the batch is in the queue. *)
Definition vkQueueSubmit (result : VkResult) (waitSemaphore commandBuffer signalSemaphore : handle)
    (fenceSlot : nat) : M VkResult :=
  emit (EvQueueSubmit waitSemaphore commandBuffer signalSemaphore fenceSlot);;
  (if decide (VK_SUCCESS = result)
   then modify (fun s => set_gpu_pending
                           (gpu_pending s ++ [{| sub_fence := fenceSlot; sub_commandBuffer := commandBuffer |}]) s)
   else ret tt);;
  ret result.

Definition DrawFrame_submit (env : FrameEnv) (imageIndex : nat) : M unit :=
  s <- get;;
  waitSemaphore <- vector_at (m_imageAvailableSemaphores s) (m_currentFrame s);;
  (* [m_commandBuffers[imageIndex]]: unchecked, but [.at(imageIndex)] has passed before *)
  let commandBuffer := default VK_NULL_HANDLE (m_commandBuffers s !! imageIndex) in
  signalSemaphore <- vector_at (m_renderFinishedSemaphores s) (m_currentFrame s);;
  _ <- vector_at (m_inFlightFences s) (m_currentFrame s);;
  result <- vkQueueSubmit (env_queueSubmit env) waitSemaphore commandBuffer signalSemaphore
                          (m_currentFrame s);;
  throw_if (VK_SUCCESS ≠ result) "failed to submit draw command buffer".

(** [vkQueuePresentKHR] and the test that follows it. *)
Definition DrawFrame_present (env : FrameEnv) (imageIndex : nat) : M unit :=
  s <- get;;
  waitSemaphore <- vector_at (m_renderFinishedSemaphores s) (m_currentFrame s);;
  emit (EvQueuePresent waitSemaphore (m_swapChain s) imageIndex);;
  let result := env_queuePresent env in
  if decide (VK_ERROR_OUT_OF_DATE_KHR = result ∨ VK_SUBOPTIMAL_KHR = result
             ∨ m_framebufferResized s = true) then
    modify (set_m_framebufferResized false);;
    RecreateSwapChain (env_recreate env)
  else throw_if (VK_SUCCESS ≠ result) "failed to presend swap chain image".

(** [m_currentFrame = (m_currentFrame + 1) % MAX_FRAMES_IN_FLIGHT] *)
Definition DrawFrame_advance : M unit :=
  modify (fun s => set_m_currentFrame ((m_currentFrame s + 1) mod MAX_FRAMES_IN_FLIGHT)%nat s).

Definition DrawFrame (env : FrameEnv) : M unit :=
  DrawFrame_wait;;
  acquired <- DrawFrame_acquire env;;
  match acquired with
  | None => ret tt
  | Some imageIndex =>
      DrawFrame_record env imageIndex;;
      DrawFrame_submit env imageIndex;;
      DrawFrame_present env imageIndex;;
      DrawFrame_advance
  end.

(** [MainLoop]: one entry of [envs] per round of the [while] loop, i.e. per
    time [glfwWindowShouldClose] answered no. *)
Fixpoint MainLoop (envs : list FrameEnv) : M unit :=
  match envs with
  | [] => vkDeviceWaitIdle
  | env :: rest =>
      glfwPollEvents (env_pollEvents env);;
      DrawFrame env;;
      MainLoop rest
  end.

(** ** Initialisation *)

(** Answers used by [InitWindow] and [InitVulkan].  The set-up functions
    outside the presentation core are represented by the exception they
    throw, if any. *)
Record InitEnv : Type := {
  init_glfwInit : bool;
  init_framebufferSize : Z * Z;
  init_CreateInstance : option string;
  init_SetupDebugCallback : option string;
  init_CreateSurface : option string;
  init_devices : list PhysicalDevice;          (* vkEnumeratePhysicalDevices *)
  init_CreateLogicalDevice : option string;
  init_swapChain : SwapChainEnv;
  init_createRenderPass : VkResult * handle;
  init_CreateGraphicsPipeline : string + handle * handle;   (* layout, pipeline *)
  init_createCommandPool : VkResult * handle;
  init_allocateCommandBuffers : VkResult * (nat -> handle);
  init_createImageAvailable : nat -> VkResult * handle;
  init_createRenderFinished : nat -> VkResult * handle;
  init_createFence : nat -> VkResult
}.

(** The object as its default member initialisers leave it. *)
Definition HelloTriangleApplication : State :=
  {| m_physicalDevice := None;
     m_swapChain := VK_NULL_HANDLE;
     m_swapChainImages := [];
     m_swapChainImageFormat := VK_FORMAT_UNDEFINED;
     m_swapChainExtent := {| width := 0; height := 0 |};
     m_swapChainImageViews := [];
     m_renderPass := VK_NULL_HANDLE;
     m_pipelineLayout := VK_NULL_HANDLE;
     m_graphicsPipeline := VK_NULL_HANDLE;
     m_swapChainFramebuffers := [];
     m_commandPool := VK_NULL_HANDLE;
     m_commandBuffers := [];
     m_imageAvailableSemaphores := [];
     m_renderFinishedSemaphores := [];
     m_inFlightFences := [];
     m_currentFrame := 0%nat;
     m_framebufferResized := false;
     framebufferSize := (0, 0);
     gpu_pending := [];
     trace := [] |}.

Definition external_step (outcome : option string) : M unit :=
  match outcome with
  | Some what => throw what
  | None => ret tt
  end.

Definition InitWindow (env : InitEnv) : M unit :=
  throw_if (init_glfwInit env = false) "failed to init GLFW";;
  modify (set_framebufferSize (init_framebufferSize env)).

Definition PickPhysicalDevice (devices : list PhysicalDevice) : M unit :=
  throw_if (0%nat = length devices) "failed to find GPUs with Vulkan support";;
  modify (fun s => set_m_physicalDevice (PickPhysicalDevice_loop devices (m_physicalDevice s)) s);;
  s <- get;;
  match m_physicalDevice s with
  | None => throw "failed to find a suitable GPU"
  | Some _ => ret tt
  end.

Definition CreateRenderPass (env : InitEnv) : M unit :=
  throw_if (VK_SUCCESS ≠ fst (init_createRenderPass env)) "failed to create render pass";;
  modify (set_m_renderPass (snd (init_createRenderPass env))).

Definition CreateGraphicsPipeline (env : InitEnv) : M unit :=
  match init_CreateGraphicsPipeline env with
  | inl what => throw what
  | inr (layout, pipeline) =>
      modify (set_m_pipelineLayout layout);;
      modify (set_m_graphicsPipeline pipeline)
  end.

Definition CreateCommandPool (env : InitEnv) : M unit :=
  s <- get;;
  let indices :=
    match m_physicalDevice s with
    | Some device => FindQueueFamilies device
    | None => {| graphicsFamily := None; presentFamily := None |}
    end in
  _ <- optional_value (graphicsFamily indices);;
  throw_if (VK_SUCCESS ≠ fst (init_createCommandPool env)) "failed to create command pool";;
  modify (set_m_commandPool (snd (init_createCommandPool env))).

(** [CreateCommandBuffers]: as many command buffers as there are
    framebuffers at this moment. *)
Definition CreateCommandBuffers (env : InitEnv) : M unit :=
  modify (fun s => set_m_commandBuffers
                     (vector_resize (length (m_swapChainFramebuffers s)) VK_NULL_HANDLE
                                    (m_commandBuffers s)) s);;
  s <- get;;
  emit (EvAllocateCommandBuffers (m_commandPool s) (length (m_commandBuffers s)));;
  throw_if (VK_SUCCESS ≠ fst (init_allocateCommandBuffers env)) "failed to allocate command buffers";;
  modify (fun s' => set_m_commandBuffers
                      (imap (fun i _ => snd (init_allocateCommandBuffers env) i) (m_commandBuffers s')) s').

(** A creation call whose result is tested with [VK_SUCCESS != ...]: the
    handle is stored on success. *)
Definition create_or_throw (result : VkResult) (store : State -> State) (what : string) : M unit :=
  if decide (VK_SUCCESS ≠ result) then throw what else modify store.

(** The [for] loop of [CreateSyncObjects]; [n] rounds are left, the next one
    is for slot [i].  The three creations are joined by [||], so the first
    failure throws; fences are created signalled. *)
Fixpoint CreateSyncObjects_loop (env : InitEnv) (n i : nat) : M unit :=
  match n with
  | O => ret tt
  | S n' =>
      let what := "failed to create synchronization objects for a frame" in
      create_or_throw (fst (init_createImageAvailable env i))
        (fun s => set_m_imageAvailableSemaphores
                    (<[i := snd (init_createImageAvailable env i)]> (m_imageAvailableSemaphores s)) s)
        what;;
      create_or_throw (fst (init_createRenderFinished env i))
        (fun s => set_m_renderFinishedSemaphores
                    (<[i := snd (init_createRenderFinished env i)]> (m_renderFinishedSemaphores s)) s)
        what;;
      create_or_throw (init_createFence env i)
        (fun s => set_m_inFlightFences (<[i := true]> (m_inFlightFences s)) s)
        what;;
      CreateSyncObjects_loop env n' (S i)
  end.

Definition CreateSyncObjects (env : InitEnv) : M unit :=
  modify (fun s => set_m_imageAvailableSemaphores
                     (vector_resize MAX_FRAMES_IN_FLIGHT VK_NULL_HANDLE (m_imageAvailableSemaphores s)) s);;
  modify (fun s => set_m_renderFinishedSemaphores
                     (vector_resize MAX_FRAMES_IN_FLIGHT VK_NULL_HANDLE (m_renderFinishedSemaphores s)) s);;
  modify (fun s => set_m_inFlightFences
                     (vector_resize MAX_FRAMES_IN_FLIGHT false (m_inFlightFences s)) s);;
  CreateSyncObjects_loop env MAX_FRAMES_IN_FLIGHT 0.

Definition InitVulkan (env : InitEnv) : M unit :=
  external_step (init_CreateInstance env);;
  external_step (init_SetupDebugCallback env);;
  external_step (init_CreateSurface env);;
  PickPhysicalDevice (init_devices env);;
  external_step (init_CreateLogicalDevice env);;
  CreateSwapChain (init_swapChain env);;
  CreateImageViews (init_swapChain env);;
  CreateRenderPass env;;
  CreateGraphicsPipeline env;;
  CreateFramebuffers (init_swapChain env);;
  CreateCommandPool env;;
  CreateCommandBuffers env;;
  CreateSyncObjects env.

(** [Run] up to and including the main loop. *)
Definition Run (ienv : InitEnv) (envs : list FrameEnv) : M unit :=
  InitWindow ienv;;
  InitVulkan ienv;;
  MainLoop envs.

(** ** The frame loop with the GPU running beside it

    The controlling thread is at one of the cut points of [DrawFrame]; the
    GPU may finish any pending submission at any time. *)

Inductive Pc : Type :=
  | PcPoll                        (* top of the [while] loop *)
  | PcWait
  | PcAcquire
  | PcRecord (imageIndex : nat)
  | PcSubmit (imageIndex : nat)
  | PcPresent (imageIndex : nat)
  | PcAdvance
  | PcStopped.                    (* loop left, exception, or stuck for ever *)

Definition run_phase (pc : Pc) (env : FrameEnv) : M Pc :=
  match pc with
  | PcPoll => glfwPollEvents (env_pollEvents env);; ret PcWait
  | PcWait => DrawFrame_wait;; ret PcAcquire
  | PcAcquire =>
      acquired <- DrawFrame_acquire env;;
      ret (match acquired with None => PcPoll | Some imageIndex => PcRecord imageIndex end)
  | PcRecord imageIndex => DrawFrame_record env imageIndex;; ret (PcSubmit imageIndex)
  | PcSubmit imageIndex => DrawFrame_submit env imageIndex;; ret (PcPresent imageIndex)
  | PcPresent imageIndex => DrawFrame_present env imageIndex;; ret PcAdvance
  | PcAdvance => DrawFrame_advance;; ret PcPoll
  | PcStopped => ret PcStopped
  end.

Inductive step : Pc * State -> Pc * State -> Prop :=
  | step_gpu pc s k :
      (k < length (gpu_pending s))%nat ->
      step (pc, s) (pc, gpu_finish k s)
  | step_cpu pc env s pc' s' :
      pc ≠ PcStopped ->
      run_phase pc env s = Ok pc' s' ->
      step (pc, s) (pc', s')
  | step_throw pc env s what s' :
      pc ≠ PcStopped ->
      run_phase pc env s = Throw what s' ->
      step (pc, s) (PcStopped, s')
  | step_block pc env s s' :
      pc ≠ PcStopped ->
      run_phase pc env s = Block s' ->
      step (pc, s) (PcStopped, s')
  | step_close s :
      step (PcPoll, s) (PcStopped, res_state (vkDeviceWaitIdle s)).

(** The configurations the program can be in after [InitWindow] and
    [InitVulkan] have returned. *)
Definition reachable (cfg : Pc * State) : Prop :=
  exists ienv s0,
    (InitWindow ienv;; InitVulkan ienv) HelloTriangleApplication = Ok tt s0
    /\ rtc step (PcPoll, s0) cfg.

(** Frames in flight: submitted, not yet finished by the GPU. *)
Definition frames_in_flight (s : State) : nat := length (gpu_pending s).

(** ** Kinds of events *)

Definition is_release (e : Event) : bool :=
  match e with
  | EvDestroyFramebuffer _ | EvDestroyImageView _ | EvDestroySwapchain _ => true
  | _ => false
  end.

Definition is_allocation (e : Event) : bool :=
  match e with
  | EvCreateSwapchain _ | EvCreateImageView _ _ | EvCreateFramebuffer _ _ _
  | EvAllocateCommandBuffers _ _ => true
  | _ => false
  end.

(** Events of the command recorder ([vkResetCommandBuffer] and
    [RecordCommandBuffer]). *)
Definition is_recording (e : Event) : bool :=
  match e with
  | EvResetCommandBuffer _ | EvBeginCommandBuffer _ | EvCmd _ _ | EvEndCommandBuffer _ => true
  | _ => false
  end.

Definition is_frame_work (e : Event) : bool :=
  match e with
  | EvResetFences _ | EvQueueSubmit _ _ _ _ | EvQueuePresent _ _ _ => true
  | _ => is_recording e
  end.

Definition is_recreate_call (e : Event) : bool :=
  match e with
  | EvCall fn => bool_decide (fn = "RecreateSwapChain")
  | _ => false
  end.

(** ** The specification's wording, for comparison *)

(** "clamped into [lo, hi]" *)
Definition clamp_into (lo hi v : Z) : Z := Z.max lo (Z.min v hi).

(** Per the comments in [ChooseSwapPresentMode]: with FIFO the program waits
    when the queue is full, FIFO_RELAXED is a variant of it; IMMEDIATE and
    MAILBOX never make the program wait. *)
Definition throttles_cpu (mode : VkPresentModeKHR) : bool :=
  match mode with
  | VK_PRESENT_MODE_FIFO_KHR | VK_PRESENT_MODE_FIFO_RELAXED_KHR => true
  | _ => false
  end.

(** The rule as the specification words it: MAILBOX if offered, else a
    CPU-throttling mode, else FIFO. *)
Definition spec_ChooseSwapPresentMode (availablePresentModes : list VkPresentModeKHR) : VkPresentModeKHR :=
  if bool_decide (VK_PRESENT_MODE_MAILBOX_KHR ∈ availablePresentModes)
  then VK_PRESENT_MODE_MAILBOX_KHR
  else match List.find throttles_cpu availablePresentModes with
       | Some mode => mode
       | None => VK_PRESENT_MODE_FIFO_KHR
       end.

(** The rule the code follows. *)
Definition code_ChooseSwapPresentMode_rule (availablePresentModes : list VkPresentModeKHR) : VkPresentModeKHR :=
  if bool_decide (VK_PRESENT_MODE_MAILBOX_KHR ∈ availablePresentModes)
  then VK_PRESENT_MODE_MAILBOX_KHR
  else if bool_decide (VK_PRESENT_MODE_IMMEDIATE_KHR ∈ availablePresentModes)
       then VK_PRESENT_MODE_IMMEDIATE_KHR
       else VK_PRESENT_MODE_FIFO_KHR.

(** The four eligibility conditions of the capability selector. *)
Definition exposes_graphics_queue (device : PhysicalDevice) : Prop :=
  exists q, q ∈ pd_queueFamilies device /\ Z.land (queueFlags q) VK_QUEUE_GRAPHICS_BIT <> 0.

Definition exposes_present_queue (device : PhysicalDevice) : Prop :=
  exists q, q ∈ pd_queueFamilies device /\ presentSupport q = true.

Definition supports_required_extensions (device : PhysicalDevice) : Prop :=
  forall name, name ∈ g_deviceExtensions -> name ∈ pd_extensions device.

Definition swapchain_support_nonempty (device : PhysicalDevice) : Prop :=
  foramts (pd_support device) <> [] /\ presentModes (pd_support device) <> [].

Definition eligible (device : PhysicalDevice) : Prop :=
  exposes_graphics_queue device /\ exposes_present_queue device
  /\ supports_required_extensions device /\ swapchain_support_nonempty device.

(** ** A sample run

    One device with a single queue family for graphics and presentation, a
    surface asking for two to three images, and a driver that always
    succeeds. *)

Definition example_support (minImages : Z) : SwapChainSupportDetails :=
  {| capabilities :=
       {| minImageCount := minImages; maxImageCount := 0;
          currentExtent := {| width := 800; height := 600 |};
          minImageExtent := {| width := 1; height := 1 |};
          maxImageExtent := {| width := 4096; height := 4096 |};
          currentTransform := 1 |};
     foramts := [{| format := VK_FORMAT_B8G8R8A8_UNORM;
                    colorSpace := VK_COLOR_SPACE_SRGB_NONLINEAR_KHR |}];
     presentModes := [VK_PRESENT_MODE_FIFO_KHR; VK_PRESENT_MODE_MAILBOX_KHR] |}.

Definition example_device : PhysicalDevice :=
  {| pd_handle := 1%N;
     pd_queueFamilies := [{| queueFlags := 15; presentSupport := true |}];
     pd_extensions := ["VK_KHR_maintenance1"; "VK_KHR_swapchain"];
     pd_support := example_support 2 |}.

(** A swap chain for which the driver creates the images [images]. *)
Definition example_swapChain (minImages : Z) (chain : handle) (images : list handle) : SwapChainEnv :=
  {| env_waitEvents := [];
     env_support := example_support minImages;
     env_createSwapchain := (VK_SUCCESS, chain);
     env_swapchainImages := images;
     env_createImageView := fun i => (VK_SUCCESS, (chain + 10 + N.of_nat i)%N);
     env_createFramebuffer := fun i => (VK_SUCCESS, (chain + 20 + N.of_nat i)%N) |}.

Definition example_init : InitEnv :=
  {| init_glfwInit := true;
     init_framebufferSize := (800, 600);
     init_CreateInstance := None;
     init_SetupDebugCallback := None;
     init_CreateSurface := None;
     init_devices := [example_device];
     init_CreateLogicalDevice := None;
     init_swapChain := example_swapChain 2 100%N [101; 102; 103]%N;
     init_createRenderPass := (VK_SUCCESS, 2%N);
     init_CreateGraphicsPipeline := inr (3%N, 4%N);
     init_createCommandPool := (VK_SUCCESS, 5%N);
     init_allocateCommandBuffers := (VK_SUCCESS, fun i => (50 + N.of_nat i)%N);
     init_createImageAvailable := fun i => (VK_SUCCESS, (60 + N.of_nat i)%N);
     init_createRenderFinished := fun i => (VK_SUCCESS, (70 + N.of_nat i)%N);
     init_createFence := fun _ => VK_SUCCESS |}.

(** The state in which the sample run enters [MainLoop]. *)
Definition example_state : State :=
  res_state ((InitWindow example_init;; InitVulkan example_init) HelloTriangleApplication).

(** One frame of the sample run: what acquisition and presentation answer,
    and the swap chain a recreation would build. *)
Definition example_frame (acquire : VkResult * nat) (present : VkResult)
    (recreate : SwapChainEnv) : FrameEnv :=
  {| env_pollEvents := None;
     env_acquire := acquire;
     env_beginCommandBuffer := VK_SUCCESS;
     env_endCommandBuffer := VK_SUCCESS;
     env_queueSubmit := VK_SUCCESS;
     env_queuePresent := present;
     env_recreate := recreate |}.

(** ** Relations between the state before and after a call *)

(** [respects R m]: whatever way [m] ends, the state it ends in is related
    by [R] to the state it started from. *)
Definition respects (R : State -> State -> Prop) {A : Type} (m : M A) : Prop :=
  forall s, R s (res_state (m s)).

(** The trace only grows, and by events that satisfy [P]. *)
Definition trace_ext (P : Event -> Prop) (s s' : State) : Prop :=
  exists evs, trace s' = trace s ++ evs /\ Forall P evs.

(** The events emitted between [s] and a later state [s']. *)
Definition emitted (s s' : State) : list Event := drop (length (trace s)) (trace s').

Inductive EventClass : Type :=
  | ClsCall | ClsWindow | ClsFenceWait | ClsGpu | ClsAcquire | ClsFenceReset
  | ClsRecord | ClsSubmit | ClsPresent | ClsAlloc | ClsQuery | ClsRelease.

Global Instance EventClass_eq_dec : EqDecision EventClass.
Proof. solve_decision. Defined.

Definition event_class (e : Event) : EventClass :=
  match e with
  | EvCall _ => ClsCall
  | EvPollEvents | EvWaitEvents => ClsWindow
  | EvWaitForFences _ => ClsFenceWait
  | EvFenceSignaled _ | EvDeviceWaitIdle => ClsGpu
  | EvAcquireNextImage _ _ => ClsAcquire
  | EvResetFences _ => ClsFenceReset
  | EvResetCommandBuffer _ | EvBeginCommandBuffer _ | EvCmd _ _ | EvEndCommandBuffer _ => ClsRecord
  | EvQueueSubmit _ _ _ _ => ClsSubmit
  | EvQueuePresent _ _ _ => ClsPresent
  | EvCreateSwapchain _ | EvCreateImageView _ _ | EvCreateFramebuffer _ _ _
  | EvAllocateCommandBuffers _ _ => ClsAlloc
  | EvGetSwapchainImages _ => ClsQuery
  | EvDestroyFramebuffer _ | EvDestroyImageView _ | EvDestroySwapchain _ => ClsRelease
  end.

(** [m] emits only events of the classes in [L]. *)
Definition emits (L : list EventClass) {A : Type} (m : M A) : Prop :=
  respects (trace_ext (fun e => event_class e ∈ L)) m.

(** Every class. *)
Definition all_classes : list EventClass :=
  [ClsCall; ClsWindow; ClsFenceWait; ClsGpu; ClsAcquire; ClsFenceReset;
   ClsRecord; ClsSubmit; ClsPresent; ClsAlloc; ClsQuery; ClsRelease].

(** The classes of events a rebuild of the swap chain can emit. *)
Definition recreate_classes : list EventClass :=
  [ClsCall; ClsWindow; ClsGpu; ClsRelease; ClsAlloc; ClsQuery].

(** The classes of events a frame can emit before it presents. *)
Definition before_present_classes : list EventClass :=
  [ClsFenceWait; ClsGpu; ClsAcquire; ClsFenceReset; ClsRecord; ClsSubmit].

(** What a rebuild of the swap chain leaves alone: the long-lived objects,
    the command buffers, the per-slot objects and the frame index; fences
    that are signalled stay signalled, and the GPU queue is either untouched
    or drained. *)
Record rebuild_keeps (s s' : State) : Prop := {
  rk_physicalDevice : m_physicalDevice s' = m_physicalDevice s;
  rk_renderPass : m_renderPass s' = m_renderPass s;
  rk_pipelineLayout : m_pipelineLayout s' = m_pipelineLayout s;
  rk_graphicsPipeline : m_graphicsPipeline s' = m_graphicsPipeline s;
  rk_commandPool : m_commandPool s' = m_commandPool s;
  rk_commandBuffers : m_commandBuffers s' = m_commandBuffers s;
  rk_imageAvailable : m_imageAvailableSemaphores s' = m_imageAvailableSemaphores s;
  rk_renderFinished : m_renderFinishedSemaphores s' = m_renderFinishedSemaphores s;
  rk_currentFrame : m_currentFrame s' = m_currentFrame s;
  rk_fences_length : length (m_inFlightFences s') = length (m_inFlightFences s);
  rk_signaled : forall i, m_inFlightFences s !! i = Some true ->
                          m_inFlightFences s' !! i = Some true;
  rk_gpu : (gpu_pending s' = gpu_pending s /\ m_inFlightFences s' = m_inFlightFences s)
           \/ gpu_pending s' = []
}.

(** The swap chain objects are left as they are. *)
Record chain_keeps (s s' : State) : Prop := {
  ck_swapChain : m_swapChain s' = m_swapChain s;
  ck_swapChainImages : m_swapChainImages s' = m_swapChainImages s;
  ck_swapChainImageViews : m_swapChainImageViews s' = m_swapChainImageViews s;
  ck_swapChainFramebuffers : m_swapChainFramebuffers s' = m_swapChainFramebuffers s
}.

(** What the part of a frame before presentation leaves alone. *)
Record frame_keeps (s s' : State) : Prop := {
  fk_swapChain : m_swapChain s' = m_swapChain s;
  fk_swapChainImages : m_swapChainImages s' = m_swapChainImages s;
  fk_swapChainFramebuffers : m_swapChainFramebuffers s' = m_swapChainFramebuffers s;
  fk_commandBuffers : m_commandBuffers s' = m_commandBuffers s;
  fk_imageAvailable : m_imageAvailableSemaphores s' = m_imageAvailableSemaphores s;
  fk_renderFinished : m_renderFinishedSemaphores s' = m_renderFinishedSemaphores s;
  fk_fences_length : length (m_inFlightFences s') = length (m_inFlightFences s);
  fk_currentFrame : m_currentFrame s' = m_currentFrame s;
  fk_framebufferResized : m_framebufferResized s' = m_framebufferResized s;
  fk_framebufferSize : framebufferSize s' = framebufferSize s
}.

(** Nothing but the trace differs. *)
Definition only_trace (s s' : State) : Prop := s' = set_trace (trace s') s.

(** An idle GPU queue stays idle and the frame index stays. *)
Definition idle_keeps (s s' : State) : Prop :=
  (gpu_pending s = [] -> gpu_pending s' = []) /\ m_currentFrame s' = m_currentFrame s.

(** The per-slot vectors keep their sizes. *)
Definition slots_keep (s s' : State) : Prop :=
  length (m_imageAvailableSemaphores s') = length (m_imageAvailableSemaphores s)
  /\ length (m_renderFinishedSemaphores s') = length (m_renderFinishedSemaphores s)
  /\ length (m_inFlightFences s') = length (m_inFlightFences s).

(** [DrawFrame] up to and including [vkQueueSubmit]; the result is the image
    index to present, or [None] when the frame was given up. *)
Definition DrawFrame_before_present (env : FrameEnv) : M (option nat) :=
  DrawFrame_wait;;
  acquired <- DrawFrame_acquire env;;
  match acquired with
  | None => ret None
  | Some imageIndex =>
      DrawFrame_record env imageIndex;;
      DrawFrame_submit env imageIndex;;
      ret (Some imageIndex)
  end.

(** The same answers, with another answer to [vkAcquireNextImageKHR]. *)
Definition set_env_acquire (a : VkResult * nat) (env : FrameEnv) : FrameEnv :=
  {| env_pollEvents := env_pollEvents env;
     env_acquire := a;
     env_beginCommandBuffer := env_beginCommandBuffer env;
     env_endCommandBuffer := env_endCommandBuffer env;
     env_queueSubmit := env_queueSubmit env;
     env_queuePresent := env_queuePresent env;
     env_recreate := env_recreate env |}.

(** The test after [vkQueuePresentKHR]: the presentation result is stale or
    suboptimal, or the resize flag is set. *)
Definition recreation_due (env : FrameEnv) (s : State) : Prop :=
  env_queuePresent env = VK_ERROR_OUT_OF_DATE_KHR
  \/ env_queuePresent env = VK_SUBOPTIMAL_KHR
  \/ m_framebufferResized s = true.

(** A submit event names the fence of slot [c]. *)
Definition submit_slot_is (c : nat) (e : Event) : Prop :=
  match e with
  | EvQueueSubmit _ _ _ fenceSlot => fenceSlot = c
  | _ => True
  end.

(** The trace grows, every submit in it signals the fence of the current
    slot, and the current slot stays. *)
Definition submits_current (s s' : State) : Prop :=
  trace_ext (submit_slot_is (m_currentFrame s)) s s' /\ m_currentFrame s' = m_currentFrame s.

(** Two frames of the sample run, the GPU finishing nothing meanwhile. *)
Definition example_frame1 : FrameEnv :=
  example_frame (VK_SUCCESS, 0%nat) VK_SUCCESS (example_swapChain 2 200%N [201; 202; 203]%N).

Definition example_frame2 : FrameEnv :=
  example_frame (VK_SUCCESS, 1%nat) VK_SUCCESS (example_swapChain 2 200%N [201; 202; 203]%N).

Definition example_polled1 : State := res_state (glfwPollEvents None example_state).
Definition example_after1 : State := res_state (DrawFrame example_frame1 example_polled1).
Definition example_polled2 : State := res_state (glfwPollEvents None example_after1).
Definition example_after2 : State := res_state (DrawFrame example_frame2 example_polled2).

(** The image list and the sizes of the per-image vectors stay. *)
Definition sizes_keep (s s' : State) : Prop :=
  m_swapChainImages s' = m_swapChainImages s
  /\ length (m_swapChainImageViews s') = length (m_swapChainImageViews s)
  /\ length (m_swapChainFramebuffers s') = length (m_swapChainFramebuffers s)
  /\ length (m_commandBuffers s') = length (m_commandBuffers s).

(** A frame of the sample run that is presented on a chain reported as
    suboptimal: the surface now asks for at least three images and the
    driver creates four. *)
Definition example_resize_frame : FrameEnv :=
  example_frame (VK_SUCCESS, 0%nat) VK_SUBOPTIMAL_KHR
                (example_swapChain 3 200%N [201; 202; 203; 204]%N).

Definition example_resized : State :=
  res_state (DrawFrame example_resize_frame example_polled1).

(** The next frame, for which the driver hands out the fourth image. *)
Definition example_fourth_image_frame : FrameEnv :=
  example_frame (VK_SUCCESS, 3%nat) VK_SUCCESS (example_swapChain 3 300%N [301; 302; 303; 304]%N).

(** ** The invariant of the frame loop *)

(** Every pending submission signals the fence of a different slot, and that
    fence is unsignalled. *)
Record sync_inv (s : State) : Prop := {
  si_fences : length (m_inFlightFences s) = MAX_FRAMES_IN_FLIGHT;
  si_imageAvailable : length (m_imageAvailableSemaphores s) = MAX_FRAMES_IN_FLIGHT;
  si_renderFinished : length (m_renderFinishedSemaphores s) = MAX_FRAMES_IN_FLIGHT;
  si_currentFrame : (m_currentFrame s < MAX_FRAMES_IN_FLIGHT)%nat;
  si_distinct : NoDup (map sub_fence (gpu_pending s));
  si_unsignaled : forall sub, sub ∈ gpu_pending s ->
                              m_inFlightFences s !! sub_fence sub = Some false
}.

(** What is known in addition at each cut point of [DrawFrame]. *)
Definition pc_inv (pc : Pc) (s : State) : Prop :=
  match pc with
  | PcAcquire | PcRecord _ => m_inFlightFences s !! m_currentFrame s = Some true
  | PcSubmit _ =>
      m_inFlightFences s !! m_currentFrame s = Some false
      /\ m_currentFrame s ∉ map sub_fence (gpu_pending s)
  | _ => True
  end.

(** ** Further parts of the program *)

(** The format and colour space [ChooseSwapSurfaceFormat] looks for. *)
Definition preferred_surface_format : VkSurfaceFormatKHR :=
  {| format := VK_FORMAT_B8G8R8A8_UNORM; colorSpace := VK_COLOR_SPACE_SRGB_NONLINEAR_KHR |}.

(** [const std::vector<const char*> g_validationLayers] *)
Definition g_validationLayers : list string := ["VK_LAYER_KHRONOS_validation"].

(** The inner loop of [CheckValidationLayerSupport]: [layerFound] is set and
    the loop left at the first available layer whose name compares equal
    under [strcmp]. *)
Fixpoint layerFound (layerName : string) (availableLayers : list string) : bool :=
  match availableLayers with
  | [] => false
  | layerProperties :: rest =>
      if String.eqb layerName layerProperties then true else layerFound layerName rest
  end.

(** The outer loop: the first requested layer that is not found ends the
    function with [false]. *)
Fixpoint CheckValidationLayerSupport_loop (layers availableLayers : list string) : bool :=
  match layers with
  | [] => true
  | layerName :: rest =>
      if negb (layerFound layerName availableLayers) then false
      else CheckValidationLayerSupport_loop rest availableLayers
  end.

(** [CheckValidationLayerSupport]; [availableLayers] is what
    [vkEnumerateInstanceLayerProperties] reports.  The listing it prints on
    [std::cout] is left out. *)
Definition CheckValidationLayerSupport (availableLayers : list string) : bool :=
  CheckValidationLayerSupport_loop g_validationLayers availableLayers.

(** [m] always comes back: it returns or throws, it never waits for ever. *)
Definition comes_back {A : Type} (m : M A) : Prop := forall s s', m s <> Block s'.

(** Every unsignalled fence has a pending submission that will signal it. *)
Definition fences_covered (s : State) : Prop :=
  forall slot, m_inFlightFences s !! slot = Some false ->
               slot ∈ map sub_fence (gpu_pending s).

(** The same at a cut point of [DrawFrame]: between the fence reset and the
    submit the fence of the current slot is the one exception, and nothing
    is claimed once the loop has been left. *)
Definition fence_inv (pc : Pc) (s : State) : Prop :=
  match pc with
  | PcStopped => True
  | PcSubmit _ =>
      forall slot, m_inFlightFences s !! slot = Some false -> slot <> m_currentFrame s ->
                   slot ∈ map sub_fence (gpu_pending s)
  | _ => fences_covered s
  end.

(** Fences and GPU queue are left as they are. *)
Definition sync_keeps (s s' : State) : Prop :=
  m_inFlightFences s' = m_inFlightFences s /\ gpu_pending s' = gpu_pending s.

(** [m] is left by no exception other than those whose message is in [L]. *)
Definition throws (L : list string) {A : Type} (m : M A) : Prop :=
  forall s what s', m s = Throw what s' -> In what L.

(** The exceptions of a rebuild of the swap chain. *)
Definition recreate_errors : list string :=
  ["std::bad_optional_access"; "failed to create swap chain";
   "failed to create image views"; "failed to create framebuffer"].

(** The exceptions of one frame. *)
Definition frame_errors : list string :=
  ["std::out_of_range"; "failed to acquire swap chain image";
   "failed to begin recording command buffer"; "failed to record command buffer";
   "failed to submit draw command buffer"; "failed to presend swap chain image"]
  ++ recreate_errors.

(** The selected device stays. *)
Definition device_keeps (s s' : State) : Prop := m_physicalDevice s' = m_physicalDevice s.

(** The window size and the resize flag stay. *)
Definition window_keeps (s s' : State) : Prop :=
  m_framebufferResized s' = m_framebufferResized s /\ framebufferSize s' = framebufferSize s.

(** The device [PickPhysicalDevice] selected is in place. *)
Definition device_selected (s : State) : Prop :=
  exists device, m_physicalDevice s = Some device /\ eligible device.

(** Coverage of the unsignalled fences is not lost. *)
Definition covered_keeps (s s' : State) : Prop := fences_covered s -> fences_covered s'.

(** The per-slot vectors have an element for the current slot. *)
Definition slots_ready (s : State) : Prop :=
  (m_currentFrame s < length (m_imageAvailableSemaphores s))%nat
  /\ (m_currentFrame s < length (m_renderFinishedSemaphores s))%nat
  /\ (m_currentFrame s < length (m_inFlightFences s))%nat.

(** The exceptions of the three creations of a rebuild. *)
Definition creation_errors : list string :=
  ["failed to create swap chain"; "failed to create image views";
   "failed to create framebuffer"].

(** The objects created once, at initialisation, are left as they are. *)
Record objects_keep (s s' : State) : Prop := {
  ok_physicalDevice : m_physicalDevice s' = m_physicalDevice s;
  ok_renderPass : m_renderPass s' = m_renderPass s;
  ok_pipelineLayout : m_pipelineLayout s' = m_pipelineLayout s;
  ok_graphicsPipeline : m_graphicsPipeline s' = m_graphicsPipeline s;
  ok_commandPool : m_commandPool s' = m_commandPool s;
  ok_commandBuffers : m_commandBuffers s' = m_commandBuffers s;
  ok_imageAvailable : m_imageAvailableSemaphores s' = m_imageAvailableSemaphores s;
  ok_renderFinished : m_renderFinishedSemaphores s' = m_renderFinishedSemaphores s
}.

(** There is one image view and one framebuffer per swap chain image. *)
Definition chain_consistent (s : State) : Prop :=
  length (m_swapChainImageViews s) = length (m_swapChainImages s)
  /\ length (m_swapChainFramebuffers s) = length (m_swapChainImages s).

(** The same at a cut point of [DrawFrame]; nothing is claimed once the loop
    has been left, possibly in the middle of a rebuild. *)
Definition chain_inv (pc : Pc) (s : State) : Prop :=
  match pc with
  | PcStopped => True
  | _ => chain_consistent s
  end.

(** How often [RecreateSwapChain] is entered in a run of events. *)
Definition recreations (evs : list Event) : nat := length (List.filter is_recreate_call evs).

(** The trace grows, by at most [n] entries of [RecreateSwapChain]. *)
Definition recreates_at_most (n : nat) (s s' : State) : Prop :=
  exists evs, trace s' = trace s ++ evs /\ (recreations evs <= n)%nat.

(** * Properties *)

(** ** Image count *)

Lemma to_uint32_id z : is_uint32 z -> to_uint32 z = z.
Proof. unfold is_uint32, to_uint32, UINT32_MAX. intros H. apply Z.mod_small. lia. Qed.

Lemma to_uint32_range z : is_uint32 (to_uint32 z).
Proof.
  unfold is_uint32, to_uint32, UINT32_MAX.
  pose proof (Z.mod_pos_bound z 4294967296 ltac:(lia)). lia.
Qed.

Lemma requestedImageCount_bounded caps :
  0 < maxImageCount caps ->
  requestedImageCount caps = Z.min (to_uint32 (minImageCount caps + 1)) (maxImageCount caps).
Proof.
  intros Hmax. unfold requestedImageCount.
  destruct (Z.ltb_spec 0 (maxImageCount caps)); [|lia].
  destruct (Z.ltb_spec (maxImageCount caps) (to_uint32 (minImageCount caps + 1))); simpl; lia.
Qed.

Lemma requestedImageCount_unbounded caps :
  maxImageCount caps <= 0 ->
  requestedImageCount caps = to_uint32 (minImageCount caps + 1).
Proof.
  intros Hmax. unfold requestedImageCount.
  destruct (Z.ltb_spec 0 (maxImageCount caps)); [lia|reflexivity].
Qed.

(** Without wrap-around the sum is the mathematical one. *)
Lemma requestedImageCount_no_wrap caps :
  0 <= minImageCount caps < UINT32_MAX ->
  requestedImageCount caps =
    if 0 <? maxImageCount caps
    then Z.min (minImageCount caps + 1) (maxImageCount caps)
    else minImageCount caps + 1.
Proof.
  intros Hmin.
  assert (Hid : to_uint32 (minImageCount caps + 1) = minImageCount caps + 1).
  { apply to_uint32_id. unfold is_uint32. unfold UINT32_MAX in *. lia. }
  destruct (Z.ltb_spec 0 (maxImageCount caps)).
  - rewrite requestedImageCount_bounded by lia. now rewrite Hid.
  - rewrite requestedImageCount_unbounded by lia. exact Hid.
Qed.

(** C4: the image count requested from the driver is
    [min(minImageCount + 1, maxImageCount)] when [maxImageCount > 0] and
    [minImageCount + 1] otherwise, the sum being the program's [uint32_t]
    sum; for [minImageCount = 2], [maxImageCount = 3] it is 3. *)
Theorem C4_requested_image_count :
  (forall caps,
     requestedImageCount caps =
       if 0 <? maxImageCount caps
       then Z.min (to_uint32 (minImageCount caps + 1)) (maxImageCount caps)
       else to_uint32 (minImageCount caps + 1))
  /\ (forall cur lo hi tr,
        requestedImageCount
          {| minImageCount := 2; maxImageCount := 3; currentExtent := cur;
             minImageExtent := lo; maxImageExtent := hi; currentTransform := tr |} = 3).
Proof.
  split.
  - intros caps. destruct (Z.ltb_spec 0 (maxImageCount caps)).
    + now apply requestedImageCount_bounded.
    + now apply requestedImageCount_unbounded.
  - reflexivity.
Qed.

(** ** Swap extent *)

Lemma std_clamp_clamp_into v lo hi : lo <= hi -> std_clamp v lo hi = clamp_into lo hi v.
Proof.
  intros Hle. unfold std_clamp, clamp_into.
  destruct (Z.ltb_spec v lo); [lia|].
  destruct (Z.ltb_spec hi v); lia.
Qed.

Lemma clamp_into_range lo hi v : lo <= hi -> lo <= clamp_into lo hi v <= hi.
Proof. unfold clamp_into. lia. Qed.

Lemma clamp_into_inside lo hi v : lo <= v <= hi -> clamp_into lo hi v = v.
Proof. unfold clamp_into. lia. Qed.

(** C5: when [currentExtent.width] is the sentinel, the extent is the
    framebuffer size clamped component-wise into
    [minImageExtent, maxImageExtent]; otherwise it is [currentExtent]. *)
Theorem C5_swap_extent (framebufferSize : Z * Z) (caps : VkSurfaceCapabilitiesKHR)
    (Hw : 0 <= fst framebufferSize <= INT_MAX)
    (Hh : 0 <= snd framebufferSize <= INT_MAX)
    (Hwidth : width (minImageExtent caps) <= width (maxImageExtent caps))
    (Hheight : height (minImageExtent caps) <= height (maxImageExtent caps)) :
  (width (currentExtent caps) = UINT32_MAX ->
   ChooseSwapExtent framebufferSize caps =
     {| width := clamp_into (width (minImageExtent caps)) (width (maxImageExtent caps))
                            (fst framebufferSize);
        height := clamp_into (height (minImageExtent caps)) (height (maxImageExtent caps))
                             (snd framebufferSize) |})
  /\ (width (currentExtent caps) <> UINT32_MAX ->
      ChooseSwapExtent framebufferSize caps = currentExtent caps).
Proof.
  unfold ChooseSwapExtent. split; intros Hs.
  - rewrite Hs. simpl.
    rewrite !to_uint32_id by (unfold is_uint32, UINT32_MAX, INT_MAX in *; lia).
    now rewrite !std_clamp_clamp_into.
  - destruct (Z.eqb_spec UINT32_MAX (width (currentExtent caps))); [congruence|reflexivity].
Qed.

Lemma C5_swap_extent_witness :
  let caps :=
    {| minImageCount := 2; maxImageCount := 3;
       currentExtent := {| width := UINT32_MAX; height := UINT32_MAX |};
       minImageExtent := {| width := 1; height := 1 |};
       maxImageExtent := {| width := 640; height := 4096 |};
       currentTransform := 1 |} in
  (0 <= 800 <= INT_MAX) /\ (0 <= 600 <= INT_MAX)
  /\ width (minImageExtent caps) <= width (maxImageExtent caps)
  /\ height (minImageExtent caps) <= height (maxImageExtent caps)
  /\ width (currentExtent caps) = UINT32_MAX
  /\ ChooseSwapExtent (800, 600) caps = {| width := 640; height := 600 |}.
Proof.
  intros caps.
  assert (Hw : 0 <= 800 <= INT_MAX) by (unfold INT_MAX; lia).
  assert (Hh : 0 <= 600 <= INT_MAX) by (unfold INT_MAX; lia).
  assert (Hlo : width (minImageExtent caps) <= width (maxImageExtent caps)) by (simpl; lia).
  assert (Hhi : height (minImageExtent caps) <= height (maxImageExtent caps)) by (simpl; lia).
  repeat (split; [assumption|]). split; [reflexivity|].
  exact (proj1 (C5_swap_extent (800, 600) caps Hw Hh Hlo Hhi) eq_refl).
Defined.

(** ** Present mode *)

Lemma ChooseSwapPresentMode_loop_mailbox modes best :
  VK_PRESENT_MODE_MAILBOX_KHR ∈ modes ->
  ChooseSwapPresentMode_loop modes best = VK_PRESENT_MODE_MAILBOX_KHR.
Proof.
  revert best. induction modes as [|m modes IH]; intros best Hin.
  - inversion Hin.
  - simpl. destruct (decide (VK_PRESENT_MODE_MAILBOX_KHR = m)) as [<-|Hne]; [reflexivity|].
    apply elem_of_cons in Hin as [?|Hin]; [congruence|].
    destruct (decide (VK_PRESENT_MODE_IMMEDIATE_KHR = m)); now apply IH.
Qed.

Lemma ChooseSwapPresentMode_loop_no_mailbox modes best :
  VK_PRESENT_MODE_MAILBOX_KHR ∉ modes ->
  ChooseSwapPresentMode_loop modes best =
    if bool_decide (VK_PRESENT_MODE_IMMEDIATE_KHR ∈ modes)
    then VK_PRESENT_MODE_IMMEDIATE_KHR else best.
Proof.
  revert best. induction modes as [|m modes IH]; intros best Hnin.
  - reflexivity.
  - apply not_elem_of_cons in Hnin as [Hne Hnin]. simpl.
    destruct (decide (VK_PRESENT_MODE_MAILBOX_KHR = m)); [congruence|].
    destruct (decide (VK_PRESENT_MODE_IMMEDIATE_KHR = m)) as [<-|Hni].
    + rewrite IH by assumption.
      rewrite (bool_decide_eq_true_2 (_ ∈ _ :: _)) by apply list_elem_of_here.
      now destruct (bool_decide _).
    + rewrite IH by assumption.
      destruct (bool_decide_reflect (VK_PRESENT_MODE_IMMEDIATE_KHR ∈ modes)) as [Hi|Hi].
      * rewrite bool_decide_eq_true_2; [reflexivity|now apply list_elem_of_further].
      * rewrite bool_decide_eq_false_2; [reflexivity|].
        intros [?|?]%elem_of_cons; congruence.
Qed.

Lemma ChooseSwapPresentMode_rule modes :
  ChooseSwapPresentMode modes = code_ChooseSwapPresentMode_rule modes.
Proof.
  unfold ChooseSwapPresentMode, code_ChooseSwapPresentMode_rule.
  destruct (bool_decide_reflect (VK_PRESENT_MODE_MAILBOX_KHR ∈ modes)).
  - now apply ChooseSwapPresentMode_loop_mailbox.
  - now apply ChooseSwapPresentMode_loop_no_mailbox.
Qed.

(** C6, as stated, fails: offered FIFO and IMMEDIATE, the code selects
    IMMEDIATE, which does not throttle the CPU, where the stated rule falls
    back to a throttling mode. *)
Lemma C6_present_mode_counterexample :
  let offered := [VK_PRESENT_MODE_FIFO_KHR; VK_PRESENT_MODE_IMMEDIATE_KHR] in
  offered <> []
  /\ ChooseSwapPresentMode offered = VK_PRESENT_MODE_IMMEDIATE_KHR
  /\ throttles_cpu (ChooseSwapPresentMode offered) = false
  /\ spec_ChooseSwapPresentMode offered = VK_PRESENT_MODE_FIFO_KHR
  /\ ChooseSwapPresentMode offered <> spec_ChooseSwapPresentMode offered.
Proof. repeat split; try reflexivity; discriminate. Qed.

(** C6, amended: MAILBOX is selected if offered, else IMMEDIATE if offered,
    else FIFO; for the offered set FIFO, MAILBOX the selection is MAILBOX. *)
Theorem C6_present_mode :
  (forall modes,
     ChooseSwapPresentMode modes =
       if bool_decide (VK_PRESENT_MODE_MAILBOX_KHR ∈ modes) then VK_PRESENT_MODE_MAILBOX_KHR
       else if bool_decide (VK_PRESENT_MODE_IMMEDIATE_KHR ∈ modes) then VK_PRESENT_MODE_IMMEDIATE_KHR
       else VK_PRESENT_MODE_FIFO_KHR)
  /\ ChooseSwapPresentMode [VK_PRESENT_MODE_FIFO_KHR; VK_PRESENT_MODE_MAILBOX_KHR]
     = VK_PRESENT_MODE_MAILBOX_KHR.
Proof. split; [apply ChooseSwapPresentMode_rule|reflexivity]. Qed.

(** ** Device selection *)

Lemma IsComplete_true indices :
  IsComplete indices = true <-> is_Some (graphicsFamily indices) /\ is_Some (presentFamily indices).
Proof.
  unfold IsComplete. rewrite andb_true_iff, !bool_decide_eq_true. reflexivity.
Qed.

Lemma FindQueueFamilies_loop_complete qfs i indices :
  IsComplete (FindQueueFamilies_loop qfs i indices) = true <->
  (is_Some (graphicsFamily indices)
   \/ exists q, q ∈ qfs /\ Z.land (queueFlags q) VK_QUEUE_GRAPHICS_BIT <> 0)
  /\ (is_Some (presentFamily indices) \/ exists q, q ∈ qfs /\ presentSupport q = true).
Proof.
  revert i indices. induction qfs as [|q qfs IH]; intros i indices.
  - simpl. rewrite IsComplete_true. split.
    + intros [? ?]; auto.
    + intros [[?|(q & Hq & _)] [?|(q' & Hq' & _)]]; try (split; assumption);
        solve [inversion Hq | inversion Hq'].
  - cbn [FindQueueFamilies_loop].
    set (indices1 := if negb _ then _ else indices).
    set (indices2 := if presentSupport q then _ else indices1).
    assert (Hg : is_Some (graphicsFamily indices2) <->
                 is_Some (graphicsFamily indices) \/ Z.land (queueFlags q) VK_QUEUE_GRAPHICS_BIT <> 0).
    { subst indices2 indices1.
      destruct (Z.eqb_spec (Z.land (queueFlags q) VK_QUEUE_GRAPHICS_BIT) 0) as [E|E];
        destruct (presentSupport q); simpl; split; eauto; intros [?|?]; eauto; congruence. }
    assert (Hp : is_Some (presentFamily indices2) <->
                 is_Some (presentFamily indices) \/ presentSupport q = true).
    { subst indices2 indices1.
      destruct (Z.eqb_spec (Z.land (queueFlags q) VK_QUEUE_GRAPHICS_BIT) 0) as [E|E];
        destruct (presentSupport q); simpl; split; eauto; intros [?|?]; eauto; congruence. }
    clearbody indices2. clear indices1.
    assert (Hex : forall P : QueueFamily -> Prop,
               (exists q', q' ∈ q :: qfs /\ P q') <-> P q \/ exists q', q' ∈ qfs /\ P q').
    { intros P. split.
      - intros (q' & [->|Hin]%elem_of_cons & HP); eauto.
      - intros [HP|(q' & Hin & HP)]; [exists q|exists q']; rewrite elem_of_cons; auto. }
    rewrite !Hex.
    destruct (IsComplete indices2) eqn:Hc.
    + rewrite Hc. apply IsComplete_true in Hc as [Hcg Hcp].
      apply Hg in Hcg. apply Hp in Hcp. tauto.
    + rewrite IH, Hg, Hp. tauto.
Qed.

Lemma FindQueueFamilies_complete device :
  IsComplete (FindQueueFamilies device) = true <->
  exposes_graphics_queue device /\ exposes_present_queue device.
Proof.
  unfold FindQueueFamilies. rewrite FindQueueFamilies_loop_complete. simpl.
  unfold exposes_graphics_queue, exposes_present_queue. split.
  - intros [[H|?] [H'|?]]; try (split; assumption);
      solve [destruct H as [? ?]; discriminate | destruct H' as [? ?]; discriminate].
  - intros [? ?]. split; now right.
Qed.

Lemma erase_all_difference (available : list string) (required : gset string) :
  foldl (fun (req : gset string) (name : string) => req ∖ {[ name ]}) required available
  = required ∖ list_to_set available.
Proof.
  revert required. induction available as [|name available IH]; intros required; simpl.
  - set_solver.
  - rewrite IH. set_solver.
Qed.

Lemma CheckDeviceExtensionSupported_true device :
  CheckDeviceExtensionSupported device = true <-> supports_required_extensions device.
Proof.
  unfold CheckDeviceExtensionSupported, supports_required_extensions.
  rewrite bool_decide_eq_true, erase_all_difference. split.
  - intros Hempty name Hin.
    destruct (decide (name ∈ pd_extensions device)) as [|Hnot]; [assumption|].
    assert (Hmem : name ∈ (list_to_set g_deviceExtensions : gset string) ∖ list_to_set (pd_extensions device))
      by set_solver.
    rewrite Hempty in Hmem. set_solver.
  - intros Hall. apply set_eq. intros name. split; [|set_solver].
    intros [Hreq Hnot]%elem_of_difference.
    apply elem_of_list_to_set in Hreq. apply Hall in Hreq. set_solver.
Qed.

Lemma vector_empty_false {A : Type} (v : list A) : negb (vector_empty v) = true <-> v <> [].
Proof. destruct v; simpl; split; congruence. Qed.

Lemma IsDeviceSuitable_eligible device : IsDeviceSuitable device = true <-> eligible device.
Proof.
  unfold IsDeviceSuitable, eligible, swapchain_support_nonempty, QuerySwapChainSupport.
  pose proof (FindQueueFamilies_complete device) as Hq.
  pose proof (CheckDeviceExtensionSupported_true device) as He.
  pose proof (vector_empty_false (foramts (pd_support device))) as Hf.
  pose proof (vector_empty_false (presentModes (pd_support device))) as Hm.
  destruct (IsComplete _), (CheckDeviceExtensionSupported _),
    (negb (vector_empty (foramts _))), (negb (vector_empty (presentModes _)));
    simpl; intuition congruence.
Qed.

Lemma IsDeviceSuitable_not_eligible device : IsDeviceSuitable device = false <-> ~ eligible device.
Proof.
  rewrite <- IsDeviceSuitable_eligible. destruct (IsDeviceSuitable device); split; congruence.
Qed.

(** The loop stores the first suitable device; when there is none the member
    keeps its old value. *)
Lemma PickPhysicalDevice_loop_first devices selected :
  (exists pre device post,
      devices = pre ++ device :: post
      /\ Forall (fun d => IsDeviceSuitable d = false) pre
      /\ IsDeviceSuitable device = true
      /\ PickPhysicalDevice_loop devices selected = Some device)
  \/ (Forall (fun d => IsDeviceSuitable d = false) devices
      /\ PickPhysicalDevice_loop devices selected = selected).
Proof.
  induction devices as [|d devices IH]; simpl.
  - right. split; [constructor|reflexivity].
  - destruct (IsDeviceSuitable d) eqn:Hd.
    + left. exists [], d, devices. repeat split; [constructor|assumption].
    + destruct IH as [(pre & device & post & -> & Hpre & Hdev & Hsel)|[Hall Hsel]].
      * left. exists (d :: pre), device, post. repeat split; try assumption.
        now constructor.
      * right. split; [now constructor|assumption].
Qed.

(** C7: a device passes [IsDeviceSuitable] exactly when it has a graphics
    queue family, a queue family that can present to the surface, the
    required extensions, and non-empty surface formats and present modes;
    [PickPhysicalDevice] stores the first such device of the enumeration
    and throws when there is none. *)
Theorem C7_device_selection :
  (forall device, IsDeviceSuitable device = true <-> eligible device)
  /\ (forall devices s,
        match PickPhysicalDevice devices (set_m_physicalDevice None s) with
        | Ok _ s' =>
            exists pre device post,
              devices = pre ++ device :: post
              /\ Forall (fun d => ~ eligible d) pre
              /\ eligible device
              /\ m_physicalDevice s' = Some device
        | Throw _ s' =>
            Forall (fun d => ~ eligible d) devices /\ m_physicalDevice s' = None
        | Block _ => False
        end).
Proof.
  split; [exact IsDeviceSuitable_eligible|].
  intros devices s. unfold PickPhysicalDevice, bind, throw_if.
  destruct (decide (0%nat = length devices)) as [Hlen|Hlen].
  - simpl. destruct devices; [|discriminate]. split; [constructor|reflexivity].
  - cbn.
    destruct (PickPhysicalDevice_loop_first devices None)
      as [(pre & device & post & -> & Hpre & Hdev & Hsel)|[Hall Hsel]];
      rewrite Hsel; cbn.
    + exists pre, device, post.
      split; [reflexivity|]. split; [|split; [|reflexivity]].
      * eapply Forall_impl; [exact Hpre|]. intros d. apply IsDeviceSuitable_not_eligible.
      * now apply IsDeviceSuitable_eligible.
    + split; [|reflexivity].
      eapply Forall_impl; [exact Hall|]. intros d. apply IsDeviceSuitable_not_eligible.
Qed.

(** ** Reasoning about calls *)

Section Respects.
Context (R : State -> State -> Prop) `{!Reflexive R} `{!Transitive R}.

Lemma respects_ret {A : Type} (a : A) : respects R (ret a).
Proof. intros s. simpl. reflexivity. Qed.

Lemma respects_throw {A : Type} (what : string) : respects R (throw (A:=A) what).
Proof. intros s. simpl. reflexivity. Qed.

Lemma respects_block {A : Type} : respects R (block (A:=A)).
Proof. intros s. simpl. reflexivity. Qed.

Lemma respects_get : respects R get.
Proof. intros s. simpl. reflexivity. Qed.

Lemma respects_modify (f : State -> State) : (forall s, R s (f s)) -> respects R (modify f).
Proof. intros Hf s. simpl. apply Hf. Qed.

Lemma respects_bind {A B : Type} (m : M A) (k : A -> M B) :
  respects R m -> (forall a, respects R (k a)) -> respects R (bind m k).
Proof.
  intros Hm Hk s. unfold bind. specialize (Hm s).
  destruct (m s) as [a s'|what s'|s']; simpl in *; try assumption.
  etransitivity; [exact Hm|apply Hk].
Qed.

Lemma respects_throw_if (P : Prop) `{Decision P} (what : string) :
  respects R (throw_if P what).
Proof. unfold throw_if. destruct (decide P); [apply respects_throw|apply respects_ret]. Qed.

Lemma respects_vector_at {A : Type} (v : list A) (i : nat) : respects R (vector_at v i).
Proof. unfold vector_at. destruct (v !! i); [apply respects_ret|apply respects_throw]. Qed.

Lemma respects_optional_value {A : Type} (o : option A) : respects R (optional_value o).
Proof. unfold optional_value. destruct o; [apply respects_ret|apply respects_throw]. Qed.

Lemma respects_external_step (outcome : option string) : respects R (external_step outcome).
Proof. unfold external_step. destruct outcome; [apply respects_throw|apply respects_ret]. Qed.
End Respects.

(** Walks through a member function; [known] closes calls whose lemma is
    at hand, [side] proves that a single state update is in the relation. *)
Ltac respects_walk known side :=
  repeat first
    [ solve [known]
    | apply respects_ret; solve [typeclasses eauto]
    | apply respects_get; solve [typeclasses eauto]
    | apply respects_throw; solve [typeclasses eauto]
    | apply respects_block; solve [typeclasses eauto]
    | apply respects_throw_if; solve [typeclasses eauto]
    | apply respects_vector_at; solve [typeclasses eauto]
    | apply respects_optional_value; solve [typeclasses eauto]
    | apply respects_external_step; solve [typeclasses eauto]
    | apply respects_modify; intros ?; solve [side]
    | match goal with
      | |- respects _ (if ?c then _ else _) => destruct c
      | |- respects _ (match ?c with _ => _ end) => destruct c
      end
    | apply respects_bind; [typeclasses eauto| |intros ?] ].

Global Instance trace_ext_refl (P : Event -> Prop) : Reflexive (trace_ext P).
Proof. intros s. exists []. split; [now rewrite app_nil_r|constructor]. Qed.

Global Instance trace_ext_trans (P : Event -> Prop) : Transitive (trace_ext P).
Proof.
  intros s1 s2 s3 (e1 & H1 & F1) (e2 & H2 & F2). exists (e1 ++ e2). split.
  - now rewrite H2, H1, app_assoc.
  - now apply Forall_app.
Qed.

Global Instance rebuild_keeps_refl : Reflexive rebuild_keeps.
Proof. intros s. constructor; auto. Qed.

Global Instance rebuild_keeps_trans : Transitive rebuild_keeps.
Proof.
  intros s1 s2 s3 [] []. constructor; try congruence; auto.
  destruct rk_gpu0 as [[Hp Hf]|Hp], rk_gpu1 as [[Hp' Hf']|Hp']; auto.
  - left. split; congruence.
  - right. congruence.
Qed.

Global Instance frame_keeps_refl : Reflexive frame_keeps.
Proof. intros s. constructor; auto. Qed.

Global Instance frame_keeps_trans : Transitive frame_keeps.
Proof. intros s1 s2 s3 [] []. constructor; congruence. Qed.

Lemma trace_ext_emit (P : Event -> Prop) e s s' :
  trace s' = trace s ++ [e] -> P e -> trace_ext P s s'.
Proof. intros Ht He. exists [e]. split; [assumption|]. now repeat constructor. Qed.

Lemma trace_ext_same (P : Event -> Prop) s s' : trace s' = trace s -> trace_ext P s s'.
Proof. intros H. exists []. split; [now rewrite app_nil_r|constructor]. Qed.

Lemma trace_ext_weaken (P Q : Event -> Prop) s s' :
  (forall e, P e -> Q e) -> trace_ext P s s' -> trace_ext Q s s'.
Proof.
  intros HPQ (evs & Ht & HF). exists evs. split; [assumption|].
  eapply Forall_impl; eassumption.
Qed.

Lemma trace_ext_emitted (P : Event -> Prop) s s' :
  trace_ext P s s' -> trace s' = trace s ++ emitted s s' /\ Forall P (emitted s s').
Proof.
  intros (evs & Ht & HF). unfold emitted. rewrite Ht, drop_app_length. now split.
Qed.

Lemma emits_weaken (L L' : list EventClass) {A : Type} (m : M A) :
  L ⊆ L' -> emits L m -> emits L' m.
Proof.
  intros Hsub Hm s. eapply trace_ext_weaken; [|apply Hm]. intros e He. now apply Hsub.
Qed.

(** Side conditions of [emits]: the update leaves the trace alone, or adds
    one event of a listed class. *)
Ltac emits_side :=
  first [ apply trace_ext_same; reflexivity
        | eapply trace_ext_emit; [reflexivity|simpl; set_solver] ].


(** ** Which events each call emits *)

Create HintDb emits discriminated.

Ltac emits_known :=
  first [ eassumption
        | eapply emits_weaken; [|solve [eauto with emits]]; set_solver ].

Ltac emits_auto := unfold emits; respects_walk emits_known emits_side.

Lemma signal_fence_trace slot s :
  trace_ext (fun e => event_class e ∈ [ClsGpu]) s (signal_fence slot s).
Proof. unfold signal_fence. eapply trace_ext_emit; [reflexivity|]. simpl. set_solver. Qed.

Lemma gpu_finish_trace k s :
  trace_ext (fun e => event_class e ∈ [ClsGpu]) s (gpu_finish k s).
Proof.
  unfold gpu_finish. destruct (gpu_pending s !! k); [|reflexivity].
  etransitivity; [|apply signal_fence_trace]. now apply trace_ext_same.
Qed.

Lemma signal_all_trace subs s :
  trace_ext (fun e => event_class e ∈ [ClsGpu]) s
    (foldl (fun s' sub => signal_fence (sub_fence sub) s') s subs).
Proof.
  revert s. induction subs as [|sub subs IH]; intros s; simpl; [reflexivity|].
  etransitivity; [apply signal_fence_trace|apply IH].
Qed.

Lemma vkDeviceWaitIdle_emits : emits [ClsGpu] vkDeviceWaitIdle.
Proof.
  unfold vkDeviceWaitIdle. emits_auto. apply respects_modify. intros s.
  etransitivity; [|apply signal_all_trace]. now apply trace_ext_same.
Qed.
#[export] Hint Resolve vkDeviceWaitIdle_emits : emits.

Lemma vkWaitForFences_emits slot : emits [ClsFenceWait; ClsGpu] (vkWaitForFences slot).
Proof.
  unfold vkWaitForFences. emits_auto. apply respects_modify. intros s'.
  eapply trace_ext_weaken; [|apply gpu_finish_trace]. set_solver.
Qed.
#[export] Hint Resolve vkWaitForFences_emits : emits.

Lemma vkResetFences_emits slot : emits [ClsFenceReset] (vkResetFences slot).
Proof. unfold vkResetFences. emits_auto. Qed.
#[export] Hint Resolve vkResetFences_emits : emits.

Lemma deliver_events_emits resize : emits [] (deliver_events resize).
Proof. unfold deliver_events, FramebufferResizeCallback. emits_auto. Qed.
#[export] Hint Resolve deliver_events_emits : emits.

Lemma glfwPollEvents_emits resize : emits [ClsWindow] (glfwPollEvents resize).
Proof. unfold glfwPollEvents. emits_auto. Qed.
#[export] Hint Resolve glfwPollEvents_emits : emits.

Lemma glfwWaitEvents_emits arrival : emits [ClsWindow] (glfwWaitEvents arrival).
Proof. unfold glfwWaitEvents. emits_auto. Qed.
#[export] Hint Resolve glfwWaitEvents_emits : emits.

Lemma CreateSwapChain_emits env : emits [ClsAlloc; ClsQuery] (CreateSwapChain env).
Proof. unfold CreateSwapChain. emits_auto. Qed.
#[export] Hint Resolve CreateSwapChain_emits : emits.

Lemma CreateImageViews_loop_emits env images i :
  emits [ClsAlloc] (CreateImageViews_loop env images i).
Proof.
  revert i. induction images as [|image images IH]; intros i; simpl; emits_auto.
Qed.
#[export] Hint Resolve CreateImageViews_loop_emits : emits.

Lemma CreateImageViews_emits env : emits [ClsAlloc] (CreateImageViews env).
Proof. unfold CreateImageViews. emits_auto. Qed.
#[export] Hint Resolve CreateImageViews_emits : emits.

Lemma CreateFramebuffers_loop_emits env views i :
  emits [ClsAlloc] (CreateFramebuffers_loop env views i).
Proof.
  revert i. induction views as [|view views IH]; intros i; simpl; emits_auto.
Qed.
#[export] Hint Resolve CreateFramebuffers_loop_emits : emits.

Lemma CreateFramebuffers_emits env : emits [ClsAlloc] (CreateFramebuffers env).
Proof. unfold CreateFramebuffers. emits_auto. Qed.
#[export] Hint Resolve CreateFramebuffers_emits : emits.

Lemma emit_all_run evs s : emit_all evs s = Ok tt (set_trace (trace s ++ evs) s).
Proof.
  revert s. induction evs as [|e evs IH]; intros s; simpl.
  - rewrite app_nil_r. now destruct s.
  - unfold bind, emit, modify. rewrite IH. simpl. now rewrite <- app_assoc.
Qed.

Lemma CleanupSwapChain_run s :
  CleanupSwapChain s =
    Ok tt (set_trace (trace s ++ map EvDestroyFramebuffer (m_swapChainFramebuffers s)
                              ++ map EvDestroyImageView (m_swapChainImageViews s)
                              ++ [EvDestroySwapchain (m_swapChain s)]) s).
Proof.
  unfold CleanupSwapChain, bind, get, emit, modify. rewrite emit_all_run. simpl.
  rewrite emit_all_run. simpl. now rewrite <- !app_assoc.
Qed.

Lemma CleanupSwapChain_emits : emits [ClsRelease] CleanupSwapChain.
Proof.
  intros s. rewrite CleanupSwapChain_run. simpl. eexists. split; [reflexivity|].
  rewrite !Forall_app, !Forall_forall. repeat split.
  - intros e (h & -> & _)%list_elem_of_fmap. simpl. set_solver.
  - intros e (h & -> & _)%list_elem_of_fmap. simpl. set_solver.
  - intros e ->%list_elem_of_singleton. simpl. set_solver.
Qed.
#[export] Hint Resolve CleanupSwapChain_emits : emits.

Lemma RecreateSwapChain_wait_emits events size :
  emits [ClsWindow] (RecreateSwapChain_wait events size).
Proof.
  revert size. induction events as [|arrival events IH]; intros size; simpl;
    destruct (size_is_zero size); emits_auto.
Qed.
#[export] Hint Resolve RecreateSwapChain_wait_emits : emits.

Lemma RecreateSwapChain_emits env : emits recreate_classes (RecreateSwapChain env).
Proof. unfold RecreateSwapChain, recreate_classes. emits_auto. Qed.
#[export] Hint Resolve RecreateSwapChain_emits : emits.

(** ** What a rebuild of the swap chain keeps *)

Create HintDb keeps discriminated.

Ltac keeps_side := constructor; simpl; auto.

Ltac rebuild_known := first [ eassumption | solve [eauto with keeps] ].

Ltac rebuild_auto := respects_walk rebuild_known keeps_side.

Lemma signal_fence_signaled slot s i :
  m_inFlightFences s !! i = Some true ->
  m_inFlightFences (signal_fence slot s) !! i = Some true.
Proof.
  intros H. simpl. destruct (decide (slot = i)) as [->|Hne].
  - rewrite list_lookup_insert_eq; [reflexivity|]. eapply lookup_lt_Some; eassumption.
  - now rewrite list_lookup_insert_ne.
Qed.

Lemma signal_all_idle subs s :
  gpu_pending s = [] ->
  rebuild_keeps s (foldl (fun s' sub => signal_fence (sub_fence sub) s') s subs).
Proof.
  revert s. induction subs as [|sub subs IH]; intros s Hs; simpl; [reflexivity|].
  etransitivity; [|apply IH; exact Hs].
  constructor; try reflexivity.
  - simpl. apply length_insert.
  - intros i. apply signal_fence_signaled.
  - right. exact Hs.
Qed.

Lemma vkDeviceWaitIdle_run s :
  vkDeviceWaitIdle s =
    Ok tt (foldl (fun s' sub => signal_fence (sub_fence sub) s')
                 (set_gpu_pending [] (set_trace (trace s ++ [EvDeviceWaitIdle]) s))
                 (gpu_pending s)).
Proof. reflexivity. Qed.

Lemma signal_all_pending subs s :
  gpu_pending (foldl (fun s' sub => signal_fence (sub_fence sub) s') s subs) = gpu_pending s.
Proof. revert s. induction subs as [|sub subs IH]; intros s; simpl; [reflexivity|]. now rewrite IH. Qed.

Lemma vkDeviceWaitIdle_idle s : gpu_pending (res_state (vkDeviceWaitIdle s)) = [].
Proof. rewrite vkDeviceWaitIdle_run. simpl. now rewrite signal_all_pending. Qed.

Lemma vkDeviceWaitIdle_keeps : respects rebuild_keeps vkDeviceWaitIdle.
Proof.
  intros s. rewrite vkDeviceWaitIdle_run. simpl.
  etransitivity; [|apply signal_all_idle; reflexivity].
  constructor; simpl; auto.
Qed.
#[export] Hint Resolve vkDeviceWaitIdle_keeps : keeps.

Lemma RecreateSwapChain_wait_keeps events size :
  respects rebuild_keeps (RecreateSwapChain_wait events size).
Proof.
  revert size. induction events as [|arrival events IH]; intros size; simpl;
    destruct (size_is_zero size);
    unfold glfwWaitEvents, deliver_events, FramebufferResizeCallback; rebuild_auto.
Qed.
#[export] Hint Resolve RecreateSwapChain_wait_keeps : keeps.

Lemma CleanupSwapChain_keeps : respects rebuild_keeps CleanupSwapChain.
Proof. intros s. rewrite CleanupSwapChain_run. simpl. keeps_side. Qed.
#[export] Hint Resolve CleanupSwapChain_keeps : keeps.

Lemma CreateSwapChain_keeps env : respects rebuild_keeps (CreateSwapChain env).
Proof. unfold CreateSwapChain. rebuild_auto. Qed.
#[export] Hint Resolve CreateSwapChain_keeps : keeps.

Lemma CreateImageViews_loop_keeps env images i :
  respects rebuild_keeps (CreateImageViews_loop env images i).
Proof. revert i. induction images as [|image images IH]; intros i; simpl; rebuild_auto. Qed.
#[export] Hint Resolve CreateImageViews_loop_keeps : keeps.

Lemma CreateImageViews_keeps env : respects rebuild_keeps (CreateImageViews env).
Proof. unfold CreateImageViews. rebuild_auto. Qed.
#[export] Hint Resolve CreateImageViews_keeps : keeps.

Lemma CreateFramebuffers_loop_keeps env views i :
  respects rebuild_keeps (CreateFramebuffers_loop env views i).
Proof. revert i. induction views as [|view views IH]; intros i; simpl; rebuild_auto. Qed.
#[export] Hint Resolve CreateFramebuffers_loop_keeps : keeps.

Lemma CreateFramebuffers_keeps env : respects rebuild_keeps (CreateFramebuffers env).
Proof. unfold CreateFramebuffers. rebuild_auto. Qed.
#[export] Hint Resolve CreateFramebuffers_keeps : keeps.

Lemma RecreateSwapChain_keeps env : respects rebuild_keeps (RecreateSwapChain env).
Proof. unfold RecreateSwapChain. rebuild_auto. Qed.
#[export] Hint Resolve RecreateSwapChain_keeps : keeps.

(** ** Swap chain recreation *)

Global Instance chain_keeps_refl : Reflexive chain_keeps.
Proof. intros s. constructor; auto. Qed.

Global Instance chain_keeps_trans : Transitive chain_keeps.
Proof. intros s1 s2 s3 [] []. constructor; congruence. Qed.

Lemma RecreateSwapChain_wait_chain events size :
  respects chain_keeps (RecreateSwapChain_wait events size).
Proof.
  revert size. induction events as [|arrival events IH]; intros size; simpl;
    destruct (size_is_zero size);
    unfold glfwWaitEvents, deliver_events, FramebufferResizeCallback;
    respects_walk ltac:(solve [eauto]) keeps_side.
Qed.

Lemma signal_all_chain subs s :
  chain_keeps s (foldl (fun s' sub => signal_fence (sub_fence sub) s') s subs).
Proof.
  revert s. induction subs as [|sub subs IH]; intros s; simpl; [reflexivity|].
  etransitivity; [|apply IH]. keeps_side.
Qed.

Lemma vkDeviceWaitIdle_chain : respects chain_keeps vkDeviceWaitIdle.
Proof.
  intros s. rewrite vkDeviceWaitIdle_run. simpl.
  etransitivity; [|apply signal_all_chain]. keeps_side.
Qed.

Lemma glfwWaitEvents_no_throw arrival s what s' : glfwWaitEvents arrival s <> Throw what s'.
Proof. destruct arrival as [[size|]|]; discriminate. Qed.

Lemma RecreateSwapChain_wait_no_throw events size s what s' :
  RecreateSwapChain_wait events size s <> Throw what s'.
Proof.
  revert size s. induction events as [|arrival events IH]; intros size s; simpl;
    destruct (size_is_zero size); try discriminate.
  unfold bind at 1. unfold get. unfold bind at 1.
  destruct (glfwWaitEvents (Some arrival) s) as [[] s1|w s1|s1] eqn:Hw; try discriminate.
  - apply IH.
  - now apply glfwWaitEvents_no_throw in Hw.
Qed.

Lemma quiet_classes_no_release_no_allocation e :
  event_class e ∈ [ClsCall; ClsWindow; ClsGpu] -> is_release e = false /\ is_allocation e = false.
Proof. destruct e; simpl; intros H; (split; [reflexivity|reflexivity]) || set_solver. Qed.

Lemma create_classes_no_release e :
  event_class e ∈ [ClsAlloc; ClsQuery] -> is_release e = false.
Proof. destruct e; simpl; intros H; reflexivity || set_solver. Qed.

Lemma rebuild_tail_emits env :
  emits [ClsAlloc; ClsQuery] (CreateSwapChain env;; CreateImageViews env;; CreateFramebuffers env).
Proof. emits_auto. Qed.

(** [RecreateSwapChain] cut after [vkDeviceWaitIdle]. *)
Lemma RecreateSwapChain_unfold env s :
  RecreateSwapChain env s =
    match RecreateSwapChain_wait (env_waitEvents env) (framebufferSize s)
            (set_trace (trace s ++ [EvCall "RecreateSwapChain"]) s) with
    | Ok _ s1 =>
        (CleanupSwapChain;; CreateSwapChain env;; CreateImageViews env;; CreateFramebuffers env)
          (res_state (vkDeviceWaitIdle s1))
    | Throw what s1 => Throw what s1
    | Block s1 => Block s1
    end.
Proof.
  unfold RecreateSwapChain. unfold bind at 1. unfold emit, modify. unfold bind at 1.
  unfold get. unfold bind at 1. cbn [framebufferSize set_trace].
  destruct (RecreateSwapChain_wait _ _ _) as [[] s1|w s1|s1]; reflexivity.
Qed.

Lemma emitted_app s s' evs : trace s' = trace s ++ evs -> emitted s s' = evs.
Proof. intros H. unfold emitted. now rewrite H, drop_app_length. Qed.

(** The events of a recreation: either it stays in the wait for a window
    size, and then nothing is released or created, or it gets past it, and
    then the old objects are destroyed before any creation. *)
Lemma RecreateSwapChain_events (env : SwapChainEnv) (s : State) :
  let r := RecreateSwapChain env s in
  let s' := res_state r in
  (exists s1, r = Block s1
     /\ Forall (fun e => is_release e = false /\ is_allocation e = false) (emitted s s'))
  \/ ((exists s1, RecreateSwapChain_wait (env_waitEvents env) (framebufferSize s)
                     (set_trace (trace s ++ [EvCall "RecreateSwapChain"]) s) = Ok tt s1)
      /\ exists pre post,
           emitted s s' =
             pre ++ map EvDestroyFramebuffer (m_swapChainFramebuffers s)
                 ++ map EvDestroyImageView (m_swapChainImageViews s)
                 ++ [EvDestroySwapchain (m_swapChain s)]
                 ++ post
           /\ Forall (fun e => is_release e = false /\ is_allocation e = false) pre
           /\ Forall (fun e => is_release e = false) post).
Proof.
  intros r s'.
  subst s' r. rewrite RecreateSwapChain_unfold.
  set (s0 := set_trace (trace s ++ [EvCall "RecreateSwapChain"]) s).
  pose proof (RecreateSwapChain_wait_emits (env_waitEvents env) (framebufferSize s) s0) as Hw.
  pose proof (RecreateSwapChain_wait_chain (env_waitEvents env) (framebufferSize s) s0) as Hc.
  pose proof (RecreateSwapChain_wait_no_throw (env_waitEvents env) (framebufferSize s) s0) as Hn.
  destruct (RecreateSwapChain_wait _ _ s0) as [[] s1|w s1|s1]; simpl in Hw, Hc.
  - right. split; [eauto|].
    destruct Hw as (wevs & Hwt & Hwf).
    destruct (vkDeviceWaitIdle_emits s1) as (gevs & Hgt & Hgf).
    pose proof (vkDeviceWaitIdle_chain s1) as Hc1.
    set (s2 := res_state (vkDeviceWaitIdle s1)) in *.
    unfold bind at 1. rewrite CleanupSwapChain_run.
    match goal with |- context [bind ?m ?k ?st] => set (s3 := st); set (tail := bind m k) end.
    destruct (rebuild_tail_emits env s3) as (post & Hpt & Hpf). fold tail in Hpt.
    exists ([EvCall "RecreateSwapChain"] ++ wevs ++ gevs), post.
    assert (Hs2 : chain_keeps s s2).
    { transitivity s1; [|exact Hc1]. transitivity s0; [|exact Hc]. subst s0. keeps_side. }
    destruct Hs2 as [E1 _ E3 E4]. split; [|split].
    + apply emitted_app. rewrite Hpt. subst s3. simpl.
      rewrite Hgt, Hwt, E1, E3, E4. subst s0. simpl. now rewrite <- !app_assoc.
    + rewrite !Forall_app. repeat split.
      * repeat constructor.
      * eapply Forall_impl; [exact Hwf|]. intros e He.
        apply quiet_classes_no_release_no_allocation. set_solver.
      * eapply Forall_impl; [exact Hgf|]. intros e He.
        apply quiet_classes_no_release_no_allocation. set_solver.
    + eapply Forall_impl; [exact Hpf|]. intros e. apply create_classes_no_release.
  - exfalso. eapply Hn. reflexivity.
  - left. exists s1. split; [reflexivity|]. simpl.
    destruct Hw as (wevs & Hwt & Hwf).
    rewrite (emitted_app s s1 ([EvCall "RecreateSwapChain"] ++ wevs))
      by (rewrite Hwt; subst s0; simpl; now rewrite <- app_assoc).
    rewrite Forall_app. split; [repeat constructor|].
    eapply Forall_impl; [exact Hwf|]. intros e He.
    apply quiet_classes_no_release_no_allocation. set_solver.
Qed.

(** ** The pieces of a frame *)

Lemma RecordCommandBuffer_emits env commandBuffer framebuffer :
  emits [ClsRecord] (RecordCommandBuffer env commandBuffer framebuffer).
Proof. unfold RecordCommandBuffer. emits_auto. Qed.
#[export] Hint Resolve RecordCommandBuffer_emits : emits.

Lemma DrawFrame_wait_emits : emits [ClsFenceWait; ClsGpu] DrawFrame_wait.
Proof. unfold DrawFrame_wait. emits_auto. Qed.
#[export] Hint Resolve DrawFrame_wait_emits : emits.

Lemma DrawFrame_acquire_emits env :
  emits (ClsAcquire :: recreate_classes) (DrawFrame_acquire env).
Proof. unfold DrawFrame_acquire, recreate_classes. emits_auto. Qed.

Lemma DrawFrame_acquire_usable_emits env :
  fst (env_acquire env) <> VK_ERROR_OUT_OF_DATE_KHR ->
  emits [ClsAcquire] (DrawFrame_acquire env).
Proof.
  intros Hne. unfold DrawFrame_acquire.
  destruct (decide (VK_ERROR_OUT_OF_DATE_KHR = fst (env_acquire env))); [congruence|].
  emits_auto.
Qed.

Lemma DrawFrame_record_emits env imageIndex :
  emits [ClsFenceReset; ClsRecord] (DrawFrame_record env imageIndex).
Proof. unfold DrawFrame_record. emits_auto. Qed.
#[export] Hint Resolve DrawFrame_record_emits : emits.

Lemma DrawFrame_submit_emits env imageIndex : emits [ClsSubmit] (DrawFrame_submit env imageIndex).
Proof. unfold DrawFrame_submit, vkQueueSubmit. emits_auto. Qed.
#[export] Hint Resolve DrawFrame_submit_emits : emits.

Lemma DrawFrame_present_emits env imageIndex :
  emits (ClsPresent :: recreate_classes) (DrawFrame_present env imageIndex).
Proof. unfold DrawFrame_present, recreate_classes. emits_auto. Qed.

Lemma DrawFrame_advance_emits : emits [] DrawFrame_advance.
Proof. unfold DrawFrame_advance. emits_auto. Qed.
#[export] Hint Resolve DrawFrame_advance_emits : emits.

Lemma DrawFrame_before_present_emits env :
  fst (env_acquire env) <> VK_ERROR_OUT_OF_DATE_KHR ->
  emits before_present_classes (DrawFrame_before_present env).
Proof.
  intros Hne. pose proof (DrawFrame_acquire_usable_emits env Hne) as Ha.
  unfold DrawFrame_before_present, before_present_classes. emits_auto.
Qed.

(** [gpu_finish] and [vkWaitForFences] leave the frame's objects alone. *)
Lemma gpu_finish_frame_keeps k s : frame_keeps s (gpu_finish k s).
Proof.
  unfold gpu_finish. destruct (gpu_pending s !! k); [|reflexivity].
  constructor; simpl; auto. apply length_insert.
Qed.

Ltac frame_side := first [ apply gpu_finish_frame_keeps
                         | constructor; simpl; rewrite ?length_insert; auto ].

Ltac frame_auto := respects_walk ltac:(solve [eauto]) frame_side.

Lemma DrawFrame_wait_frame_keeps : respects frame_keeps DrawFrame_wait.
Proof. unfold DrawFrame_wait, vkWaitForFences. frame_auto. Qed.

Lemma DrawFrame_acquire_frame_keeps env :
  fst (env_acquire env) <> VK_ERROR_OUT_OF_DATE_KHR ->
  respects frame_keeps (DrawFrame_acquire env).
Proof.
  intros Hne. unfold DrawFrame_acquire.
  destruct (decide (VK_ERROR_OUT_OF_DATE_KHR = fst (env_acquire env))); [congruence|].
  frame_auto.
Qed.

Lemma DrawFrame_record_frame_keeps env imageIndex :
  respects frame_keeps (DrawFrame_record env imageIndex).
Proof. unfold DrawFrame_record, vkResetFences, RecordCommandBuffer. frame_auto. Qed.

Lemma DrawFrame_submit_frame_keeps env imageIndex :
  respects frame_keeps (DrawFrame_submit env imageIndex).
Proof. unfold DrawFrame_submit, vkQueueSubmit. frame_auto. Qed.

Lemma DrawFrame_before_present_frame_keeps env :
  fst (env_acquire env) <> VK_ERROR_OUT_OF_DATE_KHR ->
  respects frame_keeps (DrawFrame_before_present env).
Proof.
  intros Hne.
  pose proof DrawFrame_wait_frame_keeps. pose proof (DrawFrame_acquire_frame_keeps env Hne).
  pose proof (DrawFrame_record_frame_keeps env). pose proof (DrawFrame_submit_frame_keeps env).
  unfold DrawFrame_before_present. frame_auto.
Qed.

(** ** The stale-chain path of [DrawFrame] *)

Lemma DrawFrame_wait_ok s s1 :
  DrawFrame_wait s = Ok tt s1 ->
  m_currentFrame s1 = m_currentFrame s
  /\ m_inFlightFences s1 !! m_currentFrame s = Some true.
Proof.
  unfold DrawFrame_wait, vkWaitForFences, bind, get, vector_at, emit, modify, ret, throw, block.
  destruct (m_inFlightFences s !! m_currentFrame s) as [signaled|] eqn:Hf; [|discriminate].
  simpl. rewrite Hf. simpl. destruct signaled.
  - intros [= <-]. simpl. auto.
  - destruct (list_find _ _) as [[k sub]|] eqn:Hfind; [|discriminate].
    intros [= <-]. apply list_find_Some in Hfind as (Hk & Hsub & _).
    unfold gpu_finish. simpl. rewrite Hk. simpl. split; [reflexivity|].
    rewrite Hsub. apply list_lookup_insert_eq. eapply lookup_lt_Some; eassumption.
Qed.

(** With the fence signalled the wait returns at once. *)
Lemma DrawFrame_wait_signaled s :
  m_inFlightFences s !! m_currentFrame s = Some true ->
  DrawFrame_wait s = Ok tt (set_trace (trace s ++ [EvWaitForFences (m_currentFrame s)]) s).
Proof.
  intros Hf.
  unfold DrawFrame_wait, vkWaitForFences, bind, get, vector_at, emit, modify, ret.
  rewrite Hf. simpl. now rewrite Hf.
Qed.

(** Had the fence been reset with nothing submitted to signal it, the wait
    would never return. *)
Lemma DrawFrame_wait_unsubmitted s :
  m_inFlightFences s !! m_currentFrame s = Some false ->
  m_currentFrame s ∉ map sub_fence (gpu_pending s) ->
  DrawFrame_wait s = Block (set_trace (trace s ++ [EvWaitForFences (m_currentFrame s)]) s).
Proof.
  intros Hf Hnot.
  unfold DrawFrame_wait, vkWaitForFences, bind, get, vector_at, emit, modify, ret, block.
  rewrite Hf. simpl. rewrite Hf. simpl.
  destruct (list_find _ _) as [[k sub]|] eqn:Hfind; [|reflexivity].
  apply list_find_Some in Hfind as (Hk & Hsub & _). exfalso. apply Hnot.
  apply list_elem_of_fmap. exists sub. split; [now symmetry|].
  eapply list_elem_of_lookup_2; eassumption.
Qed.

Lemma DrawFrame_stale env s s1 semaphore :
  DrawFrame_wait s = Ok tt s1 ->
  m_imageAvailableSemaphores s1 !! m_currentFrame s1 = Some semaphore ->
  fst (env_acquire env) = VK_ERROR_OUT_OF_DATE_KHR ->
  DrawFrame env s =
    RecreateSwapChain (env_recreate env)
      (set_trace (trace s1 ++ [EvAcquireNextImage (m_swapChain s1) semaphore]) s1).
Proof.
  intros Hwait Hsem Hres.
  unfold DrawFrame. unfold bind at 1. rewrite Hwait.
  unfold bind at 1. unfold DrawFrame_acquire. unfold bind at 1. unfold get.
  unfold bind at 1. unfold vector_at. rewrite Hsem. unfold ret at 1.
  unfold bind at 1. unfold emit, modify.
  destruct (decide (VK_ERROR_OUT_OF_DATE_KHR = fst (env_acquire env))); [|congruence].
  unfold bind at 1.
  destruct (RecreateSwapChain _ _) as [[] s2|what s2|s2]; reflexivity.
Qed.

Lemma RecreateSwapChain_call_first env s :
  exists rest,
    emitted s (res_state (RecreateSwapChain env s)) = EvCall "RecreateSwapChain" :: rest.
Proof.
  assert (H : emits recreate_classes
                (s' <- get;;
                 RecreateSwapChain_wait (env_waitEvents env) (framebufferSize s');;
                 vkDeviceWaitIdle;; CleanupSwapChain;;
                 CreateSwapChain env;; CreateImageViews env;; CreateFramebuffers env)).
  { unfold recreate_classes. emits_auto. }
  destruct (H (set_trace (trace s ++ [EvCall "RecreateSwapChain"]) s)) as (evs & Ht & _).
  exists evs. apply emitted_app.
  etransitivity; [exact Ht|]. simpl. now rewrite <- app_assoc.
Qed.

Lemma example_state_ok :
  (InitWindow example_init;; InitVulkan example_init) HelloTriangleApplication
  = Ok tt example_state.
Proof. vm_compute. reflexivity. Qed.

Lemma stale_path_classes_no_frame_work e :
  event_class e ∈ ClsFenceWait :: ClsAcquire :: recreate_classes -> is_frame_work e = false.
Proof. unfold recreate_classes. destruct e; simpl; intros H; reflexivity || set_solver. Qed.

Lemma DrawFrame_stale_trace env s s1 semaphore :
  DrawFrame_wait s = Ok tt s1 ->
  m_imageAvailableSemaphores s1 !! m_currentFrame s1 = Some semaphore ->
  fst (env_acquire env) = VK_ERROR_OUT_OF_DATE_KHR ->
  trace_ext (fun e => event_class e ∈ ClsFenceWait :: ClsAcquire :: recreate_classes)
            s (res_state (DrawFrame env s)).
Proof.
  intros Hwait Hsem Hstale.
  rewrite (DrawFrame_stale env s s1 semaphore Hwait Hsem Hstale).
  pose proof (DrawFrame_wait_emits s) as Hw. rewrite Hwait in Hw. simpl in Hw.
  transitivity s1.
  { eapply trace_ext_weaken; [|exact Hw]. unfold recreate_classes. set_solver. }
  etransitivity.
  2:{ eapply trace_ext_weaken; [|apply RecreateSwapChain_emits]. set_solver. }
  eapply trace_ext_emit; [reflexivity|]. simpl. set_solver.
Qed.

(** C2: when acquisition answers [VK_ERROR_OUT_OF_DATE_KHR], what is left of
    the iteration is exactly the call of [RecreateSwapChain]; the iteration
    emits no fence reset, no command-buffer reset or recording, no submit
    and no present. *)
Theorem C2_stale_acquire_aborts (env : FrameEnv) (s s1 : State) (semaphore : handle)
    (Hwait : DrawFrame_wait s = Ok tt s1)
    (Hsem : m_imageAvailableSemaphores s1 !! m_currentFrame s1 = Some semaphore)
    (Hstale : fst (env_acquire env) = VK_ERROR_OUT_OF_DATE_KHR) :
  let acquired := set_trace (trace s1 ++ [EvAcquireNextImage (m_swapChain s1) semaphore]) s1 in
  let r := DrawFrame env s in
  r = RecreateSwapChain (env_recreate env) acquired
  /\ (exists rest, emitted acquired (res_state r) = EvCall "RecreateSwapChain" :: rest)
  /\ Forall (fun e => is_frame_work e = false) (emitted s (res_state r)).
Proof.
  intros acquired r.
  assert (Hr : r = RecreateSwapChain (env_recreate env) acquired)
    by (apply DrawFrame_stale; assumption).
  split; [exact Hr|]. split.
  - rewrite Hr. apply RecreateSwapChain_call_first.
  - destruct (trace_ext_emitted _ _ _ (DrawFrame_stale_trace env s s1 semaphore Hwait Hsem Hstale))
      as [_ HF].
    eapply Forall_impl; [exact HF|]. apply stale_path_classes_no_frame_work.
Qed.

Lemma C2_stale_acquire_aborts_witness :
  let env := example_frame (VK_ERROR_OUT_OF_DATE_KHR, 0%nat) VK_SUCCESS
                           (example_swapChain 2 200%N [201; 202; 203]%N) in
  let s1 := set_trace (trace example_state ++ [EvWaitForFences 0]) example_state in
  DrawFrame_wait example_state = Ok tt s1
  /\ m_imageAvailableSemaphores s1 !! m_currentFrame s1 = Some 60%N
  /\ fst (env_acquire env) = VK_ERROR_OUT_OF_DATE_KHR
  /\ Forall (fun e => is_frame_work e = false)
            (emitted example_state (res_state (DrawFrame env example_state))).
Proof.
  intros env s1.
  assert (Hwait : DrawFrame_wait example_state = Ok tt s1) by (vm_compute; reflexivity).
  assert (Hsem : m_imageAvailableSemaphores s1 !! m_currentFrame s1 = Some 60%N)
    by (vm_compute; reflexivity).
  assert (Hstale : fst (env_acquire env) = VK_ERROR_OUT_OF_DATE_KHR) by reflexivity.
  repeat (split; [assumption|]).
  exact (proj2 (proj2 (C2_stale_acquire_aborts env example_state s1 60%N Hwait Hsem Hstale))).
Defined.

Lemma fence_reset_not_on_stale_path e :
  event_class e ∈ ClsFenceWait :: ClsAcquire :: recreate_classes -> event_class e <> ClsFenceReset.
Proof. unfold recreate_classes. intros H Heq. rewrite Heq in H. set_solver. Qed.

(** C10: on the stale-chain path the frame index is not advanced and the
    fence of the slot is never reset: it is signalled when the iteration
    ends, so the wait of the next iteration, on the same slot, returns at
    once. *)
Theorem C10_stale_path_keeps_slot (env : FrameEnv) (s s1 : State) (semaphore : handle)
    (Hwait : DrawFrame_wait s = Ok tt s1)
    (Hsem : m_imageAvailableSemaphores s1 !! m_currentFrame s1 = Some semaphore)
    (Hstale : fst (env_acquire env) = VK_ERROR_OUT_OF_DATE_KHR) :
  let s' := res_state (DrawFrame env s) in
  m_currentFrame s' = m_currentFrame s
  /\ m_inFlightFences s' !! m_currentFrame s = Some true
  /\ Forall (fun e => event_class e <> ClsFenceReset) (emitted s s')
  /\ DrawFrame_wait s' =
       Ok tt (set_trace (trace s' ++ [EvWaitForFences (m_currentFrame s)]) s').
Proof.
  intros s'.
  destruct (DrawFrame_wait_ok s s1 Hwait) as [Hcur Hsig].
  pose proof (DrawFrame_stale env s s1 semaphore Hwait Hsem Hstale) as Hr.
  set (acquired := set_trace (trace s1 ++ [EvAcquireNextImage (m_swapChain s1) semaphore]) s1) in Hr.
  pose proof (RecreateSwapChain_keeps (env_recreate env) acquired) as Hk.
  rewrite <- Hr in Hk. fold s' in Hk.
  assert (Hcur' : m_currentFrame s' = m_currentFrame s).
  { rewrite (rk_currentFrame _ _ Hk). subst acquired. simpl. exact Hcur. }
  assert (Hsig' : m_inFlightFences s' !! m_currentFrame s = Some true).
  { apply (rk_signaled _ _ Hk). subst acquired. simpl. exact Hsig. }
  split; [exact Hcur'|]. split; [exact Hsig'|]. split.
  - destruct (trace_ext_emitted _ _ _ (DrawFrame_stale_trace env s s1 semaphore Hwait Hsem Hstale))
      as [_ HF].
    eapply Forall_impl; [exact HF|]. apply fence_reset_not_on_stale_path.
  - rewrite <- Hcur'. apply DrawFrame_wait_signaled. now rewrite Hcur'.
Qed.

Lemma C10_stale_path_keeps_slot_witness :
  let env := example_frame (VK_ERROR_OUT_OF_DATE_KHR, 0%nat) VK_SUCCESS
                           (example_swapChain 2 200%N [201; 202; 203]%N) in
  let s1 := set_trace (trace example_state ++ [EvWaitForFences 0]) example_state in
  let s' := res_state (DrawFrame env example_state) in
  DrawFrame_wait example_state = Ok tt s1
  /\ m_imageAvailableSemaphores s1 !! m_currentFrame s1 = Some 60%N
  /\ fst (env_acquire env) = VK_ERROR_OUT_OF_DATE_KHR
  /\ m_currentFrame s' = m_currentFrame example_state
  /\ m_inFlightFences s' !! m_currentFrame example_state = Some true.
Proof.
  intros env s1 s'.
  assert (Hwait : DrawFrame_wait example_state = Ok tt s1) by (vm_compute; reflexivity).
  assert (Hsem : m_imageAvailableSemaphores s1 !! m_currentFrame s1 = Some 60%N)
    by (vm_compute; reflexivity).
  assert (Hstale : fst (env_acquire env) = VK_ERROR_OUT_OF_DATE_KHR) by reflexivity.
  repeat (split; [assumption|]).
  destruct (C10_stale_path_keeps_slot env example_state s1 60%N Hwait Hsem Hstale)
    as (Hcur & Hsig & _).
  split; [exact Hcur|exact Hsig].
Defined.

(** ** Running a call step by step *)

Lemma bind_assoc {A B C : Type} (m : M A) (k : A -> M B) (k' : B -> M C) s :
  bind (bind m k) k' s = bind m (fun a => bind (k a) k') s.
Proof. unfold bind. destruct (m s); reflexivity. Qed.

Lemma bind_get_run {A : Type} (k : State -> M A) s : bind get k s = k s s.
Proof. reflexivity. Qed.

Lemma bind_ret_run {A B : Type} (a : A) (k : A -> M B) s : bind (ret a) k s = k a s.
Proof. reflexivity. Qed.

Lemma bind_modify_run {A : Type} (f : State -> State) (k : unit -> M A) s :
  bind (modify f) k s = k tt (f s).
Proof. reflexivity. Qed.

Lemma bind_emit_run {A : Type} (e : Event) (k : unit -> M A) s :
  bind (emit e) k s = k tt (set_trace (trace s ++ [e]) s).
Proof. reflexivity. Qed.

Lemma bind_throw_run {A B : Type} (what : string) (k : A -> M B) s :
  bind (throw what) k s = Throw what s.
Proof. reflexivity. Qed.

Lemma bind_vector_at_run {A B : Type} (v : list A) (i : nat) (k : A -> M B) s :
  bind (vector_at v i) k s =
    match v !! i with Some x => k x s | None => Throw "std::out_of_range" s end.
Proof. unfold vector_at, bind. destruct (v !! i); reflexivity. Qed.

Ltac run_step :=
  first [ rewrite bind_assoc | rewrite bind_get_run | rewrite bind_ret_run
        | rewrite bind_modify_run | rewrite bind_emit_run | rewrite bind_throw_run
        | rewrite bind_vector_at_run ];
  cbv beta.

(** ** A suboptimal chain at acquisition *)

Lemma DrawFrame_split env s :
  DrawFrame env s =
    (reached <- DrawFrame_before_present env;;
     match reached with
     | None => ret tt
     | Some imageIndex => DrawFrame_present env imageIndex;; DrawFrame_advance
     end) s.
Proof.
  unfold DrawFrame, DrawFrame_before_present, bind.
  destruct (DrawFrame_wait s) as [[] s1|w s1|s1]; try reflexivity.
  destruct (DrawFrame_acquire env s1) as [[imageIndex|] s2|w s2|s2]; try reflexivity.
  destruct (DrawFrame_record env imageIndex s2) as [[] s3|w s3|s3]; try reflexivity.
  destruct (DrawFrame_submit env imageIndex s3) as [[] s4|w s4|s4]; reflexivity.
Qed.

Lemma DrawFrame_acquire_suboptimal env s :
  fst (env_acquire env) = VK_SUBOPTIMAL_KHR ->
  DrawFrame_acquire env s
  = DrawFrame_acquire (set_env_acquire (VK_SUCCESS, snd (env_acquire env)) env) s.
Proof.
  intros H. unfold DrawFrame_acquire. simpl. rewrite H.
  unfold bind, get. destruct (vector_at _ _ s) as [sem s1|w s1|s1]; reflexivity.
Qed.

Lemma DrawFrame_suboptimal_as_success env s :
  fst (env_acquire env) = VK_SUBOPTIMAL_KHR ->
  DrawFrame env s = DrawFrame (set_env_acquire (VK_SUCCESS, snd (env_acquire env)) env) s.
Proof.
  intros H. unfold DrawFrame, bind.
  destruct (DrawFrame_wait s) as [[] s1|w s1|s1]; try reflexivity.
  rewrite (DrawFrame_acquire_suboptimal env s1 H). reflexivity.
Qed.

Lemma DrawFrame_present_events env imageIndex s :
  let s' := res_state ((DrawFrame_present env imageIndex;; DrawFrame_advance) s) in
  emitted s s' = []
  \/ (exists semaphore rest,
        emitted s s' = EvQueuePresent semaphore (m_swapChain s) imageIndex :: rest
        /\ ((recreation_due env s /\ exists rest', rest = EvCall "RecreateSwapChain" :: rest')
            \/ (~ recreation_due env s /\ rest = []))).
Proof.
  intros s'. subst s'. unfold DrawFrame_present. do 4 run_step.
  destruct (m_renderFinishedSemaphores s !! m_currentFrame s) as [semaphore|].
  2:{ left. apply emitted_app. simpl. now rewrite app_nil_r. }
  right. exists semaphore. do 2 run_step.
  set (s1 := set_trace (trace s ++ [EvQueuePresent semaphore (m_swapChain s) imageIndex]) s).
  match goal with |- context [decide ?P] => destruct (decide P) as [Hdue|Hdue] end.
  - do 2 run_step.
    set (s2 := set_m_framebufferResized false s1).
    destruct (RecreateSwapChain_call_first (env_recreate env) s2) as (rest' & Hrest).
    assert (Htr : trace (res_state (RecreateSwapChain (env_recreate env) s2))
                  = trace s ++ EvQueuePresent semaphore (m_swapChain s) imageIndex
                              :: EvCall "RecreateSwapChain" :: rest').
    { destruct (RecreateSwapChain_emits (env_recreate env) s2) as (evs & Ht & _).
      rewrite (emitted_app _ _ _ Ht) in Hrest. rewrite Ht, Hrest. subst s2 s1. simpl.
      now rewrite <- app_assoc. }
    exists (EvCall "RecreateSwapChain" :: rest'). split.
    + apply emitted_app. unfold bind.
      destruct (RecreateSwapChain (env_recreate env) s2) as [[] s3|w s3|s3]; exact Htr.
    + left. split; [|eauto]. unfold recreation_due. intuition auto.
  - exists []. split.
    + apply emitted_app. unfold throw_if, bind.
      destruct (decide (VK_SUCCESS ≠ env_queuePresent env)); reflexivity.
    + right. split; [|reflexivity]. unfold recreation_due. intuition auto.
Qed.

Lemma bind_run_Ok {A B : Type} (m : M A) (k : A -> M B) s a s' :
  m s = Ok a s' -> bind m k s = k a s'.
Proof. intros H. unfold bind. now rewrite H. Qed.

Lemma bind_run_Throw {A B : Type} (m : M A) (k : A -> M B) s what s' :
  m s = Throw what s' -> bind m k s = Throw what s'.
Proof. intros H. unfold bind. now rewrite H. Qed.

Lemma bind_run_Block {A B : Type} (m : M A) (k : A -> M B) s s' :
  m s = Block s' -> bind m k s = Block s'.
Proof. intros H. unfold bind. now rewrite H. Qed.

Lemma emitted_trans s1 s2 s3 e1 e2 :
  trace s2 = trace s1 ++ e1 -> trace s3 = trace s2 ++ e2 -> emitted s1 s3 = e1 ++ emitted s2 s3.
Proof.
  intros H1 H2. rewrite (emitted_app s2 s3 e2 H2). apply emitted_app.
  now rewrite H2, H1, app_assoc.
Qed.

Lemma present_and_advance_emits env imageIndex :
  emits (ClsPresent :: recreate_classes) (DrawFrame_present env imageIndex;; DrawFrame_advance).
Proof.
  pose proof (DrawFrame_present_emits env imageIndex). unfold recreate_classes in *. emits_auto.
Qed.

Lemma before_present_no_present evs w c i :
  Forall (fun e => event_class e ∈ before_present_classes) evs ->
  EvQueuePresent w c i ∉ evs.
Proof.
  intros HF Hin. rewrite Forall_forall in HF. apply HF in Hin.
  unfold before_present_classes in Hin. simpl in Hin. set_solver.
Qed.

Lemma before_present_no_call evs fn :
  Forall (fun e => event_class e ∈ before_present_classes) evs ->
  EvCall fn ∉ evs.
Proof.
  intros HF Hin. rewrite Forall_forall in HF. apply HF in Hin.
  unfold before_present_classes in Hin. simpl in Hin. set_solver.
Qed.

(** C3, as stated, fails: acquisition answers [VK_SUBOPTIMAL_KHR],
    presentation answers [VK_SUCCESS], the resize flag is not set, and the
    frame ends with the presentation: no recreation, the chain is the same. *)
Lemma C3_suboptimal_acquire_counterexample :
  let env := example_frame (VK_SUBOPTIMAL_KHR, 1%nat) VK_SUCCESS
                           (example_swapChain 2 200%N [201; 202; 203]%N) in
  fst (env_acquire env) = VK_SUBOPTIMAL_KHR
  /\ env_queuePresent env = VK_SUCCESS
  /\ m_framebufferResized example_state = false
  /\ exists s',
       DrawFrame env example_state = Ok tt s'
       /\ last (emitted example_state s') = Some (EvQueuePresent 70%N 100%N 1%nat)
       /\ existsb is_recreate_call (emitted example_state s') = false
       /\ m_swapChain s' = m_swapChain example_state.
Proof.
  intros env. repeat split; try reflexivity.
  eexists. split; [vm_compute; reflexivity|].
  repeat split; vm_compute; reflexivity.
Qed.

(** C3, amended: when acquisition answers [VK_SUBOPTIMAL_KHR] the iteration
    runs exactly as for [VK_SUCCESS]; nothing is remembered from the
    acquisition, and a frame that is presented is followed by a recreation
    exactly when the presentation result is stale or suboptimal or the
    resize flag is set. *)
Theorem C3_suboptimal_acquire (env : FrameEnv) (s : State)
    (Hsub : fst (env_acquire env) = VK_SUBOPTIMAL_KHR) :
  let r := DrawFrame env s in
  r = DrawFrame (set_env_acquire (VK_SUCCESS, snd (env_acquire env)) env) s
  /\ (forall semaphore chain imageIndex,
        EvQueuePresent semaphore chain imageIndex ∈ emitted s (res_state r) ->
        (EvCall "RecreateSwapChain" ∈ emitted s (res_state r) <-> recreation_due env s)).
Proof.
  intros r. split; [now apply DrawFrame_suboptimal_as_success|].
  intros semaphore chain imageIndex. subst r. rewrite DrawFrame_split.
  assert (Hne : fst (env_acquire env) <> VK_ERROR_OUT_OF_DATE_KHR) by (rewrite Hsub; discriminate).
  destruct (DrawFrame_before_present_emits env Hne s) as (evs & Ht & HF).
  pose proof (DrawFrame_before_present_frame_keeps env Hne s) as Hk.
  destruct (DrawFrame_before_present env s) as [[idx|] s4|w s4|s4] eqn:Hbp; simpl in Ht, Hk.
  - rewrite (bind_run_Ok _ _ _ _ _ Hbp).
    destruct (present_and_advance_emits env idx s4) as (evs' & Ht' & _).
    rewrite (emitted_trans s s4 _ evs evs' Ht Ht').
    assert (Hdue : recreation_due env s4 <-> recreation_due env s).
    { unfold recreation_due. now rewrite (fk_framebufferResized _ _ Hk). }
    destruct (DrawFrame_present_events env idx s4)
      as [Hnil|(sem & rest & He & [[Hd (rest' & ->)]|[Hd ->]])].
    + rewrite Hnil, app_nil_r. intros Hin. now apply before_present_no_present in Hin.
    + rewrite He. intros _. split; [intros _; now apply Hdue|]. intros _.
      apply elem_of_app. right. apply list_elem_of_further, list_elem_of_here.
    + rewrite He. intros _. split; [|intros Hd'; exfalso; apply Hd; now apply Hdue].
      intros [Hin|Hin]%elem_of_app.
      * now apply before_present_no_call in Hin.
      * apply list_elem_of_singleton in Hin. discriminate.
  - rewrite (bind_run_Ok _ _ _ _ _ Hbp). simpl. rewrite (emitted_app _ _ _ Ht).
    intros Hin. now apply before_present_no_present in Hin.
  - rewrite (bind_run_Throw _ _ _ _ _ Hbp). simpl. rewrite (emitted_app _ _ _ Ht).
    intros Hin. now apply before_present_no_present in Hin.
  - rewrite (bind_run_Block _ _ _ _ Hbp). simpl. rewrite (emitted_app _ _ _ Ht).
    intros Hin. now apply before_present_no_present in Hin.
Qed.

Lemma C3_suboptimal_acquire_witness :
  let env := example_frame (VK_SUBOPTIMAL_KHR, 1%nat) VK_SUBOPTIMAL_KHR
                           (example_swapChain 2 200%N [201; 202; 203]%N) in
  fst (env_acquire env) = VK_SUBOPTIMAL_KHR
  /\ DrawFrame env example_state
     = DrawFrame (set_env_acquire (VK_SUCCESS, 1%nat) env) example_state.
Proof.
  intros env. split; [reflexivity|].
  exact (proj1 (C3_suboptimal_acquire env example_state eq_refl)).
Defined.

(** ** The invariant of the frame loop *)

Lemma frames_in_flight_bound s : sync_inv s -> (frames_in_flight s <= MAX_FRAMES_IN_FLIGHT)%nat.
Proof.
  intros [Hlen _ _ _ Hnd Hun]. unfold frames_in_flight.
  rewrite <- (length_map sub_fence).
  change MAX_FRAMES_IN_FLIGHT with (length (seq 0 MAX_FRAMES_IN_FLIGHT)).
  apply submseteq_length, NoDup_submseteq; [exact Hnd|].
  intros slot (sub & -> & Hin)%list_elem_of_fmap.
  apply Hun, lookup_lt_Some in Hin. rewrite Hlen in Hin.
  apply elem_of_seq. lia.
Qed.

Lemma sync_inv_set_trace t s : sync_inv s -> sync_inv (set_trace t s).
Proof. intros []. constructor; assumption. Qed.

Lemma sync_inv_rebuild s s' : sync_inv s -> rebuild_keeps s s' -> sync_inv s'.
Proof.
  intros [] []. constructor; try congruence.
  - destruct rk_gpu0 as [[-> _] | ->]; [assumption|constructor].
  - intros sub. destruct rk_gpu0 as [[-> ->] | ->]; [auto|]. intros Hin. inversion Hin.
Qed.

Lemma delete_lookup_other {A : Type} (l : list A) k x :
  x ∈ delete k l -> exists j, j <> k /\ l !! j = Some x.
Proof.
  intros (j & Hj)%list_elem_of_lookup.
  destruct (decide (j < k)%nat).
  - rewrite list_lookup_delete_lt in Hj by assumption. exists j. split; [lia|assumption].
  - rewrite list_lookup_delete_ge in Hj by lia. exists (S j). split; [lia|assumption].
Qed.

Lemma delete_elem_of {A : Type} (l : list A) k x : x ∈ delete k l -> x ∈ l.
Proof. intros (j & _ & Hj)%delete_lookup_other. eapply list_elem_of_lookup_2; eassumption. Qed.

Lemma delete_fmap_elem_of {A B : Type} (f : A -> B) (l : list A) k y :
  y ∈ map f (delete k l) -> y ∈ map f l.
Proof.
  intros (x & -> & Hx)%list_elem_of_fmap. apply list_elem_of_fmap.
  exists x. split; [reflexivity|]. eapply delete_elem_of; eassumption.
Qed.

Lemma pending_fence_distinct s k sub sub' :
  NoDup (map sub_fence (gpu_pending s)) ->
  gpu_pending s !! k = Some sub ->
  sub' ∈ delete k (gpu_pending s) ->
  sub_fence sub' <> sub_fence sub.
Proof.
  intros Hnd Hk (j & Hjk & Hj)%delete_lookup_other Heq. apply Hjk.
  eapply NoDup_lookup; [exact Hnd| |].
  - change (map sub_fence (gpu_pending s)) with (sub_fence <$> gpu_pending s).
    rewrite list_lookup_fmap, Hj. reflexivity.
  - change (map sub_fence (gpu_pending s)) with (sub_fence <$> gpu_pending s).
    rewrite list_lookup_fmap, Hk. simpl. now rewrite Heq.
Qed.

Lemma sync_inv_gpu_finish k s : sync_inv s -> sync_inv (gpu_finish k s).
Proof.
  intros Hinv. unfold gpu_finish.
  destruct (gpu_pending s !! k) as [sub|] eqn:Hk; [|assumption].
  destruct Hinv as [Hf Ha Hr Hc Hnd Hun].
  constructor; simpl; try assumption.
  - now rewrite length_insert.
  - eapply sublist_NoDup; [exact Hnd|].
    change (sub_fence <$> delete k (gpu_pending s) `sublist_of` sub_fence <$> gpu_pending s).
    apply (fmap_sublist sub_fence), sublist_delete.
  - intros sub' Hin.
    rewrite list_lookup_insert_ne by (symmetry; eapply pending_fence_distinct; eassumption).
    apply Hun. eapply delete_elem_of; exact Hin.
Qed.

Lemma pc_inv_gpu_finish pc k s : sync_inv s -> pc_inv pc s -> pc_inv pc (gpu_finish k s).
Proof.
  intros Hinv Hpc. unfold gpu_finish.
  destruct (gpu_pending s !! k) as [sub|] eqn:Hk; [|assumption].
  assert (Hsig : forall i, m_inFlightFences s !! i = Some true ->
                           <[sub_fence sub := true]> (m_inFlightFences s) !! i = Some true).
  { intros i Hi. destruct (decide (sub_fence sub = i)) as [->|Hne].
    - rewrite list_lookup_insert_eq; [reflexivity|]. eapply lookup_lt_Some; eassumption.
    - now rewrite list_lookup_insert_ne. }
  destruct pc; simpl in *; auto.
  destruct Hpc as [Hfalse Hnot]. split.
  - rewrite list_lookup_insert_ne; [assumption|]. intros Heq. apply Hnot.
    rewrite <- Heq. apply list_elem_of_fmap. exists sub. split; [reflexivity|].
    eapply list_elem_of_lookup_2; eassumption.
  - intros Hin. apply Hnot. eapply delete_fmap_elem_of; exact Hin.
Qed.

Global Instance only_trace_refl : Reflexive only_trace.
Proof. intros s. unfold only_trace. now destruct s. Qed.

Global Instance only_trace_trans : Transitive only_trace.
Proof.
  intros s1 s2 s3 H12 H23. unfold only_trace in *.
  set (t3 := trace s3) in *. set (t2 := trace s2) in *. clearbody t3 t2.
  subst s3 s2. now destruct s1.
Qed.

Ltac only_trace_side := unfold only_trace; simpl; reflexivity.

Ltac only_trace_auto := respects_walk ltac:(solve [eauto]) only_trace_side.

Lemma only_trace_inv pc s s' :
  only_trace s s' -> sync_inv s -> pc_inv pc s -> sync_inv s' /\ pc_inv pc s'.
Proof.
  intros -> Hs Hpc. split; [now apply sync_inv_set_trace|].
  destruct pc; simpl in *; auto.
Qed.

Lemma then_ret_state {A B : Type} (m : M A) (f : A -> B) s :
  res_state (bind m (fun a => ret (f a)) s) = res_state (m s).
Proof. unfold bind. destruct (m s); reflexivity. Qed.

Lemma then_ret_Ok {A B : Type} (m : M A) (f : A -> B) s b s' :
  bind m (fun a => ret (f a)) s = Ok b s' -> exists a, m s = Ok a s' /\ b = f a.
Proof.
  unfold bind. destruct (m s) as [a s1|w s1|s1]; try discriminate.
  intros [= <- <-]. eauto.
Qed.

Lemma bind_Ok_inv {A B : Type} (m : M A) (k : A -> M B) s b s' :
  bind m k s = Ok b s' -> exists a s1, m s = Ok a s1 /\ k a s1 = Ok b s'.
Proof. unfold bind. destruct (m s) as [a s1|w s1|s1]; try discriminate. eauto. Qed.

Lemma glfwPollEvents_keeps resize : respects rebuild_keeps (glfwPollEvents resize).
Proof. unfold glfwPollEvents, deliver_events, FramebufferResizeCallback. rebuild_auto. Qed.

Lemma DrawFrame_acquire_keeps env : respects rebuild_keeps (DrawFrame_acquire env).
Proof. unfold DrawFrame_acquire. rebuild_auto. Qed.

Lemma DrawFrame_present_keeps env imageIndex :
  respects rebuild_keeps (DrawFrame_present env imageIndex).
Proof. unfold DrawFrame_present. rebuild_auto. Qed.

(** The wait ends in the state it started from, or with one submission
    finished by the GPU, up to the trace. *)
Lemma DrawFrame_wait_inv s :
  sync_inv s -> sync_inv (res_state (DrawFrame_wait s)).
Proof.
  intros Hinv.
  unfold DrawFrame_wait, vkWaitForFences. do 2 run_step.
  destruct (m_inFlightFences s !! m_currentFrame s) as [signaled|] eqn:Hf; [|exact Hinv].
  do 2 run_step. simpl. rewrite Hf. simpl.
  destruct signaled; simpl; [now apply sync_inv_set_trace|].
  destruct (list_find _ _) as [[k sub]|]; simpl.
  - now apply sync_inv_gpu_finish, sync_inv_set_trace.
  - now apply sync_inv_set_trace.
Qed.

Lemma RecordCommandBuffer_only_trace env commandBuffer framebuffer :
  respects only_trace (RecordCommandBuffer env commandBuffer framebuffer).
Proof. unfold RecordCommandBuffer. only_trace_auto. Qed.

Lemma DrawFrame_record_inv env imageIndex s :
  sync_inv s -> pc_inv (PcRecord imageIndex) s ->
  sync_inv (res_state (DrawFrame_record env imageIndex s))
  /\ (forall s', DrawFrame_record env imageIndex s = Ok tt s' -> pc_inv (PcSubmit imageIndex) s').
Proof.
  intros Hinv Hpc. simpl in Hpc.
  unfold DrawFrame_record, vkResetFences. do 2 run_step. rewrite Hpc.
  do 3 run_step.
  match goal with |- context [res_state (?m ?st)] => set (tail := m); set (s1 := st) end.
  assert (Htail : respects only_trace tail).
  { pose proof (RecordCommandBuffer_only_trace env). subst tail. only_trace_auto. }
  assert (Hnot : m_currentFrame s ∉ map sub_fence (gpu_pending s)).
  { intros (sub & Heq & Hin)%list_elem_of_fmap.
    apply (si_unsignaled _ Hinv) in Hin. rewrite <- Heq in Hin. congruence. }
  assert (Hs1 : sync_inv s1 /\ pc_inv (PcSubmit imageIndex) s1).
  { destruct Hinv as [Hf Ha Hr Hc Hnd Hun]. subst s1. split.
    - constructor; simpl; try assumption.
      + now rewrite length_insert.
      + intros sub Hin. rewrite list_lookup_insert_ne; [now apply Hun|].
        intros Heq. apply Hnot. apply list_elem_of_fmap. eauto.
    - simpl. split; [|exact Hnot].
      apply list_lookup_insert_eq. eapply lookup_lt_Some; eassumption. }
  destruct Hs1 as [Hs1 Hp1].
  destruct (only_trace_inv (PcSubmit imageIndex) s1 _ (Htail s1) Hs1 Hp1) as [Hs' Hp'].
  split; [exact Hs'|]. intros s' Heq. fold tail s1 in Heq. rewrite Heq in Hp'. exact Hp'.
Qed.

Lemma DrawFrame_submit_inv env imageIndex s :
  sync_inv s -> pc_inv (PcSubmit imageIndex) s ->
  sync_inv (res_state (DrawFrame_submit env imageIndex s)).
Proof.
  intros Hinv [Hfalse Hnot].
  unfold DrawFrame_submit, vkQueueSubmit. do 2 run_step.
  destruct (m_imageAvailableSemaphores s !! m_currentFrame s) as [waitSemaphore|]; [|exact Hinv].
  run_step.
  destruct (m_renderFinishedSemaphores s !! m_currentFrame s) as [signalSemaphore|]; [|exact Hinv].
  run_step. rewrite Hfalse. repeat run_step.
  destruct (decide (VK_SUCCESS = env_queueSubmit env)) as [Hok|Hfail].
  - repeat run_step. unfold throw_if.
    destruct (decide (VK_SUCCESS ≠ env_queueSubmit env)); [congruence|]. simpl.
    destruct Hinv as [Hf Ha Hr Hc Hnd Hun]. constructor; simpl; try assumption.
    + change (NoDup (sub_fence <$> gpu_pending s ++ [{| sub_fence := m_currentFrame s;
                                                       sub_commandBuffer := default VK_NULL_HANDLE (m_commandBuffers s !! imageIndex) |}])).
      rewrite fmap_app. apply NoDup_app. repeat split.
      * exact Hnd.
      * intros slot Hin Hin'. apply list_elem_of_singleton in Hin'. simpl in Hin'. subst slot.
        now apply Hnot.
      * apply NoDup_singleton.
    + intros sub [Hin|Hin]%elem_of_app; [now apply Hun|].
      apply list_elem_of_singleton in Hin. subst sub. exact Hfalse.
  - repeat run_step. unfold throw_if.
    destruct (decide (VK_SUCCESS ≠ env_queueSubmit env)); simpl; now apply sync_inv_set_trace.
Qed.

Lemma DrawFrame_advance_inv s : sync_inv s -> sync_inv (res_state (DrawFrame_advance s)).
Proof.
  intros [Hf Ha Hr Hc Hnd Hun]. constructor; try assumption.
  change ((m_currentFrame s + 1) mod MAX_FRAMES_IN_FLIGHT < MAX_FRAMES_IN_FLIGHT)%nat.
  apply Nat.mod_upper_bound. discriminate.
Qed.

(** Every move of the controlling thread keeps the invariant. *)
Lemma run_phase_inv pc env s :
  sync_inv s -> pc_inv pc s ->
  sync_inv (res_state (run_phase pc env s))
  /\ (forall pc' s', run_phase pc env s = Ok pc' s' -> pc_inv pc' s').
Proof.
  intros Hinv Hpc. destruct pc; cbn [run_phase].
  - rewrite (then_ret_state _ (fun _ => PcWait)). split.
    + eapply sync_inv_rebuild; [exact Hinv|apply glfwPollEvents_keeps].
    + intros pc' s' (a & _ & ->)%then_ret_Ok. exact I.
  - rewrite (then_ret_state _ (fun _ => PcAcquire)). split.
    + now apply DrawFrame_wait_inv.
    + intros pc' s' ([] & Hw & ->)%then_ret_Ok.
      destruct (DrawFrame_wait_ok s s' Hw) as [Hc Hs]. simpl. now rewrite Hc.
  - rewrite (then_ret_state _ (fun acquired => match acquired with
                                              | None => PcPoll
                                              | Some imageIndex => PcRecord imageIndex
                                              end)).
    pose proof (DrawFrame_acquire_keeps env s) as Hk. split.
    + eapply sync_inv_rebuild; eassumption.
    + intros pc' s' (a & Ha & ->)%then_ret_Ok. rewrite Ha in Hk. simpl in Hk.
      destruct a as [imageIndex|]; simpl; [|exact I].
      rewrite (rk_currentFrame _ _ Hk). now apply (rk_signaled _ _ Hk).
  - rewrite (then_ret_state _ (fun _ => PcSubmit imageIndex)).
    destruct (DrawFrame_record_inv env imageIndex s Hinv Hpc) as [Hs Hp]. split; [exact Hs|].
    intros pc' s' ([] & Hr & ->)%then_ret_Ok. now apply Hp.
  - rewrite (then_ret_state _ (fun _ => PcPresent imageIndex)). split.
    + now apply DrawFrame_submit_inv.
    + intros pc' s' (a & _ & ->)%then_ret_Ok. exact I.
  - rewrite (then_ret_state _ (fun _ => PcAdvance)). split.
    + eapply sync_inv_rebuild; [exact Hinv|apply DrawFrame_present_keeps].
    + intros pc' s' (a & _ & ->)%then_ret_Ok. exact I.
  - rewrite (then_ret_state _ (fun _ => PcPoll)). split.
    + now apply DrawFrame_advance_inv.
    + intros pc' s' (a & _ & ->)%then_ret_Ok. exact I.
  - simpl. split; [exact Hinv|]. intros pc' s' [= <- <-]. exact I.
Qed.

Lemma step_inv cfg cfg' :
  step cfg cfg' ->
  sync_inv (snd cfg) /\ pc_inv (fst cfg) (snd cfg) ->
  sync_inv (snd cfg') /\ pc_inv (fst cfg') (snd cfg').
Proof.
  intros Hstep [Hinv Hpc]. destruct Hstep as [pc s k Hk|pc env s pc' s' _ Hrun
    |pc env s what s' _ Hrun|pc env s s' _ Hrun|s]; simpl in *.
  - split; [now apply sync_inv_gpu_finish|now apply pc_inv_gpu_finish].
  - destruct (run_phase_inv pc env s Hinv Hpc) as [Hs Hp]. rewrite Hrun in Hs. split; auto.
  - destruct (run_phase_inv pc env s Hinv Hpc) as [Hs _]. rewrite Hrun in Hs. split; auto.
  - destruct (run_phase_inv pc env s Hinv Hpc) as [Hs _]. rewrite Hrun in Hs. split; auto.
  - split; [|exact I]. eapply sync_inv_rebuild; [exact Hinv|apply vkDeviceWaitIdle_keeps].
Qed.

Lemma rtc_step_inv cfg cfg' :
  rtc step cfg cfg' ->
  sync_inv (snd cfg) /\ pc_inv (fst cfg) (snd cfg) ->
  sync_inv (snd cfg') /\ pc_inv (fst cfg') (snd cfg').
Proof. induction 1 as [|cfg1 cfg2 cfg3 Hstep _ IH]; [auto|]. intros H. eapply IH, step_inv; eauto. Qed.

(** ** Initialisation establishes the invariant *)

Lemma respects_weaken (R R' : State -> State -> Prop) {A : Type} (m : M A) :
  (forall s s', R s s' -> R' s s') -> respects R m -> respects R' m.
Proof. intros HR Hm s. apply HR, Hm. Qed.

Global Instance idle_keeps_refl : Reflexive idle_keeps.
Proof. intros s. split; auto. Qed.

Global Instance idle_keeps_trans : Transitive idle_keeps.
Proof. intros s1 s2 s3 [H1 E1] [H2 E2]. split; [auto|congruence]. Qed.

Lemma rebuild_keeps_idle s s' : rebuild_keeps s s' -> idle_keeps s s'.
Proof.
  intros []. split; [|assumption].
  destruct rk_gpu0 as [[-> _] | ->]; auto.
Qed.

Ltac idle_known :=
  first [ solve [eauto]
        | eapply respects_weaken; [apply rebuild_keeps_idle|solve [eauto with keeps]] ].

Ltac idle_side := split; simpl; auto.

Ltac idle_auto := respects_walk idle_known idle_side.

Lemma CreateSyncObjects_loop_idle env n i : respects idle_keeps (CreateSyncObjects_loop env n i).
Proof.
  revert i. induction n as [|n IH]; intros i; simpl; unfold create_or_throw; idle_auto.
Qed.

Lemma init_idle ienv : respects idle_keeps (InitWindow ienv;; InitVulkan ienv).
Proof.
  pose proof (CreateSyncObjects_loop_idle ienv).
  unfold InitWindow, InitVulkan, PickPhysicalDevice, CreateRenderPass, CreateGraphicsPipeline,
    CreateCommandPool, CreateCommandBuffers, CreateSyncObjects.
  idle_auto.
Qed.

Global Instance slots_keep_refl : Reflexive slots_keep.
Proof. intros s. repeat split. Qed.

Global Instance slots_keep_trans : Transitive slots_keep.
Proof. intros s1 s2 s3 (A1 & B1 & C1) (A2 & B2 & C2). repeat split; congruence. Qed.

Ltac slots_side := repeat split; simpl; rewrite ?length_insert; reflexivity.

Lemma CreateSyncObjects_loop_slots env n i : respects slots_keep (CreateSyncObjects_loop env n i).
Proof.
  revert i. induction n as [|n IH]; intros i; simpl; unfold create_or_throw;
    respects_walk ltac:(solve [eauto]) slots_side.
Qed.

Lemma length_vector_resize {A : Type} (n : nat) (d : A) (v : list A) :
  length (vector_resize n d v) = n.
Proof. unfold vector_resize. rewrite length_app, length_take, length_replicate. lia. Qed.

Lemma CreateSyncObjects_slots env s :
  let s' := res_state (CreateSyncObjects env s) in
  length (m_imageAvailableSemaphores s') = MAX_FRAMES_IN_FLIGHT
  /\ length (m_renderFinishedSemaphores s') = MAX_FRAMES_IN_FLIGHT
  /\ length (m_inFlightFences s') = MAX_FRAMES_IN_FLIGHT.
Proof.
  unfold CreateSyncObjects. do 3 run_step.
  match goal with |- context [CreateSyncObjects_loop _ _ _ ?st] => set (s1 := st) end.
  destruct (CreateSyncObjects_loop_slots env MAX_FRAMES_IN_FLIGHT 0 s1) as (-> & -> & ->).
  subst s1. simpl. rewrite !length_vector_resize. auto.
Qed.

Lemma InitVulkan_last ienv s s0 :
  InitVulkan ienv s = Ok tt s0 -> exists s1, CreateSyncObjects ienv s1 = Ok tt s0.
Proof.
  unfold InitVulkan. intros H.
  do 12 (apply bind_Ok_inv in H as (? & ? & _ & H)). eauto.
Qed.

Lemma init_inv ienv s0 :
  (InitWindow ienv;; InitVulkan ienv) HelloTriangleApplication = Ok tt s0 -> sync_inv s0.
Proof.
  intros Hinit.
  destruct (init_idle ienv HelloTriangleApplication) as [Hidle Hcur].
  rewrite Hinit in Hidle, Hcur. simpl in Hidle, Hcur.
  apply bind_Ok_inv in Hinit as (? & s1 & _ & Hinit).
  apply InitVulkan_last in Hinit as (s2 & Hsync).
  pose proof (CreateSyncObjects_slots ienv s2) as Hslots. rewrite Hsync in Hslots.
  destruct Hslots as (Ha & Hr & Hf).
  constructor; try assumption.
  - rewrite Hcur. unfold MAX_FRAMES_IN_FLIGHT. lia.
  - rewrite Hidle by reflexivity. constructor.
  - rewrite Hidle by reflexivity. intros sub Hin. inversion Hin.
Qed.

Lemma reachable_inv pc s : reachable (pc, s) -> sync_inv s /\ pc_inv pc s.
Proof.
  intros (ienv & s0 & Hinit & Hsteps).
  apply (rtc_step_inv _ _ Hsteps). simpl. split; [|exact I].
  eapply init_inv; eassumption.
Qed.

(** ** The transition system follows [DrawFrame] *)

Lemma run_phase_Ok {A : Type} (m : M A) (f : A -> Pc) s a s' :
  m s = Ok a s' -> bind m (fun x => ret (f x)) s = Ok (f a) s'.
Proof. intros H. now rewrite (bind_run_Ok _ _ _ _ _ H). Qed.

Lemma DrawFrame_steps env s s' :
  DrawFrame env s = Ok tt s' -> rtc step (PcWait, s) (PcPoll, s').
Proof.
  unfold DrawFrame. intros H.
  apply bind_Ok_inv in H as ([] & s1 & Hwait & H).
  apply bind_Ok_inv in H as (acquired & s2 & Hacq & H).
  eapply rtc_l.
  { eapply (step_cpu PcWait env); [discriminate|].
    exact (run_phase_Ok _ (fun _ => PcAcquire) _ _ _ Hwait). }
  eapply rtc_l.
  { eapply (step_cpu PcAcquire env); [discriminate|].
    exact (run_phase_Ok _ (fun a => match a with None => PcPoll | Some i => PcRecord i end)
                        _ _ _ Hacq). }
  destruct acquired as [imageIndex|].
  - apply bind_Ok_inv in H as ([] & s3 & Hrec & H).
    apply bind_Ok_inv in H as ([] & s4 & Hsub & H).
    apply bind_Ok_inv in H as ([] & s5 & Hpres & Hadv).
    eapply rtc_l.
    { eapply (step_cpu (PcRecord imageIndex) env); [discriminate|].
      exact (run_phase_Ok _ (fun _ => PcSubmit imageIndex) _ _ _ Hrec). }
    eapply rtc_l.
    { eapply (step_cpu (PcSubmit imageIndex) env); [discriminate|].
      exact (run_phase_Ok _ (fun _ => PcPresent imageIndex) _ _ _ Hsub). }
    eapply rtc_l.
    { eapply (step_cpu (PcPresent imageIndex) env); [discriminate|].
      exact (run_phase_Ok _ (fun _ => PcAdvance) _ _ _ Hpres). }
    apply rtc_once.
    eapply (step_cpu PcAdvance env); [discriminate|].
    exact (run_phase_Ok _ (fun _ => PcPoll) _ _ _ Hadv).
  - injection H as <-. apply rtc_refl.
Qed.

Lemma frame_steps env s s1 s2 :
  glfwPollEvents (env_pollEvents env) s = Ok tt s1 ->
  DrawFrame env s1 = Ok tt s2 ->
  rtc step (PcPoll, s) (PcPoll, s2).
Proof.
  intros Hpoll Hframe. eapply rtc_l; [|eapply DrawFrame_steps; exact Hframe].
  eapply (step_cpu PcPoll env); [discriminate|].
  exact (run_phase_Ok _ (fun _ => PcWait) _ _ _ Hpoll).
Qed.


(** ** A submit comes after the wait on the same slot *)

Global Instance submits_current_refl : Reflexive submits_current.
Proof. intros s. split; reflexivity. Qed.

Global Instance submits_current_trans : Transitive submits_current.
Proof.
  intros s1 s2 s3 [T1 C1] [T2 C2]. split; [|congruence].
  rewrite C1 in T2. etransitivity; eassumption.
Qed.

Lemma no_submit_class (L : list EventClass) (c : nat) s s' :
  ClsSubmit ∉ L ->
  trace_ext (fun e => event_class e ∈ L) s s' ->
  trace_ext (submit_slot_is c) s s'.
Proof.
  intros HL. apply trace_ext_weaken. intros e He.
  destruct e; simpl; auto. simpl in He. contradiction.
Qed.

Lemma DrawFrame_wait_submits s : submits_current s (res_state (DrawFrame_wait s)).
Proof.
  split; [|apply (fk_currentFrame _ _ (DrawFrame_wait_frame_keeps s))].
  eapply no_submit_class; [|apply DrawFrame_wait_emits]. set_solver.
Qed.

Lemma DrawFrame_acquire_submits env s : submits_current s (res_state (DrawFrame_acquire env s)).
Proof.
  split; [|apply (rk_currentFrame _ _ (DrawFrame_acquire_keeps env s))].
  eapply no_submit_class; [|apply DrawFrame_acquire_emits]. unfold recreate_classes. set_solver.
Qed.

Lemma DrawFrame_record_submits env imageIndex s :
  submits_current s (res_state (DrawFrame_record env imageIndex s)).
Proof.
  split; [|apply (fk_currentFrame _ _ (DrawFrame_record_frame_keeps env imageIndex s))].
  eapply no_submit_class; [|apply DrawFrame_record_emits]. set_solver.
Qed.

Lemma DrawFrame_submit_submits env imageIndex s :
  submits_current s (res_state (DrawFrame_submit env imageIndex s)).
Proof.
  split; [|apply (fk_currentFrame _ _ (DrawFrame_submit_frame_keeps env imageIndex s))].
  unfold DrawFrame_submit, vkQueueSubmit. do 2 run_step.
  destruct (m_imageAvailableSemaphores s !! m_currentFrame s) as [waitSemaphore|]; [|reflexivity].
  run_step.
  destruct (m_renderFinishedSemaphores s !! m_currentFrame s) as [signalSemaphore|]; [|reflexivity].
  run_step.
  destruct (m_inFlightFences s !! m_currentFrame s) as [signaled|]; [|reflexivity].
  repeat run_step.
  eapply trace_ext_emit with (e := EvQueueSubmit waitSemaphore _ signalSemaphore (m_currentFrame s));
    [|reflexivity].
  unfold throw_if.
  destruct (decide (VK_SUCCESS = env_queueSubmit env));
    repeat run_step; destruct (decide (VK_SUCCESS ≠ env_queueSubmit env)); reflexivity.
Qed.

Lemma present_and_advance_submits env imageIndex c s :
  trace_ext (submit_slot_is c) s
            (res_state ((DrawFrame_present env imageIndex;; DrawFrame_advance) s)).
Proof.
  eapply no_submit_class; [|apply present_and_advance_emits]. unfold recreate_classes. set_solver.
Qed.

Lemma DrawFrame_submits env s :
  trace_ext (submit_slot_is (m_currentFrame s)) s (res_state (DrawFrame env s)).
Proof.
  unfold DrawFrame. unfold bind at 1.
  pose proof (DrawFrame_wait_submits s) as H1.
  destruct (DrawFrame_wait s) as [[] s1|w s1|s1]; simpl in H1; try apply H1.
  unfold bind at 1.
  pose proof (DrawFrame_acquire_submits env s1) as H2.
  destruct (DrawFrame_acquire env s1) as [[imageIndex|] s2|w s2|s2]; simpl in H2;
    try apply (transitivity H1 H2).
  unfold bind at 1.
  pose proof (DrawFrame_record_submits env imageIndex s2) as H3.
  destruct (DrawFrame_record env imageIndex s2) as [[] s3|w s3|s3]; simpl in H3;
    try apply (transitivity H1 (transitivity H2 H3)).
  unfold bind at 1.
  pose proof (DrawFrame_submit_submits env imageIndex s3) as H4.
  destruct (DrawFrame_submit env imageIndex s3) as [[] s4|w s4|s4]; simpl in H4;
    try apply (transitivity H1 (transitivity H2 (transitivity H3 H4))).
  destruct (transitivity H1 (transitivity H2 (transitivity H3 H4))) as [HT HC].
  etransitivity; [exact HT|]. apply present_and_advance_submits.
Qed.

Lemma DrawFrame_after_wait env s :
  exists more,
    trace (res_state (DrawFrame env s)) = trace (res_state (DrawFrame_wait s)) ++ more.
Proof.
  unfold DrawFrame. unfold bind at 1.
  destruct (DrawFrame_wait s) as [[] s1|w s1|s1];
    try (exists []; simpl; now rewrite app_nil_r).
  match goal with |- context [res_state (?m s1)] => set (tail := m) end.
  assert (Htail : emits all_classes tail).
  { pose proof (DrawFrame_acquire_emits env). pose proof (DrawFrame_present_emits env).
    subst tail. unfold all_classes, recreate_classes in *. emits_auto. }
  destruct (Htail s1) as (more & Ht & _). exists more. exact Ht.
Qed.

Lemma DrawFrame_wait_head s signaled :
  m_inFlightFences s !! m_currentFrame s = Some signaled ->
  exists gevs,
    trace (res_state (DrawFrame_wait s)) = trace s ++ EvWaitForFences (m_currentFrame s) :: gevs.
Proof.
  intros Hf. unfold DrawFrame_wait, vkWaitForFences. do 2 run_step. rewrite Hf.
  do 2 run_step. simpl. rewrite Hf. simpl.
  destruct signaled; simpl.
  - exists []. reflexivity.
  - destruct (list_find _ _) as [[k sub]|]; simpl.
    + match goal with |- context [gpu_finish k ?st] =>
        destruct (gpu_finish_trace k st) as (gevs & Ht & _) end.
      exists gevs. rewrite Ht. simpl. now rewrite <- app_assoc.
    + exists []. reflexivity.
Qed.

(** The first thing an iteration emits is the wait on the fence of the
    current slot. *)
Lemma DrawFrame_wait_first env s :
  emitted s (res_state (DrawFrame env s)) = []
  \/ exists rest,
       emitted s (res_state (DrawFrame env s)) = EvWaitForFences (m_currentFrame s) :: rest.
Proof.
  destruct (DrawFrame_after_wait env s) as (more & Hmore).
  destruct (m_inFlightFences s !! m_currentFrame s) as [signaled|] eqn:Hf.
  - right. destruct (DrawFrame_wait_head s signaled Hf) as (gevs & Hhead).
    exists (gevs ++ more). apply emitted_app. rewrite Hmore, Hhead. now rewrite <- app_assoc.
  - left. apply emitted_app. unfold DrawFrame. unfold bind at 1.
    unfold DrawFrame_wait. do 2 run_step. rewrite Hf. simpl. now rewrite app_nil_r.
Qed.

Lemma DrawFrame_submit_after_wait env s waitSemaphore commandBuffer signalSemaphore slot :
  EvQueueSubmit waitSemaphore commandBuffer signalSemaphore slot
    ∈ emitted s (res_state (DrawFrame env s)) ->
  slot = m_currentFrame s
  /\ exists rest, emitted s (res_state (DrawFrame env s)) = EvWaitForFences slot :: rest.
Proof.
  intros Hin.
  destruct (trace_ext_emitted _ _ _ (DrawFrame_submits env s)) as [_ HF].
  rewrite Forall_forall in HF. pose proof (HF _ Hin) as Hslot. simpl in Hslot. subst slot.
  split; [reflexivity|].
  destruct (DrawFrame_wait_first env s) as [Hnil|Hrest]; [|exact Hrest].
  rewrite Hnil in Hin. inversion Hin.
Qed.

(** C1: in every configuration the frame loop can reach, with the GPU
    finishing work whenever it likes, at most [MAX_FRAMES_IN_FLIGHT]
    submissions are unfinished, each slot has at most one of them and its
    fence is unsignalled; when the controlling thread is about to submit,
    the current slot has none; and every submit of an iteration signals the
    fence the iteration waited on at its start. *)
Theorem C1_frames_in_flight_bounded (pc : Pc) (s : State) (Hreach : reachable (pc, s)) :
  (frames_in_flight s <= MAX_FRAMES_IN_FLIGHT)%nat
  /\ NoDup (map sub_fence (gpu_pending s))
  /\ (forall sub, sub ∈ gpu_pending s -> m_inFlightFences s !! sub_fence sub = Some false)
  /\ (forall imageIndex, pc = PcSubmit imageIndex ->
        m_currentFrame s ∉ map sub_fence (gpu_pending s))
  /\ (forall env waitSemaphore commandBuffer signalSemaphore slot,
        EvQueueSubmit waitSemaphore commandBuffer signalSemaphore slot
          ∈ emitted s (res_state (DrawFrame env s)) ->
        slot = m_currentFrame s
        /\ exists rest, emitted s (res_state (DrawFrame env s)) = EvWaitForFences slot :: rest).
Proof.
  destruct (reachable_inv pc s Hreach) as [Hinv Hpc].
  split; [now apply frames_in_flight_bound|].
  split; [apply (si_distinct _ Hinv)|].
  split; [apply (si_unsignaled _ Hinv)|].
  split.
  - intros imageIndex ->. apply Hpc.
  - intros env w c g slot. apply DrawFrame_submit_after_wait.
Qed.

Lemma C1_frames_in_flight_bounded_witness :
  reachable (PcPoll, example_after2)
  /\ (frames_in_flight example_after2 <= MAX_FRAMES_IN_FLIGHT)%nat
  /\ frames_in_flight example_after2 = 2%nat.
Proof.
  assert (Hreach : reachable (PcPoll, example_after2)).
  { exists example_init, example_state. split; [vm_compute; reflexivity|].
    eapply rtc_trans.
    - apply (frame_steps example_frame1 example_state example_polled1 example_after1);
        vm_compute; reflexivity.
    - apply (frame_steps example_frame2 example_after1 example_polled2 example_after2);
        vm_compute; reflexivity. }
  split; [exact Hreach|]. split; [|vm_compute; reflexivity].
  exact (proj1 (C1_frames_in_flight_bounded PcPoll example_after2 Hreach)).
Defined.

(** ** Command buffers and swap chain images *)

Global Instance sizes_keep_refl : Reflexive sizes_keep.
Proof. intros s. repeat split. Qed.

Global Instance sizes_keep_trans : Transitive sizes_keep.
Proof. intros s1 s2 s3 (A1 & B1 & C1 & D1) (A2 & B2 & C2 & D2). repeat split; congruence. Qed.

Ltac sizes_side := repeat split; simpl; rewrite ?length_insert; reflexivity.

Ltac sizes_auto := respects_walk ltac:(solve [eauto]) sizes_side.

Lemma CreateImageViews_loop_sizes env images i :
  respects sizes_keep (CreateImageViews_loop env images i).
Proof. revert i. induction images as [|image images IH]; intros i; simpl; sizes_auto. Qed.

Lemma CreateFramebuffers_loop_sizes env views i :
  respects sizes_keep (CreateFramebuffers_loop env views i).
Proof. revert i. induction views as [|view views IH]; intros i; simpl; sizes_auto. Qed.

Lemma CreateSyncObjects_sizes env : respects sizes_keep (CreateSyncObjects env).
Proof.
  assert (Hloop : forall n i, respects sizes_keep (CreateSyncObjects_loop env n i)).
  { induction n as [|n IH]; intros i; simpl; unfold create_or_throw; sizes_auto. }
  unfold CreateSyncObjects. sizes_auto.
Qed.

Lemma CreateSwapChain_images env s s' :
  CreateSwapChain env s = Ok tt s' ->
  m_swapChainImages s' = env_swapchainImages env
  /\ m_swapChainImageViews s' = m_swapChainImageViews s
  /\ m_swapChainFramebuffers s' = m_swapChainFramebuffers s
  /\ m_commandBuffers s' = m_commandBuffers s.
Proof.
  unfold CreateSwapChain. run_step. intros H.
  apply bind_Ok_inv in H as (g & s1 & Hg & H).
  apply bind_Ok_inv in H as (p & s2 & Hp & H).
  unfold optional_value in Hg, Hp.
  destruct (graphicsFamily _); [|discriminate]. destruct (presentFamily _); [|discriminate].
  injection Hg as <- <-. injection Hp as <- <-.
  rewrite bind_emit_run, bind_modify_run in H. unfold throw_if in H.
  destruct (decide (VK_SUCCESS ≠ (env_createSwapchain env).1)); [discriminate|].
  repeat (rewrite ?bind_ret_run, ?bind_modify_run, ?bind_emit_run in H).
  injection H as <-. simpl. auto.
Qed.

Lemma CreateImageViews_sizes env s :
  let s' := res_state (CreateImageViews env s) in
  m_swapChainImages s' = m_swapChainImages s
  /\ length (m_swapChainImageViews s') = length (m_swapChainImages s)
  /\ length (m_commandBuffers s') = length (m_commandBuffers s).
Proof.
  unfold CreateImageViews. do 2 run_step.
  match goal with |- context [CreateImageViews_loop _ _ _ ?st] => set (s1 := st) end.
  destruct (CreateImageViews_loop_sizes env (m_swapChainImages s1) 0 s1) as (-> & -> & _ & ->).
  subst s1. simpl. rewrite length_vector_resize. auto.
Qed.

Lemma CreateFramebuffers_sizes env s :
  let s' := res_state (CreateFramebuffers env s) in
  m_swapChainImages s' = m_swapChainImages s
  /\ length (m_swapChainFramebuffers s') = length (m_swapChainImageViews s)
  /\ length (m_commandBuffers s') = length (m_commandBuffers s).
Proof.
  unfold CreateFramebuffers. do 2 run_step.
  match goal with |- context [CreateFramebuffers_loop _ _ _ ?st] => set (s1 := st) end.
  destruct (CreateFramebuffers_loop_sizes env (m_swapChainImageViews s1) 0 s1) as (-> & _ & -> & ->).
  subst s1. simpl. rewrite length_vector_resize. auto.
Qed.

Lemma CreateCommandBuffers_sizes env s s' :
  CreateCommandBuffers env s = Ok tt s' ->
  m_swapChainImages s' = m_swapChainImages s
  /\ length (m_commandBuffers s') = length (m_swapChainFramebuffers s).
Proof.
  unfold CreateCommandBuffers. do 3 run_step. unfold throw_if.
  destruct (decide (VK_SUCCESS ≠ (init_allocateCommandBuffers env).1)); [discriminate|].
  repeat run_step. intros [= <-]. simpl.
  rewrite length_imap, length_vector_resize. auto.
Qed.

(** Initialisation allocates one command buffer per swap chain image. *)
Lemma init_command_buffers ienv s0 :
  (InitWindow ienv;; InitVulkan ienv) HelloTriangleApplication = Ok tt s0 ->
  length (m_commandBuffers s0) = length (m_swapChainImages s0).
Proof.
  intros H. apply bind_Ok_inv in H as (? & s1 & _ & H). unfold InitVulkan in H.
  do 5 (apply bind_Ok_inv in H as (? & ? & _ & H)).
  apply bind_Ok_inv in H as ([] & sa & Hchain & H).
  apply bind_Ok_inv in H as ([] & sb & Hviews & H).
  apply bind_Ok_inv in H as ([] & sc & Hpass & H).
  apply bind_Ok_inv in H as ([] & sd & Hpipe & H).
  apply bind_Ok_inv in H as ([] & se & Hfbs & H).
  apply bind_Ok_inv in H as ([] & sf & Hpool & H).
  apply bind_Ok_inv in H as ([] & sg & Hbufs & Hsync).
  pose proof (CreateImageViews_sizes (init_swapChain ienv) sa) as Hv. rewrite Hviews in Hv.
  assert (Hcd : sizes_keep sb sd).
  { transitivity sc.
    - assert (Hr : respects sizes_keep (CreateRenderPass ienv))
        by (unfold CreateRenderPass; sizes_auto).
      specialize (Hr sb). now rewrite Hpass in Hr.
    - assert (Hr : respects sizes_keep (CreateGraphicsPipeline ienv))
        by (unfold CreateGraphicsPipeline; sizes_auto).
      specialize (Hr sc). now rewrite Hpipe in Hr. }
  pose proof (CreateFramebuffers_sizes (init_swapChain ienv) sd) as Hf. rewrite Hfbs in Hf.
  assert (Hef : sizes_keep se sf).
  { assert (Hr : respects sizes_keep (CreateCommandPool ienv))
      by (unfold CreateCommandPool; sizes_auto).
    specialize (Hr se). now rewrite Hpool in Hr. }
  destruct (CreateCommandBuffers_sizes ienv sf sg Hbufs) as [Hi Hb].
  pose proof (CreateSyncObjects_sizes ienv sg) as Hs. rewrite Hsync in Hs.
  simpl in Hv, Hf, Hs.
  destruct Hv as (Hv1 & Hv2 & _), Hcd as (Hc1 & Hc2 & _), Hf as (Hf1 & Hf2 & _),
    Hef as (He1 & _ & He3 & _), Hs as (Hs1 & _ & _ & Hs4).
  rewrite Hs4, Hs1, Hb, Hi, He3, He1, Hf2, Hf1, Hc2, Hc1, Hv2, Hv1. reflexivity.
Qed.

(** [RecreateSwapChain] takes the images the driver reports and leaves the
    command buffers as they are. *)
Lemma RecreateSwapChain_images env s s' :
  RecreateSwapChain env s = Ok tt s' ->
  m_swapChainImages s' = env_swapchainImages env
  /\ m_commandBuffers s' = m_commandBuffers s.
Proof.
  intros H. split.
  2:{ pose proof (RecreateSwapChain_keeps env s) as Hk. rewrite H in Hk.
      apply (rk_commandBuffers _ _ Hk). }
  unfold RecreateSwapChain in H.
  do 5 (apply bind_Ok_inv in H as (? & ? & _ & H)).
  apply bind_Ok_inv in H as ([] & sa & Hchain & H).
  apply bind_Ok_inv in H as ([] & sb & Hviews & Hfbs).
  destruct (CreateSwapChain_images env _ _ Hchain) as (Hi & _).
  pose proof (CreateImageViews_sizes env sa) as Hv. rewrite Hviews in Hv.
  pose proof (CreateFramebuffers_sizes env sb) as Hf. rewrite Hfbs in Hf.
  simpl in Hv, Hf. destruct Hv as (Hv1 & _), Hf as (Hf1 & _). congruence.
Qed.

(** C9 does not hold of the code: in the sample run, a presentation on a
    suboptimal chain makes [RecreateSwapChain] build a chain of four images
    while the three command buffers of initialisation stay; the state is
    reachable, and the next frame, given the fourth image, is left by the
    [std::out_of_range] of [m_commandBuffers.at(imageIndex)]. *)
Theorem C9_command_buffers_after_recreation :
  reachable (PcPoll, example_resized)
  /\ length (m_commandBuffers example_state) = length (m_swapChainImages example_state)
  /\ length (m_swapChainImages example_resized) = 4%nat
  /\ length (m_commandBuffers example_resized) = 3%nat
  /\ exists s',
       DrawFrame example_fourth_image_frame example_resized = Throw "std::out_of_range" s'.
Proof.
  split.
  { exists example_init, example_state. split; [exact example_state_ok|].
    apply (frame_steps example_resize_frame example_state example_polled1 example_resized);
      vm_compute; reflexivity. }
  split; [exact (init_command_buffers example_init example_state example_state_ok)|].
  split; [vm_compute; reflexivity|].
  split; [vm_compute; reflexivity|].
  eexists. vm_compute. reflexivity.
Qed.

(** * Further properties *)

(** ** Surface format *)

Lemma surface_format_eqb_preferred f :
  surface_format_eqb f VK_FORMAT_B8G8R8A8_UNORM VK_COLOR_SPACE_SRGB_NONLINEAR_KHR = true
  <-> f = preferred_surface_format.
Proof.
  unfold surface_format_eqb, preferred_surface_format. destruct f as [fmt cs].
  cbn [format colorSpace]. rewrite andb_true_iff, !Z.eqb_eq. split.
  - intros [<- <-]. reflexivity.
  - intros [= -> ->]. auto.
Qed.

Lemma find_preferred_Some formats :
  preferred_surface_format ∈ formats ->
  List.find (fun f => surface_format_eqb f VK_FORMAT_B8G8R8A8_UNORM
                                         VK_COLOR_SPACE_SRGB_NONLINEAR_KHR) formats
  = Some preferred_surface_format.
Proof.
  induction formats as [|f formats IH]; intros Hin; [inversion Hin|]. simpl.
  destruct (surface_format_eqb f _ _) eqn:Hf.
  - apply surface_format_eqb_preferred in Hf. now subst.
  - apply elem_of_cons in Hin as [Heq|Hin]; [|now apply IH].
    rewrite <- Heq in Hf. discriminate Hf.
Qed.

Lemma find_preferred_None formats :
  preferred_surface_format ∉ formats ->
  List.find (fun f => surface_format_eqb f VK_FORMAT_B8G8R8A8_UNORM
                                         VK_COLOR_SPACE_SRGB_NONLINEAR_KHR) formats
  = None.
Proof.
  induction formats as [|f formats IH]; intros Hnin; [reflexivity|]. simpl.
  apply not_elem_of_cons in Hnin as [Hne Hnin].
  destruct (surface_format_eqb f _ _) eqn:Hf; [|now apply IH].
  apply surface_format_eqb_preferred in Hf. congruence.
Qed.

(** X1: for a non-empty list of formats, [ChooseSwapSurfaceFormat] returns
    the preferred format (B8G8R8A8_UNORM, sRGB non-linear) when it is
    offered anywhere in the list, and also when the list is a single entry
    of undefined format; in every other case it returns the first entry. *)
Theorem X1_surface_format_choice (first : VkSurfaceFormatKHR) (rest : list VkSurfaceFormatKHR) :
  let offered := first :: rest in
  (preferred_surface_format ∈ offered ->
   ChooseSwapSurfaceFormat offered = preferred_surface_format)
  /\ (rest = [] -> format first = VK_FORMAT_UNDEFINED ->
      ChooseSwapSurfaceFormat offered = preferred_surface_format)
  /\ (preferred_surface_format ∉ offered ->
      ~ (rest = [] /\ format first = VK_FORMAT_UNDEFINED) ->
      ChooseSwapSurfaceFormat offered = first).
Proof.
  intros offered. unfold ChooseSwapSurfaceFormat. fold preferred_surface_format.
  subst offered. cbn [List.hd length].
  split; [|split].
  - intros Hin. rewrite (find_preferred_Some _ Hin).
    destruct (_ && _); reflexivity.
  - intros -> Hundef. simpl. rewrite Hundef. reflexivity.
  - intros Hnin Hlegacy. rewrite (find_preferred_None _ Hnin).
    destruct (bool_decide_reflect (1%nat = S (length rest))) as [Hlen|Hlen];
      [|reflexivity].
    destruct (Z.eqb_spec (format first) VK_FORMAT_UNDEFINED) as [Hu|Hu]; [|reflexivity].
    exfalso. apply Hlegacy. split; [|exact Hu]. destruct rest; [reflexivity|discriminate].
Qed.

(** ** Queue families *)

Lemma FindQueueFamilies_loop_sound qfs i0 indices :
  let found := FindQueueFamilies_loop qfs i0 indices in
  (forall i, graphicsFamily found = Some i ->
     graphicsFamily indices = Some i
     \/ exists q, (i0 <= i)%nat /\ qfs !! (i - i0)%nat = Some q
                  /\ Z.land (queueFlags q) VK_QUEUE_GRAPHICS_BIT <> 0)
  /\ (forall i, presentFamily found = Some i ->
        presentFamily indices = Some i
        \/ exists q, (i0 <= i)%nat /\ qfs !! (i - i0)%nat = Some q /\ presentSupport q = true).
Proof.
  revert i0 indices. induction qfs as [|q qfs IH]; intros i0 indices; cbn zeta.
  - simpl. split; intros i Hi; now left.
  - cbn [FindQueueFamilies_loop].
    set (indices1 := if negb _ then _ else indices).
    set (indices2 := if presentSupport q then _ else indices1).
    assert (Hg : forall i, graphicsFamily indices2 = Some i ->
                   graphicsFamily indices = Some i
                   \/ (i = i0 /\ Z.land (queueFlags q) VK_QUEUE_GRAPHICS_BIT <> 0)).
    { subst indices2 indices1. intros i.
      destruct (Z.eqb_spec (Z.land (queueFlags q) VK_QUEUE_GRAPHICS_BIT) 0) as [E|E];
        destruct (presentSupport q); simpl; intros Hi; auto;
        injection Hi as <-; auto. }
    assert (Hp : forall i, presentFamily indices2 = Some i ->
                   presentFamily indices = Some i \/ (i = i0 /\ presentSupport q = true)).
    { subst indices2 indices1. intros i.
      destruct (Z.eqb_spec (Z.land (queueFlags q) VK_QUEUE_GRAPHICS_BIT) 0) as [E|E];
        destruct (presentSupport q) eqn:Hq; simpl; intros Hi; auto;
        injection Hi as <-; auto. }
    clearbody indices2. clear indices1.
    assert (Hhere : forall i, i = i0 -> (i0 <= i)%nat /\ (q :: qfs) !! (i - i0)%nat = Some q).
    { intros i ->. split; [lia|]. now rewrite Nat.sub_diag. }
    assert (Hlater : forall i q', (S i0 <= i)%nat -> qfs !! (i - S i0)%nat = Some q' ->
                       (i0 <= i)%nat /\ (q :: qfs) !! (i - i0)%nat = Some q').
    { intros i q' Hle Hq'. split; [lia|].
      replace (i - i0)%nat with (S (i - S i0)) by lia. exact Hq'. }
    destruct (IsComplete indices2).
    + split; intros i Hi.
      * destruct (Hg i Hi) as [?|[-> ?]]; [now left|].
        right. exists q. destruct (Hhere i0 eq_refl). auto.
      * destruct (Hp i Hi) as [?|[-> ?]]; [now left|].
        right. exists q. destruct (Hhere i0 eq_refl). auto.
    + destruct (IH (S i0) indices2) as [IHg IHp]. split; intros i Hi.
      * destruct (IHg i Hi) as [Hi2|(q' & Hle & Hq' & Hcap)].
        -- destruct (Hg i Hi2) as [?|[-> ?]]; [now left|].
           right. exists q. destruct (Hhere i0 eq_refl). auto.
        -- right. exists q'. destruct (Hlater i q' Hle Hq'). auto.
      * destruct (IHp i Hi) as [Hi2|(q' & Hle & Hq' & Hcap)].
        -- destruct (Hp i Hi2) as [?|[-> ?]]; [now left|].
           right. exists q. destruct (Hhere i0 eq_refl). auto.
        -- right. exists q'. destruct (Hlater i q' Hle Hq'). auto.
Qed.

(** X2: the indices [FindQueueFamilies] reports are indices of the device's
    queue family list, the graphics index of a family with the graphics
    bit and the present index of a family that can present to the
    surface. *)
Theorem X2_queue_family_indices_sound (device : PhysicalDevice) :
  (forall i, graphicsFamily (FindQueueFamilies device) = Some i ->
     exists q, pd_queueFamilies device !! i = Some q
               /\ Z.land (queueFlags q) VK_QUEUE_GRAPHICS_BIT <> 0)
  /\ (forall i, presentFamily (FindQueueFamilies device) = Some i ->
        exists q, pd_queueFamilies device !! i = Some q /\ presentSupport q = true).
Proof.
  unfold FindQueueFamilies.
  destruct (FindQueueFamilies_loop_sound (pd_queueFamilies device) 0
              {| graphicsFamily := None; presentFamily := None |}) as [Hg Hp].
  split; intros i Hi.
  - destruct (Hg i Hi) as [Hnone|(q & _ & Hq & Hcap)]; [discriminate|].
    rewrite Nat.sub_0_r in Hq. eauto.
  - destruct (Hp i Hi) as [Hnone|(q & _ & Hq & Hcap)]; [discriminate|].
    rewrite Nat.sub_0_r in Hq. eauto.
Qed.

(** ** Device selection: the two errors *)

Lemma set_m_physicalDevice_twice a b s :
  set_m_physicalDevice a (set_m_physicalDevice b s) = set_m_physicalDevice a s.
Proof. now destruct s. Qed.

(** X3: started with [m_physicalDevice = nullptr], [PickPhysicalDevice]
    throws "failed to find GPUs with Vulkan support" on an empty
    enumeration and "failed to find a suitable GPU" on a non-empty one
    without an eligible device, leaving the object untouched; when the
    first eligible device is [device], it returns and only
    [m_physicalDevice] has changed. *)
Theorem X3_device_selection_outcomes (devices : list PhysicalDevice) (s : State) :
  let s0 := set_m_physicalDevice None s in
  (devices = [] ->
   PickPhysicalDevice devices s0 = Throw "failed to find GPUs with Vulkan support" s0)
  /\ (devices <> [] -> Forall (fun d => ~ eligible d) devices ->
      PickPhysicalDevice devices s0 = Throw "failed to find a suitable GPU" s0)
  /\ (forall pre device post,
        devices = pre ++ device :: post ->
        Forall (fun d => ~ eligible d) pre -> eligible device ->
        PickPhysicalDevice devices s0 = Ok tt (set_m_physicalDevice (Some device) s)).
Proof.
  intros s0. split; [|split].
  - intros ->. reflexivity.
  - intros Hne Hall. unfold PickPhysicalDevice, bind, throw_if.
    destruct (decide (0%nat = length devices)) as [Hlen|_].
    { destruct devices; [congruence|discriminate]. }
    cbn.
    destruct (PickPhysicalDevice_loop_first devices None)
      as [(pre & device & post & -> & _ & Hdev & _)|[_ Hsel]].
    + apply IsDeviceSuitable_eligible in Hdev.
      apply Forall_app in Hall as [_ Hall]. apply Forall_cons in Hall as [Hnot _].
      contradiction.
    + rewrite Hsel. cbn. subst s0. now rewrite set_m_physicalDevice_twice.
  - intros pre device post -> Hpre Hdev. unfold PickPhysicalDevice, bind, throw_if.
    destruct (decide (0%nat = length (pre ++ device :: post))) as [Hlen|_].
    { rewrite length_app in Hlen. simpl in Hlen. lia. }
    cbn.
    assert (Hsel : PickPhysicalDevice_loop (pre ++ device :: post) None = Some device).
    { clear -Hpre Hdev. induction Hpre as [|d pre Hd _ IH]; simpl.
      - apply IsDeviceSuitable_eligible in Hdev. now rewrite Hdev.
      - apply IsDeviceSuitable_not_eligible in Hd. now rewrite Hd. }
    rewrite Hsel. cbn. subst s0. now rewrite set_m_physicalDevice_twice.
Qed.

(** ** Validation layers *)

Lemma layerFound_true layerName availableLayers :
  layerFound layerName availableLayers = true <-> layerName ∈ availableLayers.
Proof.
  induction availableLayers as [|l rest IH]; simpl.
  - split; [discriminate|intros H; inversion H].
  - rewrite elem_of_cons. destruct (String.eqb_spec layerName l) as [->|Hne].
    + split; auto.
    + rewrite IH. split; [auto|]. intros [?|?]; [contradiction|assumption].
Qed.

Lemma CheckValidationLayerSupport_loop_true layers availableLayers :
  CheckValidationLayerSupport_loop layers availableLayers = true
  <-> forall layerName, layerName ∈ layers -> layerName ∈ availableLayers.
Proof.
  induction layers as [|l rest IH]; simpl.
  - split; [intros _ x Hx; inversion Hx|reflexivity].
  - destruct (layerFound l availableLayers) eqn:Hl; simpl.
    + apply layerFound_true in Hl. rewrite IH. split.
      * intros Hrest x [->|Hx]%elem_of_cons; auto.
      * intros Hall x Hx. apply Hall. now apply list_elem_of_further.
    + split; [discriminate|]. intros Hall.
      assert (Hin : l ∈ availableLayers) by apply Hall, list_elem_of_here.
      apply layerFound_true in Hin. congruence.
Qed.

(** X4: [CheckValidationLayerSupport] answers true exactly when every layer
    of [g_validationLayers] is among the layers the loader reports, wherever
    in the report it stands and however often. *)
Theorem X4_validation_layer_support (availableLayers : list string) :
  CheckValidationLayerSupport availableLayers = true
  <-> forall layerName, layerName ∈ g_validationLayers -> layerName ∈ availableLayers.
Proof. apply CheckValidationLayerSupport_loop_true. Qed.

(** ** The requested image count is one the surface allows *)

(** X5: when [minImageCount] is below the largest [uint32_t] and the
    surface's bound, if there is one, is not below its minimum, the image
    count [CreateSwapChain] asks for is at least [minImageCount], at most
    [minImageCount + 1], and within the bound. *)
Theorem X5_requested_image_count_allowed (caps : VkSurfaceCapabilitiesKHR)
    (Hmin : 0 <= minImageCount caps < UINT32_MAX)
    (Hmax : maxImageCount caps = 0 \/ minImageCount caps <= maxImageCount caps) :
  minImageCount caps <= requestedImageCount caps <= minImageCount caps + 1
  /\ (0 < maxImageCount caps -> requestedImageCount caps <= maxImageCount caps).
Proof.
  rewrite (requestedImageCount_no_wrap caps Hmin).
  destruct (Z.ltb_spec 0 (maxImageCount caps)); lia.
Qed.

Lemma X5_requested_image_count_allowed_witness :
  let caps := capabilities (example_support 2) in
  (0 <= minImageCount caps < UINT32_MAX)
  /\ (maxImageCount caps = 0 \/ minImageCount caps <= maxImageCount caps)
  /\ minImageCount caps <= requestedImageCount caps <= minImageCount caps + 1.
Proof.
  intros caps.
  assert (Hmin : 0 <= minImageCount caps < UINT32_MAX) by (unfold UINT32_MAX; simpl; lia).
  assert (Hmax : maxImageCount caps = 0 \/ minImageCount caps <= maxImageCount caps)
    by (left; reflexivity).
  split; [exact Hmin|]. split; [exact Hmax|].
  exact (proj1 (X5_requested_image_count_allowed caps Hmin Hmax)).
Defined.

(** ** The chosen extent is one the surface allows *)

Lemma std_clamp_range v lo hi : lo <= hi -> lo <= std_clamp v lo hi <= hi.
Proof.
  intros Hle. unfold std_clamp.
  destruct (Z.ltb_spec v lo); [lia|]. destruct (Z.ltb_spec hi v); lia.
Qed.

(** X6: when the surface leaves the extent to the client, the extent
    [ChooseSwapExtent] returns lies within the surface's minimum and
    maximum extent in both components, whatever size the window reports,
    a zero-sized (minimised) window included. *)
Theorem X6_swap_extent_allowed (framebufferSize : Z * Z) (caps : VkSurfaceCapabilitiesKHR)
    (Hsentinel : width (currentExtent caps) = UINT32_MAX)
    (Hwidth : width (minImageExtent caps) <= width (maxImageExtent caps))
    (Hheight : height (minImageExtent caps) <= height (maxImageExtent caps)) :
  let extent := ChooseSwapExtent framebufferSize caps in
  width (minImageExtent caps) <= width extent <= width (maxImageExtent caps)
  /\ height (minImageExtent caps) <= height extent <= height (maxImageExtent caps).
Proof.
  unfold ChooseSwapExtent. rewrite Hsentinel. cbn [negb Z.eqb UINT32_MAX Pos.eqb width height].
  split; now apply std_clamp_range.
Qed.

Lemma X6_swap_extent_allowed_witness :
  let caps :=
    {| minImageCount := 2; maxImageCount := 3;
       currentExtent := {| width := UINT32_MAX; height := UINT32_MAX |};
       minImageExtent := {| width := 1; height := 1 |};
       maxImageExtent := {| width := 640; height := 4096 |};
       currentTransform := 1 |} in
  width (currentExtent caps) = UINT32_MAX
  /\ ChooseSwapExtent (0, 0) caps = {| width := 1; height := 1 |}
  /\ 1 <= width (ChooseSwapExtent (0, 0) caps) <= 640.
Proof.
  intros caps. split; [reflexivity|]. split; [reflexivity|].
  refine (proj1 (X6_swap_extent_allowed (0, 0) caps eq_refl _ _)); simpl; lia.
Defined.

(** ** Creating the swap chain for the selected device *)

Lemma eligible_indices device :
  eligible device ->
  exists graphics present,
    graphicsFamily (FindQueueFamilies device) = Some graphics
    /\ presentFamily (FindQueueFamilies device) = Some present.
Proof.
  intros (Hg & Hp & _).
  assert (Hc : IsComplete (FindQueueFamilies device) = true)
    by (apply FindQueueFamilies_complete; auto).
  apply IsComplete_true in Hc as [[g Hg'] [p Hp']]. eauto.
Qed.

(** X7: with the device [PickPhysicalDevice] selected and a surface that
    offers at least one format, [CreateSwapChain] never fails on a missing
    queue family index.  It asks the driver for a chain with the requested
    image count, the chosen extent, and concurrent sharing exactly when the
    graphics and present families differ.  When the driver refuses, it
    throws "failed to create swap chain": [m_swapChain], which the driver
    was given to write to, holds whatever the driver left there, and no
    other member has changed.  Otherwise it stores the new handle, the
    driver's images, the chosen format and the chosen extent. *)
Theorem X7_swap_chain_creation (env : SwapChainEnv) (s : State) (device : PhysicalDevice)
    (Hdevice : m_physicalDevice s = Some device) (Heligible : eligible device)
    (Hformats : foramts (env_support env) <> []) :
  exists createInfo,
    ci_minImageCount createInfo = requestedImageCount (capabilities (env_support env))
    /\ ci_imageExtent createInfo
       = ChooseSwapExtent (framebufferSize s) (capabilities (env_support env))
    /\ ci_imageSharingMode createInfo
       = (if decide (graphicsFamily (FindQueueFamilies device)
                     = presentFamily (FindQueueFamilies device))
          then VK_SHARING_MODE_EXCLUSIVE else VK_SHARING_MODE_CONCURRENT)
    /\ (fst (env_createSwapchain env) <> VK_SUCCESS ->
        CreateSwapChain env s
        = Throw "failed to create swap chain"
                (set_m_swapChain (snd (env_createSwapchain env))
                   (set_trace (trace s ++ [EvCreateSwapchain createInfo]) s)))
    /\ (fst (env_createSwapchain env) = VK_SUCCESS ->
        exists s',
          CreateSwapChain env s = Ok tt s'
          /\ m_swapChain s' = snd (env_createSwapchain env)
          /\ m_swapChainImages s' = env_swapchainImages env
          /\ m_swapChainImageFormat s' = ci_imageFormat createInfo
          /\ m_swapChainExtent s' = ci_imageExtent createInfo
          /\ emitted s s' = [EvCreateSwapchain createInfo;
                             EvGetSwapchainImages (snd (env_createSwapchain env))]).
Proof.
  destruct (eligible_indices device Heligible) as (g & p & Hg & Hp).
  unfold CreateSwapChain. rewrite bind_get_run. cbv zeta. rewrite Hdevice, Hg, Hp.
  unfold optional_value. rewrite !bind_ret_run.
  eexists. split; [|split; [|split; [|split]]].
  4:{ intros Hfail. rewrite bind_emit_run, bind_modify_run. unfold throw_if.
      destruct (decide (VK_SUCCESS ≠ (env_createSwapchain env).1)) as [_|Hnot].
      2:{ exfalso. apply Hnot. intros Heq. apply Hfail. now symmetry. }
      rewrite bind_throw_run. reflexivity. }
  4:{ intros Hok. rewrite bind_emit_run, bind_modify_run. unfold throw_if.
      destruct (decide (VK_SUCCESS ≠ (env_createSwapchain env).1)); [congruence|].
      repeat run_step. eexists. split; [reflexivity|]. simpl.
      repeat (split; [reflexivity|]).
      apply emitted_app. simpl. now rewrite <- app_assoc. }
  - reflexivity.
  - reflexivity.
  - simpl. unfold bool_decide.
    destruct (decide (Some g = Some p)), (decide_rel _ _ _); try reflexivity; contradiction.
Qed.

Lemma X7_swap_chain_creation_witness :
  let env := example_swapChain 2 200%N [201; 202; 203]%N in
  m_physicalDevice example_state = Some example_device
  /\ eligible example_device
  /\ foramts (env_support env) <> []
  /\ exists s', CreateSwapChain env example_state = Ok tt s' /\ m_swapChain s' = 200%N.
Proof.
  intros env.
  assert (Hdevice : m_physicalDevice example_state = Some example_device)
    by (vm_compute; reflexivity).
  assert (Heligible : eligible example_device)
    by (apply IsDeviceSuitable_eligible; vm_compute; reflexivity).
  assert (Hformats : foramts (env_support env) <> []) by discriminate.
  split; [exact Hdevice|]. split; [exact Heligible|]. split; [exact Hformats|].
  destruct (X7_swap_chain_creation env example_state example_device Hdevice Heligible Hformats)
    as (createInfo & _ & _ & _ & _ & Hok).
  destruct (Hok eq_refl) as (s' & Hrun & Hchain & _).
  exists s'. split; [exact Hrun|exact Hchain].
Defined.

(** ** The per-image loops *)

Lemma list_inserts_all {A : Type} (k l : list A) :
  length k = length l -> list_inserts 0 k l = k.
Proof.
  intros Hlen. apply list_eq. intros j. destruct (decide (j < length k)%nat).
  - rewrite list_lookup_inserts by lia. f_equal. lia.
  - rewrite !lookup_ge_None_2; [reflexivity|lia|rewrite length_inserts; lia].
Qed.

Lemma CreateImageViews_loop_run env images i s :
  (forall j, (j < length images)%nat -> fst (env_createImageView env (i + j)) = VK_SUCCESS) ->
  CreateImageViews_loop env images i s
  = Ok tt
      (set_trace
         (trace s ++ map (fun image => EvCreateImageView image (m_swapChainImageFormat s)) images)
         (set_m_swapChainImageViews
            (list_inserts i (map (fun j => snd (env_createImageView env j)) (seq i (length images)))
                          (m_swapChainImageViews s)) s)).
Proof.
  revert i s. induction images as [|image images IH]; intros i s Hok.
  - simpl. rewrite app_nil_r. unfold ret. f_equal. now destruct s.
  - cbn [CreateImageViews_loop]. rewrite bind_get_run, bind_emit_run. unfold throw_if.
    destruct (decide (VK_SUCCESS ≠ (env_createImageView env i).1)) as [Hfail|_].
    { exfalso. apply Hfail. symmetry. rewrite <- (Nat.add_0_r i) at 1. apply Hok. simpl. lia. }
    rewrite bind_ret_run, bind_modify_run. rewrite IH.
    2:{ intros j Hj. replace (S i + j)%nat with (i + S j)%nat by lia. apply Hok. simpl. lia. }
    f_equal. destruct s. unfold set_trace, set_m_swapChainImageViews. cbn. f_equal.
    + now rewrite list_insert_inserts_lt by lia.
    + now rewrite <- app_assoc.
Qed.

Lemma CreateImageViews_loop_fail env images i k s :
  (k < length images)%nat ->
  fst (env_createImageView env (i + k)) <> VK_SUCCESS ->
  exists s', CreateImageViews_loop env images i s = Throw "failed to create image views" s'.
Proof.
  revert i k s. induction images as [|image images IH]; intros i k s Hk Hfail;
    [simpl in Hk; lia|].
  cbn [CreateImageViews_loop]. rewrite bind_get_run, bind_emit_run. unfold throw_if.
  destruct (decide (VK_SUCCESS ≠ (env_createImageView env i).1)) as [_|Hok].
  { rewrite bind_throw_run. eauto. }
  rewrite bind_ret_run, bind_modify_run.
  destruct k as [|k].
  { exfalso. apply Hok. intros Heq. apply Hfail. now rewrite Nat.add_0_r. }
  apply (IH (S i) k); [simpl in Hk; lia|].
  now replace (S i + k)%nat with (i + S k)%nat by lia.
Qed.

Lemma CreateImageViews_run env s :
  (forall i, (i < length (m_swapChainImages s))%nat -> fst (env_createImageView env i) = VK_SUCCESS) ->
  CreateImageViews env s
  = Ok tt
      (set_trace
         (trace s ++ map (fun image => EvCreateImageView image (m_swapChainImageFormat s)) (m_swapChainImages s))
         (set_m_swapChainImageViews
            (map (fun i => snd (env_createImageView env i)) (seq 0 (length (m_swapChainImages s)))) s)).
Proof.
  intros Hok. unfold CreateImageViews. rewrite bind_modify_run, bind_get_run.
  rewrite CreateImageViews_loop_run by exact Hok. f_equal. cbn.
  rewrite list_inserts_all by now rewrite length_map, length_seq, length_vector_resize.
  now destruct s.
Qed.

(** X8: [CreateImageViews] asks for one view per swap chain image, in the
    order of the images and with the format of the chain.  When the driver
    creates them all, the function returns and [m_swapChainImageViews] holds
    exactly the handles returned, in that order, whatever it held before;
    when any creation fails it throws "failed to create image views". *)
Theorem X8_image_views (env : SwapChainEnv) (s : State) :
  let n := length (m_swapChainImages s) in
  ((forall i, (i < n)%nat -> fst (env_createImageView env i) = VK_SUCCESS) ->
   exists s',
     CreateImageViews env s = Ok tt s'
     /\ m_swapChainImageViews s'
        = map (fun i => snd (env_createImageView env i)) (seq 0 n)
     /\ emitted s s'
        = map (fun image => EvCreateImageView image (m_swapChainImageFormat s))
              (m_swapChainImages s))
  /\ (forall k, (k < n)%nat -> fst (env_createImageView env k) <> VK_SUCCESS ->
      exists s', CreateImageViews env s = Throw "failed to create image views" s').
Proof.
  intros n. split.
  - intros Hok. rewrite CreateImageViews_run by exact Hok.
    eexists. split; [reflexivity|]. split; [reflexivity|]. now apply emitted_app.
  - intros k Hk Hfail. unfold CreateImageViews. rewrite bind_modify_run, bind_get_run.
    apply (CreateImageViews_loop_fail env _ 0%nat k); assumption.
Qed.

Lemma CreateFramebuffers_loop_run env imageViews i s :
  (forall j, (j < length imageViews)%nat ->
             fst (env_createFramebuffer env (i + j)) = VK_SUCCESS) ->
  CreateFramebuffers_loop env imageViews i s
  = Ok tt
      (set_trace
         (trace s ++ map (fun imageView =>
                            EvCreateFramebuffer (m_renderPass s) imageView (m_swapChainExtent s))
                         imageViews)
         (set_m_swapChainFramebuffers
            (list_inserts i (map (fun j => snd (env_createFramebuffer env j))
                                 (seq i (length imageViews)))
                          (m_swapChainFramebuffers s)) s)).
Proof.
  revert i s. induction imageViews as [|imageView imageViews IH]; intros i s Hok.
  - simpl. rewrite app_nil_r. unfold ret. f_equal. now destruct s.
  - cbn [CreateFramebuffers_loop]. rewrite bind_get_run, bind_emit_run. unfold throw_if.
    destruct (decide (VK_SUCCESS ≠ (env_createFramebuffer env i).1)) as [Hfail|_].
    { exfalso. apply Hfail. symmetry. rewrite <- (Nat.add_0_r i) at 1. apply Hok. simpl. lia. }
    rewrite bind_ret_run, bind_modify_run. rewrite IH.
    2:{ intros j Hj. replace (S i + j)%nat with (i + S j)%nat by lia. apply Hok. simpl. lia. }
    f_equal. destruct s. unfold set_trace, set_m_swapChainFramebuffers. cbn. f_equal.
    + now rewrite list_insert_inserts_lt by lia.
    + now rewrite <- app_assoc.
Qed.

Lemma CreateFramebuffers_loop_fail env imageViews i k s :
  (k < length imageViews)%nat ->
  fst (env_createFramebuffer env (i + k)) <> VK_SUCCESS ->
  exists s', CreateFramebuffers_loop env imageViews i s = Throw "failed to create framebuffer" s'.
Proof.
  revert i k s. induction imageViews as [|imageView imageViews IH]; intros i k s Hk Hfail;
    [simpl in Hk; lia|].
  cbn [CreateFramebuffers_loop]. rewrite bind_get_run, bind_emit_run. unfold throw_if.
  destruct (decide (VK_SUCCESS ≠ (env_createFramebuffer env i).1)) as [_|Hok].
  { rewrite bind_throw_run. eauto. }
  rewrite bind_ret_run, bind_modify_run.
  destruct k as [|k].
  { exfalso. apply Hok. intros Heq. apply Hfail. now rewrite Nat.add_0_r. }
  apply (IH (S i) k); [simpl in Hk; lia|].
  now replace (S i + k)%nat with (i + S k)%nat by lia.
Qed.

Lemma CreateFramebuffers_run env s :
  (forall i, (i < length (m_swapChainImageViews s))%nat -> fst (env_createFramebuffer env i) = VK_SUCCESS) ->
  CreateFramebuffers env s
  = Ok tt
      (set_trace
         (trace s ++ map (fun imageView => EvCreateFramebuffer (m_renderPass s) imageView (m_swapChainExtent s)) (m_swapChainImageViews s))
         (set_m_swapChainFramebuffers
            (map (fun i => snd (env_createFramebuffer env i)) (seq 0 (length (m_swapChainImageViews s)))) s)).
Proof.
  intros Hok. unfold CreateFramebuffers. rewrite bind_modify_run, bind_get_run.
  rewrite CreateFramebuffers_loop_run by exact Hok. f_equal. cbn.
  rewrite list_inserts_all by now rewrite length_map, length_seq, length_vector_resize.
  now destruct s.
Qed.

(** X9: [CreateFramebuffers] asks for one framebuffer per image view, in the
    order of the views, each on the render pass and with the extent of the
    chain.  When the driver creates them all, the function returns and
    [m_swapChainFramebuffers] holds exactly the handles returned, in that
    order; when any creation fails it throws "failed to create
    framebuffer". *)
Theorem X9_framebuffers (env : SwapChainEnv) (s : State) :
  let n := length (m_swapChainImageViews s) in
  ((forall i, (i < n)%nat -> fst (env_createFramebuffer env i) = VK_SUCCESS) ->
   exists s',
     CreateFramebuffers env s = Ok tt s'
     /\ m_swapChainFramebuffers s'
        = map (fun i => snd (env_createFramebuffer env i)) (seq 0 n)
     /\ emitted s s'
        = map (fun imageView =>
                 EvCreateFramebuffer (m_renderPass s) imageView (m_swapChainExtent s))
              (m_swapChainImageViews s))
  /\ (forall k, (k < n)%nat -> fst (env_createFramebuffer env k) <> VK_SUCCESS ->
      exists s', CreateFramebuffers env s = Throw "failed to create framebuffer" s').
Proof.
  intros n. split.
  - intros Hok. rewrite CreateFramebuffers_run by exact Hok.
    eexists. split; [reflexivity|]. split; [reflexivity|]. now apply emitted_app.
  - intros k Hk Hfail. unfold CreateFramebuffers. rewrite bind_modify_run, bind_get_run.
    apply (CreateFramebuffers_loop_fail env _ 0%nat k); assumption.
Qed.

(** ** What a successful recreation leaves behind *)

Lemma CreateSwapChain_stores env s s' :
  CreateSwapChain env s = Ok tt s' ->
  m_swapChain s' = snd (env_createSwapchain env)
  /\ m_swapChainExtent s'
     = ChooseSwapExtent (framebufferSize s) (capabilities (env_support env))
  /\ m_swapChainImageFormat s' = format (ChooseSwapSurfaceFormat (foramts (env_support env)))
  /\ gpu_pending s' = gpu_pending s
  /\ framebufferSize s' = framebufferSize s
  /\ m_renderPass s' = m_renderPass s.
Proof.
  unfold CreateSwapChain. run_step. intros H.
  apply bind_Ok_inv in H as (g & s1 & Hg & H).
  apply bind_Ok_inv in H as (p & s2 & Hp & H).
  unfold optional_value in Hg, Hp.
  destruct (graphicsFamily _); [|discriminate]. destruct (presentFamily _); [|discriminate].
  injection Hg as <- <-. injection Hp as <- <-.
  rewrite bind_emit_run, bind_modify_run in H. unfold throw_if in H.
  destruct (decide (VK_SUCCESS ≠ (env_createSwapchain env).1)); [discriminate|].
  repeat (rewrite ?bind_ret_run, ?bind_modify_run, ?bind_emit_run in H).
  injection H as <-. simpl. auto 10.
Qed.

Lemma all_succeed_or_fail (result : nat -> VkResult) (n : nat) :
  (forall i, (i < n)%nat -> result i = VK_SUCCESS)
  \/ (exists k, (k < n)%nat /\ result k <> VK_SUCCESS).
Proof.
  induction n as [|n [IH|(k & Hk & Hfail)]].
  - left. intros i Hi. lia.
  - destruct (decide (result n = VK_SUCCESS)) as [Hn|Hn].
    + left. intros i Hi. destruct (decide (i = n)) as [->|]; [assumption|apply IH; lia].
    + right. exists n. split; [lia|assumption].
  - right. exists k. split; [lia|assumption].
Qed.

Lemma CreateImageViews_Ok_inv env s s' :
  CreateImageViews env s = Ok tt s' ->
  s' = set_trace (trace s')
         (set_m_swapChainImageViews
            (map (fun i => snd (env_createImageView env i))
                 (seq 0 (length (m_swapChainImages s)))) s).
Proof.
  intros H.
  destruct (all_succeed_or_fail (fun i => fst (env_createImageView env i))
                                (length (m_swapChainImages s))) as [Hok|(k & Hk & Hfail)].
  - rewrite (CreateImageViews_run env s Hok) in H. injection H as <-. reflexivity.
  - unfold CreateImageViews in H. rewrite bind_modify_run, bind_get_run in H.
    destruct (CreateImageViews_loop_fail env (m_swapChainImages s) 0%nat k
                (set_m_swapChainImageViews
                   (vector_resize (length (m_swapChainImages s)) VK_NULL_HANDLE
                                  (m_swapChainImageViews s)) s) Hk Hfail) as (s1 & Hthrow).
    cbn in H. rewrite Hthrow in H. discriminate.
Qed.

Lemma CreateFramebuffers_Ok_inv env s s' :
  CreateFramebuffers env s = Ok tt s' ->
  s' = set_trace (trace s')
         (set_m_swapChainFramebuffers
            (map (fun i => snd (env_createFramebuffer env i))
                 (seq 0 (length (m_swapChainImageViews s)))) s).
Proof.
  intros H.
  destruct (all_succeed_or_fail (fun i => fst (env_createFramebuffer env i))
                                (length (m_swapChainImageViews s))) as [Hok|(k & Hk & Hfail)].
  - rewrite (CreateFramebuffers_run env s Hok) in H. injection H as <-. reflexivity.
  - unfold CreateFramebuffers in H. rewrite bind_modify_run, bind_get_run in H.
    destruct (CreateFramebuffers_loop_fail env (m_swapChainImageViews s) 0%nat k
                (set_m_swapChainFramebuffers
                   (vector_resize (length (m_swapChainImageViews s)) VK_NULL_HANDLE
                                  (m_swapChainFramebuffers s)) s) Hk Hfail) as (s1 & Hthrow).
    cbn in H. rewrite Hthrow in H. discriminate.
Qed.

Lemma RecreateSwapChain_result (env : SwapChainEnv) (s s' : State)
    (Hreturns : RecreateSwapChain env s = Ok tt s') :
  let n := length (env_swapchainImages env) in
  m_swapChain s' = snd (env_createSwapchain env)
  /\ m_swapChainImages s' = env_swapchainImages env
  /\ m_swapChainImageViews s' = map (fun i => snd (env_createImageView env i)) (seq 0 n)
  /\ m_swapChainFramebuffers s' = map (fun i => snd (env_createFramebuffer env i)) (seq 0 n)
  /\ m_swapChainExtent s'
     = ChooseSwapExtent (framebufferSize s') (capabilities (env_support env))
  /\ gpu_pending s' = [].
Proof.
  intros n. unfold RecreateSwapChain in Hreturns.
  do 3 (apply bind_Ok_inv in Hreturns as (? & ? & _ & Hreturns)).
  apply bind_Ok_inv in Hreturns as ([] & si & Hidle & Hreturns).
  apply bind_Ok_inv in Hreturns as ([] & sc & Hclean & Hreturns).
  apply bind_Ok_inv in Hreturns as ([] & sa & Hchain & Hreturns).
  apply bind_Ok_inv in Hreturns as ([] & sb & Hviews & Hfbs).
  match type of Hidle with vkDeviceWaitIdle ?st = _ =>
    pose proof (vkDeviceWaitIdle_idle st) as Hpending; rewrite Hidle in Hpending end.
  rewrite CleanupSwapChain_run in Hclean. injection Hclean as <-.
  destruct (CreateSwapChain_images env _ _ Hchain) as (Himages & _).
  destruct (CreateSwapChain_stores env _ _ Hchain) as (Hhandle & Hextent & _ & Hp & Hsize & _).
  apply CreateImageViews_Ok_inv in Hviews. apply CreateFramebuffers_Ok_inv in Hfbs.
  rewrite Hfbs, Hviews. cbn. rewrite length_map, length_seq, Himages.
  repeat (split; [first [assumption|reflexivity]|]).
  split; [now rewrite Hextent, Hsize|]. now rewrite Hp.
Qed.

(** X10: when [RecreateSwapChain] returns, the members describe the new
    chain and nothing of the old one: [m_swapChain] is the new handle, the
    images are the ones the driver reports for it, there is one new image
    view and one new framebuffer per image, in the order of the images, the
    extent is the one chosen for the window size at the time of creation,
    and the GPU has no work left. *)
Theorem X10_recreation_result (env : SwapChainEnv) (s s' : State)
    (Hreturns : RecreateSwapChain env s = Ok tt s') :
  let n := length (env_swapchainImages env) in
  m_swapChain s' = snd (env_createSwapchain env)
  /\ m_swapChainImages s' = env_swapchainImages env
  /\ m_swapChainImageViews s' = map (fun i => snd (env_createImageView env i)) (seq 0 n)
  /\ m_swapChainFramebuffers s' = map (fun i => snd (env_createFramebuffer env i)) (seq 0 n)
  /\ m_swapChainExtent s'
     = ChooseSwapExtent (framebufferSize s') (capabilities (env_support env))
  /\ gpu_pending s' = [].
Proof. exact (RecreateSwapChain_result env s s' Hreturns). Qed.

Lemma X10_recreation_result_witness :
  let env := example_swapChain 3 200%N [201; 202; 203; 204]%N in
  exists s',
    RecreateSwapChain env example_state = Ok tt s'
    /\ m_swapChain s' = 200%N
    /\ m_swapChainImageViews s' = [210; 211; 212; 213]%N
    /\ m_swapChainFramebuffers s' = [220; 221; 222; 223]%N.
Proof.
  intros env.
  assert (Hreturns : RecreateSwapChain env example_state
                     = Ok tt (res_state (RecreateSwapChain env example_state)))
    by (vm_compute; reflexivity).
  exists (res_state (RecreateSwapChain env example_state)).
  split; [exact Hreturns|].
  destruct (X10_recreation_result env example_state _ Hreturns)
    as (Hchain & _ & Hviews & Hfbs & _).
  split; [exact Hchain|]. split; [exact Hviews|exact Hfbs].
Defined.

(** ** Where a call can wait for ever *)

Lemma comes_back_ret {A : Type} (a : A) : comes_back (ret a).
Proof. intros s s'. discriminate. Qed.

Lemma comes_back_throw {A : Type} (what : string) : comes_back (throw (A:=A) what).
Proof. intros s s'. discriminate. Qed.

Lemma comes_back_get : comes_back get.
Proof. intros s s'. discriminate. Qed.

Lemma comes_back_modify (f : State -> State) : comes_back (modify f).
Proof. intros s s'. discriminate. Qed.

Lemma comes_back_emit (e : Event) : comes_back (emit e).
Proof. intros s s'. discriminate. Qed.

Lemma comes_back_bind {A B : Type} (m : M A) (k : A -> M B) :
  comes_back m -> (forall a, comes_back (k a)) -> comes_back (bind m k).
Proof.
  intros Hm Hk s s'. unfold bind. specialize (Hm s).
  destruct (m s) as [a s1|what s1|s1]; [apply Hk|discriminate|].
  exfalso. eapply Hm. reflexivity.
Qed.

Lemma comes_back_throw_if (P : Prop) `{Decision P} (what : string) :
  comes_back (throw_if P what).
Proof. unfold throw_if. destruct (decide P); [apply comes_back_throw|apply comes_back_ret]. Qed.

Lemma comes_back_vector_at {A : Type} (v : list A) (i : nat) : comes_back (vector_at v i).
Proof. unfold vector_at. destruct (v !! i); [apply comes_back_ret|apply comes_back_throw]. Qed.

Lemma comes_back_optional_value {A : Type} (o : option A) : comes_back (optional_value o).
Proof. unfold optional_value. destruct o; [apply comes_back_ret|apply comes_back_throw]. Qed.

(** Walks through a member function that has no wait in it; [known] closes
    the calls whose lemma is at hand. *)
Ltac comes_back_walk known :=
  repeat first
    [ solve [known]
    | apply comes_back_ret
    | apply comes_back_get
    | apply comes_back_throw
    | apply comes_back_throw_if
    | apply comes_back_vector_at
    | apply comes_back_optional_value
    | apply comes_back_emit
    | apply comes_back_modify
    | match goal with
      | |- comes_back (if ?c then _ else _) => destruct c
      | |- comes_back (match ?c with _ => _ end) => destruct c
      end
    | apply comes_back_bind; [|intros ?] ].

Ltac comes_back_auto := comes_back_walk ltac:(solve [eauto]).

Lemma vkDeviceWaitIdle_comes_back : comes_back vkDeviceWaitIdle.
Proof. unfold vkDeviceWaitIdle. comes_back_auto. Qed.

Lemma CleanupSwapChain_comes_back : comes_back CleanupSwapChain.
Proof. intros s s'. rewrite CleanupSwapChain_run. discriminate. Qed.

Lemma CreateSwapChain_comes_back env : comes_back (CreateSwapChain env).
Proof. unfold CreateSwapChain. comes_back_auto. Qed.

Lemma CreateImageViews_comes_back env : comes_back (CreateImageViews env).
Proof.
  assert (Hloop : forall images i, comes_back (CreateImageViews_loop env images i)).
  { induction images as [|image images IH]; intros i; simpl; comes_back_auto. }
  unfold CreateImageViews. comes_back_auto.
Qed.

Lemma CreateFramebuffers_comes_back env : comes_back (CreateFramebuffers env).
Proof.
  assert (Hloop : forall views i, comes_back (CreateFramebuffers_loop env views i)).
  { induction views as [|view views IH]; intros i; simpl; comes_back_auto. }
  unfold CreateFramebuffers. comes_back_auto.
Qed.

Lemma RecordCommandBuffer_comes_back env commandBuffer framebuffer :
  comes_back (RecordCommandBuffer env commandBuffer framebuffer).
Proof. unfold RecordCommandBuffer. comes_back_auto. Qed.

Lemma DrawFrame_record_comes_back env imageIndex : comes_back (DrawFrame_record env imageIndex).
Proof.
  pose proof (RecordCommandBuffer_comes_back env).
  unfold DrawFrame_record, vkResetFences. comes_back_auto.
Qed.

Lemma DrawFrame_submit_comes_back env imageIndex : comes_back (DrawFrame_submit env imageIndex).
Proof. unfold DrawFrame_submit, vkQueueSubmit. comes_back_auto. Qed.

Lemma DrawFrame_advance_comes_back : comes_back DrawFrame_advance.
Proof. unfold DrawFrame_advance. comes_back_auto. Qed.

(** With a window that has a size, the loop at the head of
    [RecreateSwapChain] is not entered. *)
Lemma RecreateSwapChain_wait_skipped events size s :
  size_is_zero size = false -> RecreateSwapChain_wait events size s = Ok tt s.
Proof. intros Hsize. destruct events; simpl; now rewrite Hsize. Qed.

(** A minimised window that sends fewer than two events keeps the loop
    waiting: the size is read before each wait, so the event that restores
    the window is noticed only after a further one. *)
Lemma RecreateSwapChain_wait_stuck events s :
  size_is_zero (framebufferSize s) = true ->
  (length events < 2)%nat ->
  exists s', RecreateSwapChain_wait events (framebufferSize s) s = Block s'
             /\ chain_keeps s s' /\ sync_keeps s s'.
Proof.
  intros Hsize Hlen. destruct events as [|arrival [|? ?]]; [| |simpl in Hlen; lia].
  - simpl. rewrite Hsize. eexists. split; [reflexivity|]. split; [keeps_side|split; reflexivity].
  - cbn [RecreateSwapChain_wait]. rewrite Hsize, bind_get_run.
    unfold glfwWaitEvents. rewrite bind_assoc, bind_emit_run. cbn [framebufferSize set_trace].
    rewrite Hsize.
    destruct arrival as [size|]; cbn; (eexists; split; [reflexivity|]);
      (split; [keeps_side|split; reflexivity]).
Qed.

Lemma recreate_tail_comes_back env :
  comes_back (vkDeviceWaitIdle;; CleanupSwapChain;; CreateSwapChain env;;
              CreateImageViews env;; CreateFramebuffers env).
Proof.
  pose proof vkDeviceWaitIdle_comes_back. pose proof CleanupSwapChain_comes_back.
  pose proof (CreateSwapChain_comes_back env). pose proof (CreateImageViews_comes_back env).
  pose proof (CreateFramebuffers_comes_back env). comes_back_auto.
Qed.

Lemma RecreateSwapChain_sized env s :
  size_is_zero (framebufferSize s) = false ->
  RecreateSwapChain env s
  = (vkDeviceWaitIdle;; CleanupSwapChain;; CreateSwapChain env;;
     CreateImageViews env;; CreateFramebuffers env)
      (set_trace (trace s ++ [EvCall "RecreateSwapChain"]) s).
Proof.
  intros Hsize. unfold RecreateSwapChain. rewrite bind_emit_run, bind_get_run.
  cbn [framebufferSize set_trace].
  now rewrite (bind_run_Ok _ _ _ _ _ (RecreateSwapChain_wait_skipped _ _ _ Hsize)).
Qed.

Lemma RecreateSwapChain_blocks_minimised env s s' :
  RecreateSwapChain env s = Block s' -> size_is_zero (framebufferSize s) = true.
Proof.
  intros H. destruct (size_is_zero (framebufferSize s)) eqn:Hsize; [reflexivity|].
  rewrite (RecreateSwapChain_sized env s Hsize) in H.
  now apply recreate_tail_comes_back in H.
Qed.

(** C8: a swap chain recreation whose window has a size, and more generally
    every recreation that gets past the wait for a non-zero window size,
    destroys all old framebuffers, then all old image views, then the old
    chain, before any replacement object is created.  It stays in that wait
    only when the window has size zero at entry, and then nothing is
    destroyed or created.  The render pass, pipeline layout, graphics
    pipeline and command pool handles are never touched. *)
Theorem C8_recreation_order (env : SwapChainEnv) (s : State) :
  let r := RecreateSwapChain env s in
  let s' := res_state r in
  let destroys_then_creates :=
    exists pre post,
      emitted s s' =
        pre ++ map EvDestroyFramebuffer (m_swapChainFramebuffers s)
            ++ map EvDestroyImageView (m_swapChainImageViews s)
            ++ [EvDestroySwapchain (m_swapChain s)]
            ++ post
      /\ Forall (fun e => is_release e = false /\ is_allocation e = false) pre
      /\ Forall (fun e => is_release e = false) post in
  (m_renderPass s' = m_renderPass s
   /\ m_pipelineLayout s' = m_pipelineLayout s
   /\ m_graphicsPipeline s' = m_graphicsPipeline s
   /\ m_commandPool s' = m_commandPool s)
  /\ (size_is_zero (framebufferSize s) = false ->
      (forall s1, r <> Block s1) /\ destroys_then_creates)
  /\ ((forall s1, r <> Block s1) -> destroys_then_creates)
  /\ (forall s1, r = Block s1 ->
        size_is_zero (framebufferSize s) = true
        /\ Forall (fun e => is_release e = false /\ is_allocation e = false) (emitted s s')).
Proof.
  intros r s' destroys_then_creates. split.
  { destruct (RecreateSwapChain_keeps env s). auto. }
  assert (Hpast : (forall s1, r <> Block s1) -> destroys_then_creates).
  { intros Hback. destruct (RecreateSwapChain_events env s) as [(s1 & Hblock & _)|[_ Hevents]].
    - exfalso. exact (Hback s1 Hblock).
    - exact Hevents. }
  assert (Hsized : size_is_zero (framebufferSize s) = false -> forall s1, r <> Block s1).
  { intros Hsize s1 Hblock. apply RecreateSwapChain_blocks_minimised in Hblock. congruence. }
  split; [|split].
  - intros Hsize. split; [now apply Hsized|]. now apply Hpast, Hsized.
  - exact Hpast.
  - intros s1 Hblock. split; [exact (RecreateSwapChain_blocks_minimised env s s1 Hblock)|].
    destruct (RecreateSwapChain_events env s) as [(s2 & _ & Hquiet)|[(s2 & Hwait) _]].
    + exact Hquiet.
    + exfalso. subst r. rewrite RecreateSwapChain_unfold, Hwait in Hblock.
      revert Hblock. unfold bind at 1. rewrite CleanupSwapChain_run.
      pose proof (CreateSwapChain_comes_back env). pose proof (CreateImageViews_comes_back env).
      pose proof (CreateFramebuffers_comes_back env).
      assert (Htail : comes_back (CreateSwapChain env;; CreateImageViews env;;
                                  CreateFramebuffers env)) by comes_back_auto.
      apply Htail.
Qed.

Lemma window_class_not_in_rebuild e :
  event_class e ∈ [ClsGpu; ClsRelease; ClsAlloc; ClsQuery] -> e <> EvWaitEvents.
Proof. intros H ->. simpl in H. set_solver. Qed.

(** X11: [RecreateSwapChain] sleeps in [glfwWaitEvents] only for a window
    of size zero.  With a window that has a size it never calls
    [glfwWaitEvents] and always comes back; with a minimised window that receives
    fewer than two events it never comes back, and in that state the old
    chain, the fences and the GPU queue are as they were. *)
Theorem X11_minimised_window (env : SwapChainEnv) (s : State) :
  (size_is_zero (framebufferSize s) = false ->
   (EvWaitEvents ∉ emitted s (res_state (RecreateSwapChain env s)))
   /\ forall s', RecreateSwapChain env s <> Block s')
  /\ (size_is_zero (framebufferSize s) = true ->
      (length (env_waitEvents env) < 2)%nat ->
      exists s', RecreateSwapChain env s = Block s'
                 /\ m_swapChain s' = m_swapChain s
                 /\ m_swapChainFramebuffers s' = m_swapChainFramebuffers s
                 /\ m_inFlightFences s' = m_inFlightFences s
                 /\ gpu_pending s' = gpu_pending s).
Proof.
  split.
  - intros Hsize. split.
    2:{ intros s' H. apply RecreateSwapChain_blocks_minimised in H. congruence. }
    rewrite (RecreateSwapChain_sized env s Hsize).
    assert (Hemits : emits [ClsGpu; ClsRelease; ClsAlloc; ClsQuery]
                       (vkDeviceWaitIdle;; CleanupSwapChain;; CreateSwapChain env;;
                        CreateImageViews env;; CreateFramebuffers env)) by emits_auto.
    destruct (Hemits (set_trace (trace s ++ [EvCall "RecreateSwapChain"]) s))
      as (evs & Ht & Hevs).
    rewrite (emitted_app s _ (EvCall "RecreateSwapChain" :: evs))
      by (rewrite Ht; simpl; now rewrite <- app_assoc).
    intros [Hin|Hin]%elem_of_cons; [discriminate|].
    rewrite Forall_forall in Hevs. apply Hevs in Hin.
    now apply window_class_not_in_rebuild in Hin.
  - intros Hsize Hlen. unfold RecreateSwapChain. rewrite bind_emit_run, bind_get_run.
    cbn [framebufferSize set_trace].
    set (s0 := set_trace (trace s ++ [EvCall "RecreateSwapChain"]) s).
    destruct (RecreateSwapChain_wait_stuck (env_waitEvents env) s0 Hsize Hlen)
      as (s' & Hblock & Hchain & Hfences & Hpending).
    exists s'. split; [exact (bind_run_Block _ _ _ _ Hblock)|].
    destruct Hchain as [E1 _ _ E4]. auto.
Qed.

(** ** The frame index *)

Lemma DrawFrame_acquire_result env s acquired s' :
  DrawFrame_acquire env s = Ok acquired s' ->
  match acquired with
  | None => fst (env_acquire env) = VK_ERROR_OUT_OF_DATE_KHR
  | Some imageIndex =>
      imageIndex = snd (env_acquire env)
      /\ fst (env_acquire env) <> VK_ERROR_OUT_OF_DATE_KHR
      /\ s' = set_trace (trace s') s
  end.
Proof.
  unfold DrawFrame_acquire. rewrite bind_get_run, bind_vector_at_run.
  destruct (m_imageAvailableSemaphores s !! m_currentFrame s) as [semaphore|]; [|discriminate].
  rewrite bind_emit_run.
  destruct (decide (VK_ERROR_OUT_OF_DATE_KHR = fst (env_acquire env))) as [Hstale|Hfresh].
  - intros H. apply bind_Ok_inv in H as (? & ? & _ & H). injection H as <- _. now symmetry.
  - destruct (decide _); [discriminate|]. intros [= <- <-].
    split; [reflexivity|]. split; [congruence|]. now destruct s.
Qed.

Lemma run_Ok_state {A : Type} (m : M A) s a s' : m s = Ok a s' -> res_state (m s) = s'.
Proof. now intros ->. Qed.

(** X12: a call of [DrawFrame] that returns has moved the frame index to
    the other slot, [(m_currentFrame + 1) % MAX_FRAMES_IN_FLIGHT], unless
    acquisition answered [VK_ERROR_OUT_OF_DATE_KHR], in which case the index
    is the one it was. *)
Theorem X12_frame_index (env : FrameEnv) (s s' : State)
    (Hreturns : DrawFrame env s = Ok tt s') :
  m_currentFrame s'
  = if decide (fst (env_acquire env) = VK_ERROR_OUT_OF_DATE_KHR)
    then m_currentFrame s
    else ((m_currentFrame s + 1) mod MAX_FRAMES_IN_FLIGHT)%nat.
Proof.
  unfold DrawFrame in Hreturns.
  apply bind_Ok_inv in Hreturns as ([] & s1 & Hwait & Hreturns).
  apply bind_Ok_inv in Hreturns as (acquired & s2 & Hacquire & Hreturns).
  destruct (DrawFrame_wait_ok s s1 Hwait) as [Hcur1 _].
  pose proof (DrawFrame_acquire_keeps env s1) as Hk2.
  rewrite (run_Ok_state _ _ _ _ Hacquire) in Hk2. apply rk_currentFrame in Hk2.
  apply DrawFrame_acquire_result in Hacquire.
  destruct acquired as [imageIndex|].
  - destruct Hacquire as (_ & Hfresh & _).
    destruct (decide _) as [Hstale|_]; [contradiction|].
    apply bind_Ok_inv in Hreturns as ([] & s3 & Hrecord & Hreturns).
    apply bind_Ok_inv in Hreturns as ([] & s4 & Hsubmit & Hreturns).
    apply bind_Ok_inv in Hreturns as ([] & s5 & Hpresent & Hreturns).
    pose proof (DrawFrame_record_frame_keeps env imageIndex s2) as Hk3.
    rewrite (run_Ok_state _ _ _ _ Hrecord) in Hk3. apply fk_currentFrame in Hk3.
    pose proof (DrawFrame_submit_frame_keeps env imageIndex s3) as Hk4.
    rewrite (run_Ok_state _ _ _ _ Hsubmit) in Hk4. apply fk_currentFrame in Hk4.
    pose proof (DrawFrame_present_keeps env imageIndex s4) as Hk5.
    rewrite (run_Ok_state _ _ _ _ Hpresent) in Hk5. apply rk_currentFrame in Hk5.
    injection Hreturns as <-.
    change (((m_currentFrame s5 + 1) mod MAX_FRAMES_IN_FLIGHT)%nat
            = ((m_currentFrame s + 1) mod MAX_FRAMES_IN_FLIGHT)%nat).
    congruence.
  - destruct (decide _) as [_|Hfresh]; [|contradiction].
    injection Hreturns as <-. congruence.
Qed.

Lemma X12_frame_index_witness :
  DrawFrame example_frame1 example_polled1 = Ok tt example_after1
  /\ m_currentFrame example_polled1 = 0%nat
  /\ m_currentFrame example_after1 = 1%nat.
Proof.
  assert (Hreturns : DrawFrame example_frame1 example_polled1 = Ok tt example_after1)
    by (vm_compute; reflexivity).
  split; [exact Hreturns|]. split; [vm_compute; reflexivity|].
  exact (X12_frame_index example_frame1 example_polled1 example_after1 Hreturns).
Defined.

(** ** The exceptions of a frame *)

Lemma throws_ret {A : Type} L (a : A) : throws L (ret a).
Proof. intros s what s'. discriminate. Qed.

Lemma throws_block {A : Type} L : throws L (block (A:=A)).
Proof. intros s what s'. discriminate. Qed.

Lemma throws_get L : throws L get.
Proof. intros s what s'. discriminate. Qed.

Lemma throws_modify L (f : State -> State) : throws L (modify f).
Proof. intros s what s'. discriminate. Qed.

Lemma throws_emit L (e : Event) : throws L (emit e).
Proof. intros s what s'. discriminate. Qed.

Lemma throws_throw {A : Type} (L : list string) (what : string) :
  In what L -> throws L (throw (A:=A) what).
Proof. intros Hin s what' s' [= <- _]. exact Hin. Qed.

Lemma throws_bind {A B : Type} L (m : M A) (k : A -> M B) :
  throws L m -> (forall a, throws L (k a)) -> throws L (bind m k).
Proof.
  intros Hm Hk s what s'. unfold bind. specialize (Hm s).
  destruct (m s) as [a s1|what1 s1|s1]; [apply Hk| |discriminate].
  intros [= <- _]. eapply Hm. reflexivity.
Qed.

Lemma throws_weaken {A : Type} (L L' : list string) (m : M A) :
  (forall what, In what L -> In what L') -> throws L m -> throws L' m.
Proof. intros Hsub Hm s what s' H. eapply Hsub, Hm, H. Qed.

Ltac in_list := simpl; repeat first [left; reflexivity | right].

Ltac throws_walk known :=
  repeat first
    [ solve [known]
    | apply throws_ret
    | apply throws_get
    | apply throws_block
    | apply throws_emit
    | apply throws_modify
    | apply throws_throw; solve [in_list]
    | match goal with
      | |- throws _ (if ?c then _ else _) => destruct c
      | |- throws _ (match ?c with _ => _ end) => destruct c
      end
    | apply throws_bind; [|intros ?] ].

Ltac throws_auto :=
  unfold throw_if, vector_at, optional_value; throws_walk ltac:(solve [eauto]).

Lemma RecreateSwapChain_wait_throws events size :
  throws [] (RecreateSwapChain_wait events size).
Proof. intros s what s' H. now apply RecreateSwapChain_wait_no_throw in H. Qed.

Lemma CreateImageViews_throws env : throws ["failed to create image views"] (CreateImageViews env).
Proof.
  assert (Hloop : forall images i,
             throws ["failed to create image views"] (CreateImageViews_loop env images i)).
  { induction images as [|image images IH]; intros i; simpl; throws_auto. }
  unfold CreateImageViews. throws_auto.
Qed.

Lemma CreateFramebuffers_throws env :
  throws ["failed to create framebuffer"] (CreateFramebuffers env).
Proof.
  assert (Hloop : forall views i,
             throws ["failed to create framebuffer"] (CreateFramebuffers_loop env views i)).
  { induction views as [|view views IH]; intros i; simpl; throws_auto. }
  unfold CreateFramebuffers. throws_auto.
Qed.

Lemma RecreateSwapChain_throws env : throws recreate_errors (RecreateSwapChain env).
Proof.
  assert (H1 : forall size,
             throws recreate_errors (RecreateSwapChain_wait (env_waitEvents env) size))
    by (intros size; eapply throws_weaken; [|apply RecreateSwapChain_wait_throws]; intros ? []).
  assert (H2 : throws recreate_errors CleanupSwapChain)
    by (intros s what s'; rewrite CleanupSwapChain_run; discriminate).
  assert (H3 : throws recreate_errors (CreateImageViews env))
    by (eapply throws_weaken; [|apply CreateImageViews_throws];
        intros ? [<-|[]]; unfold recreate_errors; in_list).
  assert (H4 : throws recreate_errors (CreateFramebuffers env))
    by (eapply throws_weaken; [|apply CreateFramebuffers_throws];
        intros ? [<-|[]]; unfold recreate_errors; in_list).
  unfold RecreateSwapChain, CreateSwapChain, vkDeviceWaitIdle, recreate_errors in *.
  throws_auto.
Qed.

Lemma recreate_errors_frame what : In what recreate_errors -> In what frame_errors.
Proof. intros H. unfold frame_errors. apply in_or_app. now right. Qed.

Lemma DrawFrame_throws env : throws frame_errors (DrawFrame env).
Proof.
  assert (Hrecreate : forall renv, throws frame_errors (RecreateSwapChain renv))
    by (intros renv; eapply throws_weaken;
        [apply recreate_errors_frame|apply RecreateSwapChain_throws]).
  unfold DrawFrame, DrawFrame_wait, vkWaitForFences, DrawFrame_acquire, DrawFrame_record,
    vkResetFences, RecordCommandBuffer, DrawFrame_submit, vkQueueSubmit, DrawFrame_present,
    DrawFrame_advance.
  unfold frame_errors, recreate_errors in *. throws_auto.
Qed.

(** X13: the only exceptions that leave [DrawFrame] are the bounds error of
    a [std::vector::at], the five [std::runtime_error]s of acquisition,
    recording, submission and presentation, and the exceptions of a swap
    chain recreation: a missing queue family index and the three failed
    creations. *)
Theorem X13_frame_exceptions (env : FrameEnv) (s s' : State) (what : string)
    (Hthrown : DrawFrame env s = Throw what s') :
  what ∈ ["std::out_of_range"; "failed to acquire swap chain image";
          "failed to begin recording command buffer"; "failed to record command buffer";
          "failed to submit draw command buffer"; "failed to presend swap chain image";
          "std::bad_optional_access"; "failed to create swap chain";
          "failed to create image views"; "failed to create framebuffer"].
Proof. apply list_elem_of_In. exact (DrawFrame_throws env s what s' Hthrown). Qed.

Lemma X13_frame_exceptions_witness :
  let env := example_frame (VK_ERROR_DEVICE_LOST, 0%nat) VK_SUCCESS
                           (example_swapChain 2 200%N [201; 202; 203]%N) in
  let s' := res_state (DrawFrame env example_state) in
  DrawFrame env example_state = Throw "failed to acquire swap chain image" s'
  /\ "failed to acquire swap chain image" ∈
       ["std::out_of_range"; "failed to acquire swap chain image";
        "failed to begin recording command buffer"; "failed to record command buffer";
        "failed to submit draw command buffer"; "failed to presend swap chain image";
        "std::bad_optional_access"; "failed to create swap chain";
        "failed to create image views"; "failed to create framebuffer"].
Proof.
  intros env s'.
  assert (Hthrown : DrawFrame env example_state
                    = Throw "failed to acquire swap chain image" s')
    by (vm_compute; reflexivity).
  split; [exact Hthrown|].
  exact (X13_frame_exceptions env example_state s' _ Hthrown).
Defined.

(** ** The synchronisation objects *)

Lemma vector_resize_two_inserts {A : Type} (d x y : A) (v : list A) :
  <[1%nat := y]> (<[0%nat := x]> (vector_resize MAX_FRAMES_IN_FLIGHT d v)) = [x; y].
Proof. unfold vector_resize. destruct v as [|a [|b v]]; reflexivity. Qed.

Lemma create_or_throw_Ok result store what s s' :
  create_or_throw result store what s = Ok tt s' -> result = VK_SUCCESS /\ s' = store s.
Proof.
  unfold create_or_throw. destruct (decide (VK_SUCCESS ≠ result)) as [|Hok]; [discriminate|].
  intros [= <-]. split; [|reflexivity].
  destruct (decide (result = VK_SUCCESS)); [assumption|]. exfalso. apply Hok. congruence.
Qed.

Lemma create_or_throw_outcome result store what s :
  (result = VK_SUCCESS /\ create_or_throw result store what s = Ok tt (store s))
  \/ (result <> VK_SUCCESS /\ create_or_throw result store what s = Throw what s).
Proof.
  unfold create_or_throw. destruct (decide (VK_SUCCESS ≠ result)) as [Hfail|Hok].
  - right. split; [congruence|reflexivity].
  - left. split; [|reflexivity].
    destruct (decide (result = VK_SUCCESS)); [assumption|]. exfalso. apply Hok. congruence.
Qed.

Lemma CreateSyncObjects_result env s s' :
  CreateSyncObjects env s = Ok tt s' ->
  m_imageAvailableSemaphores s'
  = [snd (init_createImageAvailable env 0); snd (init_createImageAvailable env 1)]
  /\ m_renderFinishedSemaphores s'
     = [snd (init_createRenderFinished env 0); snd (init_createRenderFinished env 1)]
  /\ m_inFlightFences s' = [true; true]
  /\ gpu_pending s' = gpu_pending s
  /\ m_physicalDevice s' = m_physicalDevice s.
Proof.
  unfold CreateSyncObjects. do 3 run_step.
  change (CreateSyncObjects_loop env MAX_FRAMES_IN_FLIGHT 0)
    with (CreateSyncObjects_loop env 2 0).
  cbn [CreateSyncObjects_loop]. intros H.
  do 6 (apply bind_Ok_inv in H as ([] & ? & [_ ->]%create_or_throw_Ok & H)).
  injection H as <-. cbn.
  pose proof (fun A d x y v => @vector_resize_two_inserts A d x y v) as Hfill.
  unfold vector_resize, MAX_FRAMES_IN_FLIGHT in Hfill. rewrite !Hfill. auto.
Qed.

(** X14: when [CreateSyncObjects] returns, there is one pair of semaphores
    and one fence per frame slot, the semaphores are the handles the driver
    returned, and both fences are in the signalled state, so that the first
    wait on each of them returns.  It returns exactly when the six
    creations succeed; otherwise it throws "failed to create
    synchronization objects for a frame". *)
Theorem X14_sync_objects (env : InitEnv) (s : State) :
  let created :=
    forall i, (i < MAX_FRAMES_IN_FLIGHT)%nat ->
              fst (init_createImageAvailable env i) = VK_SUCCESS
              /\ fst (init_createRenderFinished env i) = VK_SUCCESS
              /\ init_createFence env i = VK_SUCCESS in
  match CreateSyncObjects env s with
  | Ok _ s' =>
      created
      /\ m_imageAvailableSemaphores s'
         = [snd (init_createImageAvailable env 0); snd (init_createImageAvailable env 1)]
      /\ m_renderFinishedSemaphores s'
         = [snd (init_createRenderFinished env 0); snd (init_createRenderFinished env 1)]
      /\ m_inFlightFences s' = [true; true]
  | Throw what _ =>
      ~ created /\ what = "failed to create synchronization objects for a frame"
  | Block _ => False
  end.
Proof.
  intros created.
  destruct (CreateSyncObjects env s) as [[] s'|what s'|s'] eqn:Hrun.
  - destruct (CreateSyncObjects_result env s s' Hrun) as (Ha & Hr & Hf & _).
    split; [|auto]. revert Hrun. unfold CreateSyncObjects. do 3 run_step.
    change (CreateSyncObjects_loop env MAX_FRAMES_IN_FLIGHT 0)
      with (CreateSyncObjects_loop env 2 0).
    cbn [CreateSyncObjects_loop]. intros H.
    apply bind_Ok_inv in H as ([] & ? & [Ha0 _]%create_or_throw_Ok & H).
    apply bind_Ok_inv in H as ([] & ? & [Hr0 _]%create_or_throw_Ok & H).
    apply bind_Ok_inv in H as ([] & ? & [Hf0 _]%create_or_throw_Ok & H).
    apply bind_Ok_inv in H as ([] & ? & [Ha1 _]%create_or_throw_Ok & H).
    apply bind_Ok_inv in H as ([] & ? & [Hr1 _]%create_or_throw_Ok & H).
    apply bind_Ok_inv in H as ([] & ? & [Hf1 _]%create_or_throw_Ok & H).
    intros i Hi. unfold MAX_FRAMES_IN_FLIGHT in Hi.
    destruct i as [|[|i]]; [auto|auto|lia].
  - revert Hrun. unfold CreateSyncObjects. do 3 run_step.
    change (CreateSyncObjects_loop env MAX_FRAMES_IN_FLIGHT 0)
      with (CreateSyncObjects_loop env 2 0).
    cbn [CreateSyncObjects_loop].
    assert (H0 : (0 < MAX_FRAMES_IN_FLIGHT)%nat) by (unfold MAX_FRAMES_IN_FLIGHT; lia).
    assert (H1 : (1 < MAX_FRAMES_IN_FLIGHT)%nat) by (unfold MAX_FRAMES_IN_FLIGHT; lia).
    repeat match goal with
    | |- bind (create_or_throw ?r ?f ?w) ?k ?st = _ -> _ =>
        destruct (create_or_throw_outcome r f w st) as [[? Heq]|[? Heq]];
        [rewrite (bind_run_Ok _ _ _ _ _ Heq); clear Heq
        |rewrite (bind_run_Throw _ _ _ _ _ Heq); intros [= <- _];
         split; [|reflexivity]; intros Hall;
         first [destruct (Hall 0%nat H0) as (? & ? & ?); contradiction
               |destruct (Hall 1%nat H1) as (? & ? & ?); contradiction]]
    end.
    intros Hend. discriminate Hend.
  - assert (Hback : comes_back (CreateSyncObjects env)).
    { assert (Hloop : forall n i, comes_back (CreateSyncObjects_loop env n i)).
      { induction n as [|n IH]; intros i; simpl; unfold create_or_throw; comes_back_auto. }
      unfold CreateSyncObjects. comes_back_auto. }
    now apply Hback in Hrun.
Qed.

(** ** The fence wait always ends *)

Global Instance sync_keeps_refl : Reflexive sync_keeps.
Proof. intros s. split; reflexivity. Qed.

Global Instance sync_keeps_trans : Transitive sync_keeps.
Proof. intros s1 s2 s3 [A1 B1] [A2 B2]. split; congruence. Qed.

Global Instance covered_keeps_refl : Reflexive covered_keeps.
Proof. intros s H. exact H. Qed.

Global Instance covered_keeps_trans : Transitive covered_keeps.
Proof. intros s1 s2 s3 H1 H2 H. apply H2, H1, H. Qed.

Lemma sync_keeps_covered s s' : sync_keeps s s' -> covered_keeps s s'.
Proof. intros [Hf Hp] H slot. rewrite Hf, Hp. apply H. Qed.

Ltac sync_side := split; reflexivity.

Ltac sync_auto := respects_walk ltac:(solve [eauto]) sync_side.

Lemma glfwPollEvents_sync resize : respects sync_keeps (glfwPollEvents resize).
Proof. unfold glfwPollEvents, deliver_events, FramebufferResizeCallback. sync_auto. Qed.

Lemma RecreateSwapChain_wait_sync events size :
  respects sync_keeps (RecreateSwapChain_wait events size).
Proof.
  revert size. induction events as [|arrival events IH]; intros size; simpl;
    destruct (size_is_zero size);
    unfold glfwWaitEvents, deliver_events, FramebufferResizeCallback; sync_auto.
Qed.

Lemma rebuild_sync env :
  respects sync_keeps
    (CleanupSwapChain;; CreateSwapChain env;; CreateImageViews env;; CreateFramebuffers env).
Proof.
  assert (H1 : respects sync_keeps CleanupSwapChain)
    by (intros s; rewrite CleanupSwapChain_run; sync_side).
  assert (H2 : forall images i, respects sync_keeps (CreateImageViews_loop env images i))
    by (induction images as [|image images IH]; intros i; simpl; sync_auto).
  assert (H3 : forall views i, respects sync_keeps (CreateFramebuffers_loop env views i))
    by (induction views as [|view views IH]; intros i; simpl; sync_auto).
  unfold CreateSwapChain, CreateImageViews, CreateFramebuffers. sync_auto.
Qed.

Lemma signal_all_unsignaled subs s slot :
  m_inFlightFences (foldl (fun s' sub => signal_fence (sub_fence sub) s') s subs) !! slot
  = Some false ->
  m_inFlightFences s !! slot = Some false /\ slot ∉ map sub_fence subs.
Proof.
  revert s. induction subs as [|sub subs IH]; intros s; simpl.
  - intros H. split; [exact H|]. intros Hin. inversion Hin.
  - intros H. apply IH in H as [H Hnot]. simpl in H.
    destruct (decide (slot = sub_fence sub)) as [->|Hne].
    + exfalso. destruct (decide (sub_fence sub < length (m_inFlightFences s))%nat).
      * rewrite list_lookup_insert_eq in H by assumption. discriminate.
      * rewrite lookup_ge_None_2 in H by (rewrite length_insert; lia). discriminate.
    + rewrite list_lookup_insert_ne in H by congruence. split; [exact H|].
      intros [Heq|Hin]%elem_of_cons; [congruence|contradiction].
Qed.

(** After [vkDeviceWaitIdle] a fence that was covered is signalled. *)
Lemma vkDeviceWaitIdle_signals s slot :
  fences_covered s -> m_inFlightFences (res_state (vkDeviceWaitIdle s)) !! slot <> Some false.
Proof.
  intros Hcov H. rewrite vkDeviceWaitIdle_run in H. simpl in H.
  apply signal_all_unsignaled in H as [H Hnot]. simpl in H. apply Hnot, Hcov, H.
Qed.

Lemma vkDeviceWaitIdle_covered : respects covered_keeps vkDeviceWaitIdle.
Proof. intros s Hcov slot H. now apply vkDeviceWaitIdle_signals in H. Qed.

Lemma RecreateSwapChain_covered env : respects covered_keeps (RecreateSwapChain env).
Proof.
  pose proof (fun size => respects_weaken _ _ _ sync_keeps_covered
                            (RecreateSwapChain_wait_sync (env_waitEvents env) size)) as H1.
  pose proof vkDeviceWaitIdle_covered as H2.
  pose proof (respects_weaken _ _ _ sync_keeps_covered (rebuild_sync env)) as H3.
  unfold RecreateSwapChain.
  apply respects_bind; [typeclasses eauto| |intros ?].
  { intros s. apply sync_keeps_covered. sync_side. }
  apply respects_bind; [typeclasses eauto|apply respects_get; typeclasses eauto|intros s0].
  apply respects_bind; [typeclasses eauto|apply H1|intros ?].
  apply respects_bind; [typeclasses eauto|apply H2|intros ?]. apply H3.
Qed.

Lemma lookup_delete_other {A : Type} (l : list A) j k x :
  l !! j = Some x -> j <> k -> x ∈ delete k l.
Proof.
  intros Hj Hne. destruct (decide (j < k)%nat).
  - apply (list_elem_of_lookup_2 _ j). now rewrite list_lookup_delete_lt.
  - apply (list_elem_of_lookup_2 _ (pred j)). rewrite list_lookup_delete_ge by lia.
    now replace (S (pred j)) with j by lia.
Qed.

(** The GPU finishing a submission signals its fence and leaves the other
    unsignalled fences covered. *)
Lemma gpu_finish_unsignaled k s slot :
  m_inFlightFences (gpu_finish k s) !! slot = Some false ->
  m_inFlightFences s !! slot = Some false
  /\ (slot ∈ map sub_fence (gpu_pending s) ->
      slot ∈ map sub_fence (gpu_pending (gpu_finish k s))).
Proof.
  unfold gpu_finish. destruct (gpu_pending s !! k) as [sub|] eqn:Hk; [|auto].
  cbn. intros H.
  assert (Hne : slot <> sub_fence sub).
  { intros ->. destruct (decide (sub_fence sub < length (m_inFlightFences s))%nat).
    - rewrite list_lookup_insert_eq in H by assumption. discriminate.
    - rewrite lookup_ge_None_2 in H by (rewrite length_insert; lia). discriminate. }
  rewrite list_lookup_insert_ne in H by congruence. split; [exact H|].
  intros (sub' & -> & Hin)%list_elem_of_fmap.
  apply list_elem_of_lookup_1 in Hin as [j Hj].
  apply list_elem_of_fmap. exists sub'. split; [reflexivity|].
  apply (lookup_delete_other _ j); [exact Hj|]. intros ->. congruence.
Qed.

Lemma gpu_finish_covered k : respects covered_keeps (modify (gpu_finish k)).
Proof.
  intros s Hcov slot H. cbn in *. apply gpu_finish_unsignaled in H as [H Hkeep].
  apply Hkeep, Hcov, H.
Qed.

Lemma gpu_finish_currentFrame k s : m_currentFrame (gpu_finish k s) = m_currentFrame s.
Proof. unfold gpu_finish. destruct (gpu_pending s !! k); reflexivity. Qed.

Lemma fence_inv_gpu_finish pc k s : fence_inv pc s -> fence_inv pc (gpu_finish k s).
Proof.
  destruct pc; simpl; try exact (gpu_finish_covered k s); [|auto].
  intros Hcov slot H Hne. rewrite gpu_finish_currentFrame in Hne.
  apply gpu_finish_unsignaled in H as [H Hkeep]. now apply Hkeep, Hcov.
Qed.

Lemma DrawFrame_wait_covered : respects covered_keeps DrawFrame_wait.
Proof.
  pose proof gpu_finish_covered.
  unfold DrawFrame_wait, vkWaitForFences.
  respects_walk ltac:(solve [eauto]) ltac:(apply sync_keeps_covered; sync_side).
Qed.

Lemma DrawFrame_acquire_covered env : respects covered_keeps (DrawFrame_acquire env).
Proof.
  pose proof (RecreateSwapChain_covered (env_recreate env)).
  unfold DrawFrame_acquire.
  respects_walk ltac:(solve [eauto]) ltac:(apply sync_keeps_covered; sync_side).
Qed.

Lemma DrawFrame_present_covered env imageIndex :
  respects covered_keeps (DrawFrame_present env imageIndex).
Proof.
  pose proof (RecreateSwapChain_covered (env_recreate env)).
  unfold DrawFrame_present.
  respects_walk ltac:(solve [eauto]) ltac:(apply sync_keeps_covered; sync_side).
Qed.

Lemma RecordCommandBuffer_sync env commandBuffer framebuffer :
  respects sync_keeps (RecordCommandBuffer env commandBuffer framebuffer).
Proof. unfold RecordCommandBuffer. sync_auto. Qed.

(** What [DrawFrame_record] and [DrawFrame_submit] do to fences and queue. *)
Lemma DrawFrame_record_sync env imageIndex s s' :
  DrawFrame_record env imageIndex s = Ok tt s' ->
  m_inFlightFences s' = <[m_currentFrame s := false]> (m_inFlightFences s)
  /\ gpu_pending s' = gpu_pending s
  /\ m_currentFrame s' = m_currentFrame s.
Proof.
  intros Hrun.
  pose proof (DrawFrame_record_frame_keeps env imageIndex s) as Hk. rewrite Hrun in Hk.
  assert (H : m_inFlightFences s' = <[m_currentFrame s := false]> (m_inFlightFences s)
              /\ gpu_pending s' = gpu_pending s).
  2:{ destruct H. split; [assumption|]. split; [assumption|exact (fk_currentFrame _ _ Hk)]. }
  clear Hk. revert Hrun. unfold DrawFrame_record, vkResetFences. do 2 run_step.
  destruct (m_inFlightFences s !! m_currentFrame s); [|discriminate].
  do 3 run_step.
  match goal with |- ?m ?st = _ -> _ => set (tail := m); set (s1 := st) end.
  assert (Htail : respects sync_keeps tail).
  { pose proof (RecordCommandBuffer_sync env). subst tail. sync_auto. }
  intros Hrun. destruct (Htail s1) as [Hf Hp]. rewrite Hrun in Hf, Hp. split; assumption.
Qed.

Lemma DrawFrame_submit_sync env imageIndex s s' :
  DrawFrame_submit env imageIndex s = Ok tt s' ->
  m_inFlightFences s' = m_inFlightFences s
  /\ m_currentFrame s' = m_currentFrame s
  /\ exists commandBuffer,
       gpu_pending s' = gpu_pending s ++ [{| sub_fence := m_currentFrame s;
                                             sub_commandBuffer := commandBuffer |}].
Proof.
  unfold DrawFrame_submit, vkQueueSubmit. do 2 run_step.
  destruct (m_imageAvailableSemaphores s !! m_currentFrame s); [|discriminate].
  run_step.
  destruct (m_renderFinishedSemaphores s !! m_currentFrame s); [|discriminate].
  run_step.
  destruct (m_inFlightFences s !! m_currentFrame s); [|discriminate].
  repeat run_step.
  destruct (decide (VK_SUCCESS = env_queueSubmit env)) as [Hok|Hfail].
  - repeat run_step. unfold throw_if.
    destruct (decide (VK_SUCCESS ≠ env_queueSubmit env)); [congruence|].
    intros [= <-]. cbn. eauto.
  - repeat run_step. unfold throw_if.
    destruct (decide (VK_SUCCESS ≠ env_queueSubmit env)); [discriminate|contradiction].
Qed.

Lemma run_phase_fence_inv pc env s pc' s' :
  fence_inv pc s -> run_phase pc env s = Ok pc' s' -> fence_inv pc' s'.
Proof.
  intros Hinv. destruct pc; cbn [run_phase].
  - intros ([] & Hrun & ->)%then_ret_Ok. simpl in *.
    pose proof (glfwPollEvents_sync (env_pollEvents env) s) as Hk. rewrite Hrun in Hk.
    now apply (sync_keeps_covered _ _ Hk).
  - intros ([] & Hrun & ->)%then_ret_Ok. simpl in *.
    pose proof (DrawFrame_wait_covered s) as Hk. rewrite Hrun in Hk. now apply Hk.
  - intros (acquired & Hrun & ->)%then_ret_Ok. simpl in Hinv.
    pose proof (DrawFrame_acquire_covered env s) as Hk. rewrite Hrun in Hk.
    destruct acquired; simpl; now apply Hk.
  - intros ([] & Hrun & ->)%then_ret_Ok. simpl in *.
    destruct (DrawFrame_record_sync env imageIndex s s' Hrun) as (Hf & Hp & Hc).
    intros slot H Hne. rewrite Hf, Hc in *.
    rewrite list_lookup_insert_ne in H by congruence. rewrite Hp. now apply Hinv.
  - intros ([] & Hrun & ->)%then_ret_Ok. simpl in *.
    destruct (DrawFrame_submit_sync env imageIndex s s' Hrun) as (Hf & Hc & cb & Hp).
    intros slot H. rewrite Hf in H. rewrite Hp.
    change (slot ∈ sub_fence <$> gpu_pending s ++ [{| sub_fence := m_currentFrame s;
                                                      sub_commandBuffer := cb |}]).
    rewrite fmap_app. apply elem_of_app.
    destruct (decide (slot = m_currentFrame s)) as [->|Hne].
    + right. simpl. apply list_elem_of_here.
    + left. now apply Hinv.
  - intros ([] & Hrun & ->)%then_ret_Ok. simpl in *.
    pose proof (DrawFrame_present_covered env imageIndex s) as Hk. rewrite Hrun in Hk.
    now apply Hk.
  - intros ([] & Hrun & ->)%then_ret_Ok. simpl in *.
    injection Hrun as <-. exact Hinv.
  - intros [= <- <-]. exact I.
Qed.

Lemma step_fence_inv cfg cfg' :
  step cfg cfg' -> fence_inv (fst cfg) (snd cfg) -> fence_inv (fst cfg') (snd cfg').
Proof.
  intros Hstep Hinv. destruct Hstep as [pc s k Hk|pc env s pc' s' _ Hrun
    |pc env s what s' _ Hrun|pc env s s' _ Hrun|s]; simpl in *; try exact I.
  - now apply fence_inv_gpu_finish.
  - eapply run_phase_fence_inv; eassumption.
Qed.

Lemma init_fences ienv s0 :
  (InitWindow ienv;; InitVulkan ienv) HelloTriangleApplication = Ok tt s0 ->
  m_inFlightFences s0 = [true; true].
Proof.
  intros Hinit. apply bind_Ok_inv in Hinit as (? & s1 & _ & Hinit).
  apply InitVulkan_last in Hinit as (s2 & Hsync).
  now destruct (CreateSyncObjects_result ienv s2 s0 Hsync) as (_ & _ & Hf & _).
Qed.

Lemma reachable_fence_inv pc s : reachable (pc, s) -> fence_inv pc s.
Proof.
  intros (ienv & s0 & Hinit & Hsteps).
  assert (H0 : fence_inv PcPoll s0).
  { intros slot H. rewrite (init_fences ienv s0 Hinit) in H.
    destruct slot as [|[|slot]]; discriminate. }
  change (fence_inv (fst (pc, s)) (snd (pc, s))).
  revert H0. change s0 with (snd (PcPoll, s0)) at 1. change PcPoll with (fst (PcPoll, s0)) at 1.
  induction Hsteps as [|cfg1 cfg2 cfg3 Hstep _ IH]; [auto|].
  intros H. eapply IH, step_fence_inv; eassumption.
Qed.

(** With every unsignalled fence covered, the wait at the head of
    [DrawFrame] returns. *)
Lemma DrawFrame_wait_returns s :
  sync_inv s -> fences_covered s -> exists s1, DrawFrame_wait s = Ok tt s1.
Proof.
  intros Hinv Hcov. unfold DrawFrame_wait, vkWaitForFences. do 2 run_step.
  destruct (m_inFlightFences s !! m_currentFrame s) as [signaled|] eqn:Hf.
  2:{ apply lookup_ge_None in Hf. destruct Hinv as [Hlen _ _ Hcur _ _]. lia. }
  do 2 run_step. cbn [m_inFlightFences set_trace gpu_pending]. rewrite Hf. cbn [default].
  destruct signaled; [eexists; reflexivity|].
  destruct (list_find _ _) as [[k sub]|] eqn:Hfind; [eexists; reflexivity|].
  exfalso. apply list_find_None in Hfind.
  apply Hcov in Hf as (sub & Heq & Hin)%list_elem_of_fmap.
  rewrite Forall_forall in Hfind. now apply (Hfind sub).
Qed.

Lemma DrawFrame_acquire_blocks env s s' :
  DrawFrame_acquire env s = Block s' -> size_is_zero (framebufferSize s) = true.
Proof.
  unfold DrawFrame_acquire. rewrite bind_get_run, bind_vector_at_run.
  destruct (m_imageAvailableSemaphores s !! m_currentFrame s); [|discriminate].
  rewrite bind_emit_run.
  destruct (decide _); [|destruct (decide _); discriminate].
  unfold bind at 1.
  destruct (RecreateSwapChain _ _) as [[] s1|what s1|s1] eqn:Hrun; try discriminate.
  intros _. now apply RecreateSwapChain_blocks_minimised in Hrun.
Qed.

Lemma DrawFrame_present_blocks env imageIndex s s' :
  DrawFrame_present env imageIndex s = Block s' -> size_is_zero (framebufferSize s) = true.
Proof.
  unfold DrawFrame_present. rewrite bind_get_run, bind_vector_at_run.
  destruct (m_renderFinishedSemaphores s !! m_currentFrame s); [|discriminate].
  rewrite bind_emit_run.
  destruct (decide _).
  - rewrite bind_modify_run. intros Hrun.
    now apply RecreateSwapChain_blocks_minimised in Hrun.
  - unfold throw_if. destruct (decide _); discriminate.
Qed.

Lemma DrawFrame_blocks_minimised env s s' :
  sync_inv s -> fences_covered s ->
  DrawFrame env s = Block s' -> size_is_zero (framebufferSize s) = true.
Proof.
  intros Hinv Hcov. destruct (DrawFrame_wait_returns s Hinv Hcov) as (s1 & Hwait).
  pose proof (DrawFrame_wait_frame_keeps s) as Hk1. rewrite Hwait in Hk1.
  apply fk_framebufferSize in Hk1. simpl in Hk1.
  unfold DrawFrame. rewrite (bind_run_Ok _ _ _ _ _ Hwait).
  destruct (DrawFrame_acquire env s1) as [[imageIndex|] s2|what s2|s2] eqn:Hacquire.
  - rewrite (bind_run_Ok _ _ _ _ _ Hacquire).
    destruct (DrawFrame_acquire_result env s1 _ s2 Hacquire) as (_ & Hfresh & Hs2).
    assert (Hk2 : framebufferSize s2 = framebufferSize s1) by (rewrite Hs2; reflexivity).
    destruct (DrawFrame_record env imageIndex s2) as [[] s3|what s3|s3] eqn:Hrecord.
    2:{ rewrite (bind_run_Throw _ _ _ _ _ Hrecord). discriminate. }
    2:{ now apply DrawFrame_record_comes_back in Hrecord. }
    rewrite (bind_run_Ok _ _ _ _ _ Hrecord).
    pose proof (DrawFrame_record_frame_keeps env imageIndex s2) as Hk3.
    rewrite Hrecord in Hk3. apply fk_framebufferSize in Hk3. simpl in Hk3.
    destruct (DrawFrame_submit env imageIndex s3) as [[] s4|what s4|s4] eqn:Hsubmit.
    2:{ rewrite (bind_run_Throw _ _ _ _ _ Hsubmit). discriminate. }
    2:{ now apply DrawFrame_submit_comes_back in Hsubmit. }
    rewrite (bind_run_Ok _ _ _ _ _ Hsubmit).
    pose proof (DrawFrame_submit_frame_keeps env imageIndex s3) as Hk4.
    rewrite Hsubmit in Hk4. apply fk_framebufferSize in Hk4. simpl in Hk4.
    destruct (DrawFrame_present env imageIndex s4) as [[] s5|what s5|s5] eqn:Hpresent.
    + rewrite (bind_run_Ok _ _ _ _ _ Hpresent). discriminate.
    + rewrite (bind_run_Throw _ _ _ _ _ Hpresent). discriminate.
    + intros _. apply DrawFrame_present_blocks in Hpresent. congruence.
  - rewrite (bind_run_Ok _ _ _ _ _ Hacquire). discriminate.
  - rewrite (bind_run_Throw _ _ _ _ _ Hacquire). discriminate.
  - intros _. apply DrawFrame_acquire_blocks in Hacquire. congruence.
Qed.

(** X15: in the running loop the wait on the fence of the current slot
    always returns: a fence that is not signalled has a submission in the
    GPU queue that will signal it.  A call of [DrawFrame] can therefore
    hang for ever in one place only, [glfwWaitEvents], and only with a
    window of size zero. *)
Theorem X15_frame_never_deadlocks (s : State) (Hreach : reachable (PcWait, s)) :
  (exists s1, DrawFrame_wait s = Ok tt s1)
  /\ (forall env s', DrawFrame env s = Block s' -> size_is_zero (framebufferSize s) = true).
Proof.
  destruct (reachable_inv _ _ Hreach) as [Hinv _].
  pose proof (reachable_fence_inv _ _ Hreach) as Hcov. simpl in Hcov.
  split; [now apply DrawFrame_wait_returns|].
  intros env s'. now apply DrawFrame_blocks_minimised.
Qed.

Lemma X15_frame_never_deadlocks_witness :
  let s := res_state (glfwPollEvents None example_after2) in
  reachable (PcWait, s)
  /\ m_inFlightFences s !! m_currentFrame s = Some false
  /\ exists s1, DrawFrame_wait s = Ok tt s1.
Proof.
  intros s.
  assert (Hreach : reachable (PcWait, s)).
  { exists example_init, example_state. split; [vm_compute; reflexivity|].
    eapply rtc_trans.
    - apply (frame_steps example_frame1 example_state example_polled1 example_after1);
        vm_compute; reflexivity.
    - eapply rtc_trans.
      + apply (frame_steps example_frame2 example_after1 example_polled2 example_after2);
          vm_compute; reflexivity.
      + apply rtc_once. apply (step_cpu PcPoll example_frame1); [discriminate|].
        vm_compute. reflexivity. }
  split; [exact Hreach|]. split; [vm_compute; reflexivity|].
  exact (proj1 (X15_frame_never_deadlocks s Hreach)).
Defined.

(** ** The whole run *)

Lemma phase_stops pc env s :
  pc <> PcStopped ->
  match run_phase pc env s with
  | Ok _ _ => True
  | Throw _ s' | Block s' => step (pc, s) (PcStopped, s')
  end.
Proof.
  intros Hpc. destruct (run_phase pc env s) as [pc' s'|what s'|s'] eqn:Hrun; [exact I| |].
  - eapply step_throw; eassumption.
  - eapply step_block; eassumption.
Qed.

(** A call of [DrawFrame] that does not return ends in a state the
    transition system reaches as well. *)
Lemma DrawFrame_steps_stopped env s :
  match DrawFrame env s with
  | Ok _ _ => True
  | Throw _ s' | Block s' => rtc step (PcWait, s) (PcStopped, s')
  end.
Proof.
  unfold DrawFrame.
  pose proof (phase_stops PcWait env s ltac:(discriminate)) as Hstop.
  cbn [run_phase] in Hstop.
  destruct (DrawFrame_wait s) as [[] s1|what s1|s1] eqn:Hwait.
  2:{ rewrite (bind_run_Throw _ _ _ _ _ Hwait) in Hstop. rewrite (bind_run_Throw _ _ _ _ _ Hwait). now apply rtc_once. }
  2:{ rewrite (bind_run_Block _ _ _ _ Hwait) in Hstop. rewrite (bind_run_Block _ _ _ _ Hwait). now apply rtc_once. }
  rewrite (bind_run_Ok _ _ _ _ _ Hwait). clear Hstop.
  assert (H1 : step (PcWait, s) (PcAcquire, s1)).
  { eapply (step_cpu PcWait env); [discriminate|].
    exact (run_phase_Ok _ (fun _ => PcAcquire) _ _ _ Hwait). }
  pose proof (phase_stops PcAcquire env s1 ltac:(discriminate)) as Hstop.
  cbn [run_phase] in Hstop.
  destruct (DrawFrame_acquire env s1) as [acquired s2|what s2|s2] eqn:Hacquire.
  2:{ rewrite (bind_run_Throw _ _ _ _ _ Hacquire) in Hstop. rewrite (bind_run_Throw _ _ _ _ _ Hacquire). eapply rtc_l; [exact H1|].
      now apply rtc_once. }
  2:{ rewrite (bind_run_Block _ _ _ _ Hacquire) in Hstop. rewrite (bind_run_Block _ _ _ _ Hacquire). eapply rtc_l; [exact H1|].
      now apply rtc_once. }
  rewrite (bind_run_Ok _ _ _ _ _ Hacquire). clear Hstop.
  destruct acquired as [imageIndex|]; [|exact I].
  assert (H2 : step (PcAcquire, s1) (PcRecord imageIndex, s2)).
  { eapply (step_cpu PcAcquire env); [discriminate|].
    exact (run_phase_Ok _ (fun a => match a with None => PcPoll | Some i => PcRecord i end)
                        _ _ _ Hacquire). }
  pose proof (phase_stops (PcRecord imageIndex) env s2 ltac:(discriminate)) as Hstop.
  cbn [run_phase] in Hstop.
  destruct (DrawFrame_record env imageIndex s2) as [[] s3|what s3|s3] eqn:Hrecord.
  2:{ rewrite (bind_run_Throw _ _ _ _ _ Hrecord) in Hstop. rewrite (bind_run_Throw _ _ _ _ _ Hrecord).
      eapply rtc_l; [exact H1|]. eapply rtc_l; [exact H2|]. now apply rtc_once. }
  2:{ rewrite (bind_run_Block _ _ _ _ Hrecord) in Hstop. rewrite (bind_run_Block _ _ _ _ Hrecord).
      eapply rtc_l; [exact H1|]. eapply rtc_l; [exact H2|]. now apply rtc_once. }
  rewrite (bind_run_Ok _ _ _ _ _ Hrecord). clear Hstop.
  assert (H3 : step (PcRecord imageIndex, s2) (PcSubmit imageIndex, s3)).
  { eapply (step_cpu (PcRecord imageIndex) env); [discriminate|].
    exact (run_phase_Ok _ (fun _ => PcSubmit imageIndex) _ _ _ Hrecord). }
  pose proof (phase_stops (PcSubmit imageIndex) env s3 ltac:(discriminate)) as Hstop.
  cbn [run_phase] in Hstop.
  destruct (DrawFrame_submit env imageIndex s3) as [[] s4|what s4|s4] eqn:Hsubmit.
  2:{ rewrite (bind_run_Throw _ _ _ _ _ Hsubmit) in Hstop. rewrite (bind_run_Throw _ _ _ _ _ Hsubmit).
      eapply rtc_l; [exact H1|]. eapply rtc_l; [exact H2|]. eapply rtc_l; [exact H3|].
      now apply rtc_once. }
  2:{ rewrite (bind_run_Block _ _ _ _ Hsubmit) in Hstop. rewrite (bind_run_Block _ _ _ _ Hsubmit).
      eapply rtc_l; [exact H1|]. eapply rtc_l; [exact H2|]. eapply rtc_l; [exact H3|].
      now apply rtc_once. }
  rewrite (bind_run_Ok _ _ _ _ _ Hsubmit). clear Hstop.
  assert (H4 : step (PcSubmit imageIndex, s3) (PcPresent imageIndex, s4)).
  { eapply (step_cpu (PcSubmit imageIndex) env); [discriminate|].
    exact (run_phase_Ok _ (fun _ => PcPresent imageIndex) _ _ _ Hsubmit). }
  pose proof (phase_stops (PcPresent imageIndex) env s4 ltac:(discriminate)) as Hstop.
  cbn [run_phase] in Hstop.
  destruct (DrawFrame_present env imageIndex s4) as [[] s5|what s5|s5] eqn:Hpresent.
  2:{ rewrite (bind_run_Throw _ _ _ _ _ Hpresent) in Hstop. rewrite (bind_run_Throw _ _ _ _ _ Hpresent).
      eapply rtc_l; [exact H1|]. eapply rtc_l; [exact H2|]. eapply rtc_l; [exact H3|].
      eapply rtc_l; [exact H4|]. now apply rtc_once. }
  2:{ rewrite (bind_run_Block _ _ _ _ Hpresent) in Hstop. rewrite (bind_run_Block _ _ _ _ Hpresent).
      eapply rtc_l; [exact H1|]. eapply rtc_l; [exact H2|]. eapply rtc_l; [exact H3|].
      eapply rtc_l; [exact H4|]. now apply rtc_once. }
  rewrite (bind_run_Ok _ _ _ _ _ Hpresent). exact I.
Qed.

(** [MainLoop] ends in a state the transition system reaches. *)
Lemma MainLoop_steps envs s :
  exists pc, rtc step (PcPoll, s) (pc, res_state (MainLoop envs s)).
Proof.
  revert s. induction envs as [|env envs IH]; intros s.
  - exists PcStopped. apply rtc_once. apply step_close.
  - cbn [MainLoop].
    pose proof (phase_stops PcPoll env s ltac:(discriminate)) as Hstop.
    cbn [run_phase] in Hstop.
    destruct (glfwPollEvents (env_pollEvents env) s) as [[] s1|what s1|s1] eqn:Hpoll.
    2:{ rewrite (bind_run_Throw _ _ _ _ _ Hpoll) in Hstop. rewrite (bind_run_Throw _ _ _ _ _ Hpoll). exists PcStopped. now apply rtc_once. }
    2:{ rewrite (bind_run_Block _ _ _ _ Hpoll) in Hstop. rewrite (bind_run_Block _ _ _ _ Hpoll). exists PcStopped. now apply rtc_once. }
    rewrite (bind_run_Ok _ _ _ _ _ Hpoll). clear Hstop.
    assert (H1 : step (PcPoll, s) (PcWait, s1)).
    { eapply (step_cpu PcPoll env); [discriminate|].
      exact (run_phase_Ok _ (fun _ => PcWait) _ _ _ Hpoll). }
    pose proof (DrawFrame_steps_stopped env s1) as Hstop.
    destruct (DrawFrame env s1) as [[] s2|what s2|s2] eqn:Hframe.
    + rewrite (bind_run_Ok _ _ _ _ _ Hframe). destruct (IH s2) as (pc & Hrest).
      exists pc. eapply rtc_l; [exact H1|]. eapply rtc_trans; [|exact Hrest].
      now apply (DrawFrame_steps env).
    + rewrite (bind_run_Throw _ _ _ _ _ Hframe). exists PcStopped.
      eapply rtc_l; [exact H1|exact Hstop].
    + rewrite (bind_run_Block _ _ _ _ Hframe). exists PcStopped.
      eapply rtc_l; [exact H1|exact Hstop].
Qed.

(** X16: however [Run] ends, by returning, by an exception or by hanging,
    during initialisation or after any number of frames, the GPU then
    holds at most [MAX_FRAMES_IN_FLIGHT] unfinished submissions, and they
    signal the fences of different slots. *)
Theorem X16_run_frames_in_flight (ienv : InitEnv) (envs : list FrameEnv) :
  let s' := res_state (Run ienv envs HelloTriangleApplication) in
  (frames_in_flight s' <= MAX_FRAMES_IN_FLIGHT)%nat
  /\ NoDup (map sub_fence (gpu_pending s')).
Proof.
  intros s'. subst s'. unfold Run.
  pose proof (init_idle ienv HelloTriangleApplication) as [Hidle _].
  rewrite <- bind_assoc.
  destruct ((InitWindow ienv;; InitVulkan ienv) HelloTriangleApplication)
    as [[] s0|what s0|s0] eqn:Hinit.
  - rewrite (bind_run_Ok _ _ _ _ _ Hinit).
    destruct (MainLoop_steps envs s0) as (pc & Hsteps).
    assert (Hreach : reachable (pc, res_state (MainLoop envs s0)))
      by (exists ienv, s0; split; assumption).
    destruct (reachable_inv _ _ Hreach) as [Hinv _].
    split; [now apply frames_in_flight_bound|exact (si_distinct _ Hinv)].
  - rewrite (bind_run_Throw _ _ _ _ _ Hinit). simpl in *. unfold frames_in_flight.
    rewrite Hidle by reflexivity. simpl. split; [lia|constructor].
  - rewrite (bind_run_Block _ _ _ _ Hinit). simpl in *. unfold frames_in_flight.
    rewrite Hidle by reflexivity. simpl. split; [lia|constructor].
Qed.

Lemma MainLoop_returns envs s s' :
  MainLoop envs s = Ok tt s' ->
  exists s1, rtc step (PcPoll, s) (PcPoll, s1) /\ vkDeviceWaitIdle s1 = Ok tt s'.
Proof.
  revert s. induction envs as [|env envs IH]; intros s; cbn [MainLoop].
  - intros H. exists s. split; [apply rtc_refl|exact H].
  - intros H. apply bind_Ok_inv in H as ([] & s1 & Hpoll & H).
    apply bind_Ok_inv in H as ([] & s2 & Hframe & H).
    destruct (IH s2 H) as (s3 & Hsteps & Hidle). exists s3. split; [|exact Hidle].
    eapply rtc_trans; [|exact Hsteps]. eapply frame_steps; eassumption.
Qed.

(** X17: when [Run] comes back from [MainLoop], the GPU has finished every
    submission and both fences are signalled. *)
Theorem X17_run_ends_idle (ienv : InitEnv) (envs : list FrameEnv) (s' : State)
    (Hreturns : Run ienv envs HelloTriangleApplication = Ok tt s') :
  gpu_pending s' = [] /\ m_inFlightFences s' = [true; true].
Proof.
  unfold Run in Hreturns. rewrite <- bind_assoc in Hreturns.
  apply bind_Ok_inv in Hreturns as ([] & s0 & Hinit & Hloop).
  apply MainLoop_returns in Hloop as (s1 & Hsteps & Hidle).
  assert (Hreach : reachable (PcPoll, s1)) by (exists ienv, s0; split; assumption).
  destruct (reachable_inv _ _ Hreach) as [Hinv _].
  pose proof (reachable_fence_inv _ _ Hreach) as Hcov. simpl in Hcov.
  pose proof (vkDeviceWaitIdle_idle s1) as Hpending.
  pose proof (fun slot => vkDeviceWaitIdle_signals s1 slot Hcov) as Hsignaled.
  pose proof (vkDeviceWaitIdle_keeps s1) as Hk.
  rewrite Hidle in Hpending, Hsignaled, Hk. simpl in Hpending, Hsignaled, Hk.
  split; [exact Hpending|].
  pose proof (rk_fences_length _ _ Hk) as Hlen. rewrite (si_fences _ Hinv) in Hlen.
  destruct (m_inFlightFences s') as [|a [|b [|c l]]]; try discriminate Hlen.
  pose proof (Hsignaled 0%nat) as H0. pose proof (Hsignaled 1%nat) as H1.
  destruct a, b; simpl in H0, H1; congruence.
Qed.

Lemma X17_run_ends_idle_witness :
  let s' := res_state (Run example_init [example_frame1; example_frame2]
                           HelloTriangleApplication) in
  Run example_init [example_frame1; example_frame2] HelloTriangleApplication = Ok tt s'
  /\ gpu_pending example_after2 = [{| sub_fence := 0; sub_commandBuffer := 50%N |};
                                   {| sub_fence := 1; sub_commandBuffer := 51%N |}]
  /\ gpu_pending s' = [].
Proof.
  intros s'.
  assert (Hreturns : Run example_init [example_frame1; example_frame2]
                         HelloTriangleApplication = Ok tt s') by (vm_compute; reflexivity).
  split; [exact Hreturns|]. split; [vm_compute; reflexivity|].
  exact (proj1 (X17_run_ends_idle _ _ s' Hreturns)).
Defined.

(** ** A resize is taken up by the frame that follows it *)

Global Instance window_keeps_refl : Reflexive window_keeps.
Proof. intros s. split; reflexivity. Qed.

Global Instance window_keeps_trans : Transitive window_keeps.
Proof. intros s1 s2 s3 [A1 B1] [A2 B2]. split; congruence. Qed.

Ltac window_side := split; reflexivity.

Ltac window_auto := respects_walk ltac:(solve [eauto]) window_side.

Lemma signal_all_window subs s :
  window_keeps s (foldl (fun s' sub => signal_fence (sub_fence sub) s') s subs).
Proof.
  revert s. induction subs as [|sub subs IH]; intros s; simpl; [reflexivity|].
  etransitivity; [|apply IH]. window_side.
Qed.

Lemma rebuild_window env :
  respects window_keeps
    (vkDeviceWaitIdle;; CleanupSwapChain;; CreateSwapChain env;; CreateImageViews env;;
     CreateFramebuffers env).
Proof.
  assert (H0 : respects window_keeps vkDeviceWaitIdle).
  { intros s. rewrite vkDeviceWaitIdle_run. simpl.
    etransitivity; [|apply signal_all_window]. window_side. }
  assert (H1 : respects window_keeps CleanupSwapChain)
    by (intros s; rewrite CleanupSwapChain_run; window_side).
  assert (H2 : forall images i, respects window_keeps (CreateImageViews_loop env images i))
    by (induction images as [|image images IH]; intros i; simpl; window_auto).
  assert (H3 : forall views i, respects window_keeps (CreateFramebuffers_loop env views i))
    by (induction views as [|view views IH]; intros i; simpl; window_auto).
  unfold CreateSwapChain, CreateImageViews, CreateFramebuffers. window_auto.
Qed.

(** With a window that has a size, a recreation leaves size and resize flag
    as they are. *)
Lemma RecreateSwapChain_window env s :
  size_is_zero (framebufferSize s) = false ->
  window_keeps s (res_state (RecreateSwapChain env s)).
Proof.
  intros Hsize. rewrite (RecreateSwapChain_sized env s Hsize).
  etransitivity; [|apply rebuild_window]. window_side.
Qed.

Lemma DrawFrame_acquire_stale env s acquired s' :
  fst (env_acquire env) = VK_ERROR_OUT_OF_DATE_KHR ->
  DrawFrame_acquire env s = Ok acquired s' ->
  exists s0, window_keeps s s0 /\ RecreateSwapChain (env_recreate env) s0 = Ok tt s'.
Proof.
  intros Hstale. unfold DrawFrame_acquire. rewrite bind_get_run, bind_vector_at_run.
  destruct (m_imageAvailableSemaphores s !! m_currentFrame s) as [semaphore|]; [|discriminate].
  rewrite bind_emit_run.
  destruct (decide (VK_ERROR_OUT_OF_DATE_KHR = fst (env_acquire env))); [|congruence].
  intros H. apply bind_Ok_inv in H as ([] & s1 & Hrun & H). injection H as _ <-.
  eexists. split; [|exact Hrun]. window_side.
Qed.

Lemma DrawFrame_present_resized env imageIndex s s' :
  m_framebufferResized s = true ->
  DrawFrame_present env imageIndex s = Ok tt s' ->
  exists s0,
    framebufferSize s0 = framebufferSize s /\ m_framebufferResized s0 = false
    /\ RecreateSwapChain (env_recreate env) s0 = Ok tt s'.
Proof.
  intros Hflag. unfold DrawFrame_present. rewrite bind_get_run, bind_vector_at_run.
  destruct (m_renderFinishedSemaphores s !! m_currentFrame s) as [semaphore|]; [|discriminate].
  rewrite bind_emit_run.
  destruct (decide _) as [_|Hnot]; [|exfalso; apply Hnot; auto].
  rewrite bind_modify_run. intros Hrun. eexists. split; [|split; [|exact Hrun]]; reflexivity.
Qed.

(** X18: a frame that starts with the resize flag set and returns has
    rebuilt the swap chain: the chain in use afterwards is the new one, and
    its extent is the one chosen for the size the window then has.  With a
    window that has a size, the flag is cleared when the rebuild follows the
    presentation; when the rebuild is the one of a stale acquisition the
    flag stays set, so the next presented frame rebuilds once more. *)
Theorem X18_resize_handled (env : FrameEnv) (s s' : State)
    (Hresized : m_framebufferResized s = true)
    (Hreturns : DrawFrame env s = Ok tt s') :
  m_swapChain s' = snd (env_createSwapchain (env_recreate env))
  /\ m_swapChainExtent s'
     = ChooseSwapExtent (framebufferSize s') (capabilities (env_support (env_recreate env)))
  /\ (size_is_zero (framebufferSize s) = false ->
      framebufferSize s' = framebufferSize s
      /\ m_framebufferResized s'
         = bool_decide (fst (env_acquire env) = VK_ERROR_OUT_OF_DATE_KHR)).
Proof.
  unfold DrawFrame in Hreturns.
  apply bind_Ok_inv in Hreturns as ([] & s1 & Hwait & Hreturns).
  apply bind_Ok_inv in Hreturns as (acquired & s2 & Hacquire & Hreturns).
  pose proof (DrawFrame_wait_frame_keeps s) as Hk1. rewrite Hwait in Hk1. simpl in Hk1.
  pose proof (DrawFrame_acquire_result env s1 _ s2 Hacquire) as Hresult.
  destruct acquired as [imageIndex|].
  - destruct Hresult as (_ & Hfresh & Hs2).
    apply bind_Ok_inv in Hreturns as ([] & s3 & Hrecord & Hreturns).
    apply bind_Ok_inv in Hreturns as ([] & s4 & Hsubmit & Hreturns).
    apply bind_Ok_inv in Hreturns as ([] & s5 & Hpresent & Hreturns).
    pose proof (DrawFrame_record_frame_keeps env imageIndex s2) as Hk3.
    rewrite Hrecord in Hk3. simpl in Hk3.
    pose proof (DrawFrame_submit_frame_keeps env imageIndex s3) as Hk4.
    rewrite Hsubmit in Hk4. simpl in Hk4.
    assert (Hflag4 : m_framebufferResized s4 = true).
    { rewrite (fk_framebufferResized _ _ Hk4), (fk_framebufferResized _ _ Hk3), Hs2. simpl.
      now rewrite (fk_framebufferResized _ _ Hk1). }
    assert (Hsize4 : framebufferSize s4 = framebufferSize s).
    { rewrite (fk_framebufferSize _ _ Hk4), (fk_framebufferSize _ _ Hk3), Hs2. simpl.
      exact (fk_framebufferSize _ _ Hk1). }
    destruct (DrawFrame_present_resized env imageIndex s4 s5 Hflag4 Hpresent)
      as (s0 & Hsize0 & Hflag0 & Hrun).
    destruct (RecreateSwapChain_result _ _ _ Hrun) as (Hchain & _ & _ & _ & Hextent & _).
    injection Hreturns as <-. cbn.
    split; [exact Hchain|]. split; [exact Hextent|].
    intros Hsize. pose proof (RecreateSwapChain_window (env_recreate env) s0) as Hw.
    rewrite Hrun in Hw. destruct Hw as [Hw1 Hw2]; [congruence|]. simpl in Hw1, Hw2.
    split; [congruence|]. rewrite bool_decide_eq_false_2 by exact Hfresh. congruence.
  - injection Hreturns as <-.
    destruct (DrawFrame_acquire_stale env s1 _ s2 Hresult Hacquire) as (s0 & [Hf0 Hs0] & Hrun).
    destruct (RecreateSwapChain_result _ _ _ Hrun) as (Hchain & _ & _ & _ & Hextent & _).
    split; [exact Hchain|]. split; [exact Hextent|].
    intros Hsize. pose proof (RecreateSwapChain_window (env_recreate env) s0) as Hw.
    rewrite Hrun in Hw. destruct Hw as [Hw1 Hw2].
    { rewrite Hs0, (fk_framebufferSize _ _ Hk1). exact Hsize. }
    simpl in Hw1, Hw2. rewrite bool_decide_eq_true_2 by exact Hresult.
    split.
    + rewrite Hw2, Hs0. exact (fk_framebufferSize _ _ Hk1).
    + rewrite Hw1, Hf0, (fk_framebufferResized _ _ Hk1). exact Hresized.
Qed.

Lemma X18_resize_handled_witness :
  let env := example_frame (VK_SUCCESS, 0%nat) VK_SUCCESS
                           (example_swapChain 2 200%N [201; 202; 203]%N) in
  let s := res_state (glfwPollEvents (Some (1024, 768)) example_state) in
  let s' := res_state (DrawFrame env s) in
  m_framebufferResized s = true
  /\ DrawFrame env s = Ok tt s'
  /\ m_swapChain example_state = 100%N
  /\ m_swapChain s' = 200%N
  /\ m_swapChainExtent s' = {| width := 800; height := 600 |}.
Proof.
  intros env s s'.
  assert (Hresized : m_framebufferResized s = true) by (vm_compute; reflexivity).
  assert (Hreturns : DrawFrame env s = Ok tt s') by (vm_compute; reflexivity).
  split; [exact Hresized|]. split; [exact Hreturns|]. split; [vm_compute; reflexivity|].
  destruct (X18_resize_handled env s s' Hresized Hreturns) as (Hchain & Hextent & _).
  split; [exact Hchain|]. rewrite Hextent. vm_compute. reflexivity.
Defined.

(** ** The selected device stays in place *)

Global Instance device_keeps_refl : Reflexive device_keeps.
Proof. intros s. reflexivity. Qed.

Global Instance device_keeps_trans : Transitive device_keeps.
Proof. intros s1 s2 s3 H1 H2. unfold device_keeps in *. congruence. Qed.

Lemma gpu_finish_device k s : device_keeps s (gpu_finish k s).
Proof. unfold gpu_finish, device_keeps. destruct (gpu_pending s !! k); reflexivity. Qed.

Ltac device_side := first [ apply gpu_finish_device | reflexivity ].

Ltac device_known :=
  first [ solve [eauto]
        | eapply respects_weaken; [apply rk_physicalDevice|solve [eauto with keeps]] ].

Ltac device_auto := respects_walk device_known device_side.

Lemma rebuild_keeps_device {A : Type} (m : M A) :
  respects rebuild_keeps m -> respects device_keeps m.
Proof. apply respects_weaken. intros s s'. apply rk_physicalDevice. Qed.

Lemma run_phase_device pc env : respects device_keeps (run_phase pc env).
Proof.
  pose proof (rebuild_keeps_device _ (glfwPollEvents_keeps (env_pollEvents env))).
  pose proof (rebuild_keeps_device _ (DrawFrame_acquire_keeps env)).
  pose proof (fun i => rebuild_keeps_device _ (DrawFrame_present_keeps env i)).
  destruct pc; cbn [run_phase];
    unfold DrawFrame_wait, vkWaitForFences, DrawFrame_record, vkResetFences,
      RecordCommandBuffer, DrawFrame_submit, vkQueueSubmit, DrawFrame_advance;
    device_auto.
Qed.

Lemma step_device cfg cfg' :
  step cfg cfg' -> m_physicalDevice (snd cfg') = m_physicalDevice (snd cfg).
Proof.
  intros Hstep. destruct Hstep as [pc s k Hk|pc env s pc' s' _ Hrun
    |pc env s what s' _ Hrun|pc env s s' _ Hrun|s]; simpl.
  - apply gpu_finish_device.
  - pose proof (run_phase_device pc env s) as H. now rewrite Hrun in H.
  - pose proof (run_phase_device pc env s) as H. now rewrite Hrun in H.
  - pose proof (run_phase_device pc env s) as H. now rewrite Hrun in H.
  - apply (rk_physicalDevice _ _ (vkDeviceWaitIdle_keeps s)).
Qed.

Lemma PickPhysicalDevice_selects devices s s' :
  m_physicalDevice s = None ->
  PickPhysicalDevice devices s = Ok tt s' ->
  exists pre device post,
    devices = pre ++ device :: post
    /\ Forall (fun d => ~ eligible d) pre
    /\ eligible device
    /\ m_physicalDevice s' = Some device.
Proof.
  intros Hnone. unfold PickPhysicalDevice, bind, throw_if.
  destruct (decide (0%nat = length devices)); [discriminate|]. cbn. rewrite Hnone.
  destruct (PickPhysicalDevice_loop_first devices None)
    as [(pre & device & post & Hsplit & Hpre & Hdev & Hsel)|[_ Hsel]];
    rewrite Hsel; [|discriminate].
  intros [= <-]. exists pre, device, post. split; [exact Hsplit|]. split.
  - eapply Forall_impl; [exact Hpre|]. intros d. apply IsDeviceSuitable_not_eligible.
  - split; [now apply IsDeviceSuitable_eligible|reflexivity].
Qed.

Lemma CreateSyncObjects_device env : respects device_keeps (CreateSyncObjects env).
Proof.
  assert (Hloop : forall n i, respects device_keeps (CreateSyncObjects_loop env n i)).
  { induction n as [|n IH]; intros i; simpl; unfold create_or_throw; device_auto. }
  unfold CreateSyncObjects. device_auto.
Qed.

(** Initialisation selects the first eligible device of the enumeration. *)
Lemma init_device ienv s0 :
  (InitWindow ienv;; InitVulkan ienv) HelloTriangleApplication = Ok tt s0 ->
  exists pre device post,
    init_devices ienv = pre ++ device :: post
    /\ Forall (fun d => ~ eligible d) pre
    /\ eligible device
    /\ m_physicalDevice s0 = Some device.
Proof.
  intros H. apply bind_Ok_inv in H as ([] & s1 & Hwindow & H). unfold InitVulkan in H.
  apply bind_Ok_inv in H as ([] & s2 & H2 & H).
  apply bind_Ok_inv in H as ([] & s3 & H3 & H).
  apply bind_Ok_inv in H as ([] & s4 & H4 & H).
  apply bind_Ok_inv in H as ([] & s5 & Hpick & H).
  assert (Hnone : m_physicalDevice s4 = None).
  { assert (Hr : respects device_keeps
                   (InitWindow ienv;; external_step (init_CreateInstance ienv);;
                    external_step (init_SetupDebugCallback ienv);;
                    external_step (init_CreateSurface ienv)))
      by (unfold InitWindow; device_auto).
    specialize (Hr HelloTriangleApplication).
    rewrite (bind_run_Ok _ _ _ _ _ Hwindow), (bind_run_Ok _ _ _ _ _ H2),
      (bind_run_Ok _ _ _ _ _ H3), H4 in Hr. exact Hr. }
  destruct (PickPhysicalDevice_selects _ _ _ Hnone Hpick)
    as (pre & device & post & Hsplit & Hpre & Hdev & Hsel).
  exists pre, device, post. repeat (split; [assumption|]).
  assert (Hr : respects device_keeps
                 (external_step (init_CreateLogicalDevice ienv);;
                  CreateSwapChain (init_swapChain ienv);;
                  CreateImageViews (init_swapChain ienv);;
                  CreateRenderPass ienv;;
                  CreateGraphicsPipeline ienv;;
                  CreateFramebuffers (init_swapChain ienv);;
                  CreateCommandPool ienv;;
                  CreateCommandBuffers ienv;;
                  CreateSyncObjects ienv)).
  { pose proof (CreateSyncObjects_device ienv).
    pose proof (rebuild_keeps_device _ (CreateSwapChain_keeps (init_swapChain ienv))).
    pose proof (rebuild_keeps_device _ (CreateImageViews_keeps (init_swapChain ienv))).
    pose proof (rebuild_keeps_device _ (CreateFramebuffers_keeps (init_swapChain ienv))).
    unfold CreateRenderPass, CreateGraphicsPipeline, CreateCommandPool, CreateCommandBuffers.
    device_auto. }
  specialize (Hr s5). rewrite H in Hr. unfold device_keeps in Hr. simpl in Hr. congruence.
Qed.

Lemma reachable_device pc s : reachable (pc, s) -> device_selected s.
Proof.
  intros (ienv & s0 & Hinit & Hsteps).
  destruct (init_device ienv s0 Hinit) as (_ & device & _ & _ & _ & Hdev & Hsel).
  exists device. split; [|exact Hdev]. rewrite <- Hsel.
  change (m_physicalDevice (snd (pc, s)) = m_physicalDevice (snd (PcPoll, s0))).
  clear -Hsteps. induction Hsteps as [|cfg1 cfg2 cfg3 Hstep _ IH]; [reflexivity|].
  rewrite IH. now apply step_device.
Qed.

(** ** Which exceptions the running loop can see *)

Lemma bind_Throw_inv {A B : Type} (m : M A) (k : A -> M B) s what s' :
  bind m k s = Throw what s' ->
  m s = Throw what s' \/ exists a s1, m s = Ok a s1 /\ k a s1 = Throw what s'.
Proof.
  unfold bind. destruct (m s) as [a s1|what1 s1|s1]; [eauto| |discriminate].
  intros [= <- <-]. now left.
Qed.

Lemma CreateSwapChain_selected_throws env s what s' :
  device_selected s -> CreateSwapChain env s = Throw what s' ->
  what = "failed to create swap chain".
Proof.
  intros (device & Hdevice & Heligible).
  destruct (eligible_indices device Heligible) as (g & p & Hg & Hp).
  unfold CreateSwapChain. rewrite bind_get_run. cbv zeta. rewrite Hdevice, Hg, Hp.
  unfold optional_value. rewrite !bind_ret_run, bind_emit_run, bind_modify_run.
  unfold throw_if. destruct (decide _).
  - rewrite bind_throw_run. now intros [= <- _].
  - repeat run_step. discriminate.
Qed.

Lemma RecreateSwapChain_selected_throws env s what s' :
  device_selected s -> RecreateSwapChain env s = Throw what s' -> In what creation_errors.
Proof.
  intros Hsel. rewrite RecreateSwapChain_unfold.
  set (s0 := set_trace (trace s ++ [EvCall "RecreateSwapChain"]) s).
  pose proof (RecreateSwapChain_wait_keeps (env_waitEvents env) (framebufferSize s) s0) as Hk.
  pose proof (RecreateSwapChain_wait_no_throw (env_waitEvents env) (framebufferSize s) s0) as Hn.
  destruct (RecreateSwapChain_wait _ _ s0) as [[] s1|w s1|s1]; simpl in Hk.
  2:{ intros H. exfalso. eapply Hn. reflexivity. }
  2:{ discriminate. }
  pose proof (vkDeviceWaitIdle_keeps s1) as Hk2.
  set (s2 := res_state (vkDeviceWaitIdle s1)) in *.
  unfold bind at 1. rewrite CleanupSwapChain_run.
  assert (Hsel3 : device_selected (set_trace
                    (trace s2 ++ map EvDestroyFramebuffer (m_swapChainFramebuffers s2)
                       ++ map EvDestroyImageView (m_swapChainImageViews s2)
                       ++ [EvDestroySwapchain (m_swapChain s2)]) s2)).
  { destruct Hsel as (device & Hdevice & Heligible). exists device. split; [|exact Heligible].
    simpl. rewrite (rk_physicalDevice _ _ Hk2), (rk_physicalDevice _ _ Hk). exact Hdevice. }
  intros [H|(? & s4 & _ & H)]%bind_Throw_inv.
  - apply (CreateSwapChain_selected_throws _ _ _ _ Hsel3) in H. subst what.
    unfold creation_errors. in_list.
  - apply bind_Throw_inv in H as [H|(? & s5 & _ & H)].
    + apply CreateImageViews_throws in H. destruct H as [<-|[]].
      unfold creation_errors. in_list.
    + apply CreateFramebuffers_throws in H. destruct H as [<-|[]].
      unfold creation_errors. in_list.
Qed.

Lemma DrawFrame_wait_no_throw s what s' : slots_ready s -> DrawFrame_wait s <> Throw what s'.
Proof.
  intros (_ & _ & Hf). unfold DrawFrame_wait, vkWaitForFences.
  rewrite bind_get_run, bind_vector_at_run.
  destruct (m_inFlightFences s !! m_currentFrame s) eqn:Hl.
  2:{ apply lookup_ge_None in Hl. lia. }
  rewrite bind_emit_run, bind_get_run.
  destruct (default false _); [discriminate|].
  destruct (list_find _ _) as [[k sub]|]; discriminate.
Qed.

Lemma DrawFrame_acquire_selected_throws env s what s' :
  device_selected s -> DrawFrame_acquire env s = Throw what s' ->
  slots_ready s ->
  In what ("failed to acquire swap chain image" :: creation_errors).
Proof.
  intros Hsel H (Ha & _ & _). revert H. unfold DrawFrame_acquire.
  rewrite bind_get_run, bind_vector_at_run.
  destruct (m_imageAvailableSemaphores s !! m_currentFrame s) eqn:Hl.
  2:{ apply lookup_ge_None in Hl. lia. }
  rewrite bind_emit_run. destruct (decide _).
  - intros [H|(? & ? & _ & H)]%bind_Throw_inv; [|discriminate]. right.
    eapply RecreateSwapChain_selected_throws; [|exact H].
    destruct Hsel as (device & Hdevice & Heligible). exists device. auto.
  - destruct (decide _); [|discriminate]. intros [= <- _]. now left.
Qed.

Lemma RecordCommandBuffer_throws env commandBuffer framebuffer :
  throws ["failed to begin recording command buffer"; "failed to record command buffer"]
         (RecordCommandBuffer env commandBuffer framebuffer).
Proof. unfold RecordCommandBuffer. throws_auto. Qed.

Lemma DrawFrame_record_selected_throws env imageIndex s what s' :
  slots_ready s -> DrawFrame_record env imageIndex s = Throw what s' ->
  (what = "std::out_of_range"
   /\ ((length (m_commandBuffers s) <= imageIndex)%nat
       \/ (length (m_swapChainFramebuffers s) <= imageIndex)%nat))
  \/ In what ["failed to begin recording command buffer"; "failed to record command buffer"].
Proof.
  intros (_ & _ & Hf). unfold DrawFrame_record, vkResetFences.
  rewrite bind_get_run, bind_vector_at_run.
  destruct (m_inFlightFences s !! m_currentFrame s) eqn:Hl.
  2:{ apply lookup_ge_None in Hl. lia. }
  do 3 run_step. rewrite bind_vector_at_run.
  destruct (m_commandBuffers s !! imageIndex) as [commandBuffer|] eqn:Hcb.
  2:{ intros [= <- _]. left. split; [reflexivity|]. left. now apply lookup_ge_None. }
  rewrite bind_emit_run, bind_vector_at_run, Hcb, bind_vector_at_run.
  destruct (m_swapChainFramebuffers s !! imageIndex) as [framebuffer|] eqn:Hfb.
  2:{ intros [= <- _]. left. split; [reflexivity|]. right. now apply lookup_ge_None. }
  intros H. right. eapply RecordCommandBuffer_throws. exact H.
Qed.

Lemma DrawFrame_submit_selected_throws env imageIndex s what s' :
  slots_ready s -> DrawFrame_submit env imageIndex s = Throw what s' ->
  what = "failed to submit draw command buffer".
Proof.
  intros (Ha & Hr & Hf). unfold DrawFrame_submit, vkQueueSubmit.
  rewrite bind_get_run, bind_vector_at_run.
  destruct (m_imageAvailableSemaphores s !! m_currentFrame s) eqn:Hl1.
  2:{ apply lookup_ge_None in Hl1. lia. }
  rewrite bind_vector_at_run.
  destruct (m_renderFinishedSemaphores s !! m_currentFrame s) eqn:Hl2.
  2:{ apply lookup_ge_None in Hl2. lia. }
  rewrite bind_vector_at_run.
  destruct (m_inFlightFences s !! m_currentFrame s) eqn:Hl3.
  2:{ apply lookup_ge_None in Hl3. lia. }
  repeat run_step. unfold throw_if.
  destruct (decide (VK_SUCCESS = env_queueSubmit env)); repeat run_step;
    (destruct (decide _); [now intros [= <- _]|discriminate]).
Qed.

Lemma DrawFrame_present_selected_throws env imageIndex s what s' :
  device_selected s -> slots_ready s ->
  DrawFrame_present env imageIndex s = Throw what s' ->
  In what ("failed to presend swap chain image" :: creation_errors).
Proof.
  intros Hsel (_ & Hr & _). unfold DrawFrame_present.
  rewrite bind_get_run, bind_vector_at_run.
  destruct (m_renderFinishedSemaphores s !! m_currentFrame s) eqn:Hl.
  2:{ apply lookup_ge_None in Hl. lia. }
  rewrite bind_emit_run. destruct (decide _).
  - rewrite bind_modify_run. intros H. right.
    eapply RecreateSwapChain_selected_throws; [|exact H].
    destruct Hsel as (device & Hdevice & Heligible). exists device. auto.
  - unfold throw_if. destruct (decide _); [|discriminate]. intros [= <- _]. now left.
Qed.

Lemma slots_ready_frame_keeps s s' : frame_keeps s s' -> slots_ready s -> slots_ready s'.
Proof.
  intros Hk (Ha & Hr & Hf). unfold slots_ready.
  rewrite (fk_currentFrame _ _ Hk), (fk_imageAvailable _ _ Hk), (fk_renderFinished _ _ Hk),
    (fk_fences_length _ _ Hk). auto.
Qed.

Lemma sync_inv_slots_ready s : sync_inv s -> slots_ready s.
Proof. intros [Hf Ha Hr Hc _ _]. unfold slots_ready. rewrite Hf, Ha, Hr. auto. Qed.

Lemma device_selected_keeps s s' : device_keeps s s' -> device_selected s -> device_selected s'.
Proof. intros Hk (device & Hdevice & Heligible). exists device. split; [congruence|assumption]. Qed.

Lemma creation_errors_distinct what :
  In what creation_errors -> what <> "std::out_of_range" /\ what <> "std::bad_optional_access".
Proof. intros [<-|[<-|[<-|[]]]]; split; discriminate. Qed.

Lemma DrawFrame_running_throws (env : FrameEnv) (s s' : State) (what : string)
    (Hreach : reachable (PcWait, s))
    (Hthrown : DrawFrame env s = Throw what s') :
  what <> "std::bad_optional_access"
  /\ (what = "std::out_of_range" ->
      fst (env_acquire env) <> VK_ERROR_OUT_OF_DATE_KHR
      /\ ((length (m_commandBuffers s) <= snd (env_acquire env))%nat
          \/ (length (m_swapChainFramebuffers s) <= snd (env_acquire env))%nat)).
Proof.
  destruct (reachable_inv _ _ Hreach) as [Hinv _].
  pose proof (reachable_device _ _ Hreach) as Hsel.
  pose proof (sync_inv_slots_ready s Hinv) as Hready.
  unfold DrawFrame in Hthrown.
  apply bind_Throw_inv in Hthrown as [H|([] & s1 & Hwait & Hthrown)].
  { now apply DrawFrame_wait_no_throw in H. }
  pose proof (DrawFrame_wait_frame_keeps s) as Hk1. rewrite Hwait in Hk1. simpl in Hk1.
  assert (Hsel1 : device_selected s1).
  { eapply device_selected_keeps; [|exact Hsel].
    pose proof (run_phase_device PcWait env s) as Hd. cbn [run_phase] in Hd.
    now rewrite (bind_run_Ok _ _ _ _ _ Hwait) in Hd. }
  pose proof (slots_ready_frame_keeps _ _ Hk1 Hready) as Hready1.
  apply bind_Throw_inv in Hthrown as [H|(acquired & s2 & Hacquire & Hthrown)].
  { apply (DrawFrame_acquire_selected_throws env s1 what s' Hsel1) in H; [|exact Hready1].
    destruct H as [<-|H]; [split; discriminate|].
    apply creation_errors_distinct in H as [H1 H2]. split; [exact H2|contradiction]. }
  pose proof (DrawFrame_acquire_result env s1 _ s2 Hacquire) as Hresult.
  destruct acquired as [imageIndex|]; [|discriminate].
  destruct Hresult as (-> & Hfresh & Hs2).
  assert (Hk2 : frame_keeps s1 s2) by (rewrite Hs2; frame_side).
  assert (Hsel2 : device_selected s2)
    by (rewrite Hs2; destruct Hsel1 as (d & ? & ?); exists d; auto).
  pose proof (slots_ready_frame_keeps _ _ Hk2 Hready1) as Hready2.
  apply bind_Throw_inv in Hthrown as [H|([] & s3 & Hrecord & Hthrown)].
  { apply (DrawFrame_record_selected_throws env _ s2 what s' Hready2) in H.
    destruct H as [[-> Hrange]|[<-|[<-|[]]]]; try (split; discriminate).
    split; [discriminate|]. intros _. split; [exact Hfresh|].
    rewrite <- (fk_commandBuffers _ _ Hk1), <- (fk_commandBuffers _ _ Hk2),
      <- (fk_swapChainFramebuffers _ _ Hk1), <- (fk_swapChainFramebuffers _ _ Hk2).
    exact Hrange. }
  pose proof (DrawFrame_record_frame_keeps env (snd (env_acquire env)) s2) as Hk3.
  rewrite Hrecord in Hk3. simpl in Hk3.
  pose proof (slots_ready_frame_keeps _ _ Hk3 Hready2) as Hready3.
  assert (Hsel3 : device_selected s3).
  { eapply device_selected_keeps; [|exact Hsel2].
    pose proof (run_phase_device (PcRecord (snd (env_acquire env))) env s2) as Hd.
    cbn [run_phase] in Hd. now rewrite (bind_run_Ok _ _ _ _ _ Hrecord) in Hd. }
  apply bind_Throw_inv in Hthrown as [H|([] & s4 & Hsubmit & Hthrown)].
  { apply (DrawFrame_submit_selected_throws env _ s3 what s' Hready3) in H. subst what.
    split; discriminate. }
  pose proof (DrawFrame_submit_frame_keeps env (snd (env_acquire env)) s3) as Hk4.
  rewrite Hsubmit in Hk4. simpl in Hk4.
  pose proof (slots_ready_frame_keeps _ _ Hk4 Hready3) as Hready4.
  assert (Hsel4 : device_selected s4).
  { eapply device_selected_keeps; [|exact Hsel3].
    pose proof (run_phase_device (PcSubmit (snd (env_acquire env))) env s3) as Hd.
    cbn [run_phase] in Hd. now rewrite (bind_run_Ok _ _ _ _ _ Hsubmit) in Hd. }
  apply bind_Throw_inv in Hthrown as [H|([] & s5 & Hpresent & Hthrown)]; [|discriminate].
  apply (DrawFrame_present_selected_throws env _ s4 what s' Hsel4 Hready4) in H.
  destruct H as [<-|H]; [split; discriminate|].
  apply creation_errors_distinct in H as [H1 H2]. split; [exact H2|contradiction].
Qed.

(** X19: in the running loop, [DrawFrame] is never left by
    [std::bad_optional_access], and it is left by [std::out_of_range] only
    when the image index that acquisition returned has no command buffer or
    no framebuffer: the per-slot vectors are always long enough. *)
Theorem X19_running_loop_exceptions (env : FrameEnv) (s s' : State) (what : string)
    (Hreach : reachable (PcWait, s))
    (Hthrown : DrawFrame env s = Throw what s') :
  what <> "std::bad_optional_access"
  /\ (what = "std::out_of_range" ->
      fst (env_acquire env) <> VK_ERROR_OUT_OF_DATE_KHR
      /\ ((length (m_commandBuffers s) <= snd (env_acquire env))%nat
          \/ (length (m_swapChainFramebuffers s) <= snd (env_acquire env))%nat)).
Proof. exact (DrawFrame_running_throws env s s' what Hreach Hthrown). Qed.

Lemma X19_running_loop_exceptions_witness :
  let s := res_state (glfwPollEvents None example_resized) in
  let s' := res_state (DrawFrame example_fourth_image_frame s) in
  reachable (PcWait, s)
  /\ DrawFrame example_fourth_image_frame s = Throw "std::out_of_range" s'
  /\ ((length (m_commandBuffers s) <= 3)%nat
      \/ (length (m_swapChainFramebuffers s) <= 3)%nat).
Proof.
  intros s s'.
  assert (Hreach : reachable (PcWait, s)).
  { exists example_init, example_state. split; [vm_compute; reflexivity|].
    eapply rtc_trans.
    - apply (frame_steps example_resize_frame example_state example_polled1 example_resized);
        vm_compute; reflexivity.
    - apply rtc_once. apply (step_cpu PcPoll example_fourth_image_frame); [discriminate|].
      vm_compute. reflexivity. }
  assert (Hthrown : DrawFrame example_fourth_image_frame s = Throw "std::out_of_range" s')
    by (vm_compute; reflexivity).
  split; [exact Hreach|]. split; [exact Hthrown|].
  destruct (X19_running_loop_exceptions _ s s' _ Hreach Hthrown) as [_ Hrange].
  exact (proj2 (Hrange eq_refl)).
Defined.

(** ** A frame that is presented *)

(** Projections of updated states, one layer at a time. *)
Ltac fields :=
  cbn [m_physicalDevice m_swapChain m_swapChainImages m_swapChainImageFormat m_swapChainExtent
       m_swapChainImageViews m_renderPass m_pipelineLayout m_graphicsPipeline
       m_swapChainFramebuffers m_commandPool m_commandBuffers m_imageAvailableSemaphores
       m_renderFinishedSemaphores m_inFlightFences m_currentFrame m_framebufferResized
       framebufferSize gpu_pending trace
       set_m_physicalDevice set_m_swapChain set_m_swapChainImages set_m_swapChainImageFormat
       set_m_swapChainExtent set_m_swapChainImageViews set_m_renderPass set_m_pipelineLayout
       set_m_graphicsPipeline set_m_swapChainFramebuffers set_m_commandPool set_m_commandBuffers
       set_m_imageAvailableSemaphores set_m_renderFinishedSemaphores set_m_inFlightFences
       set_m_currentFrame set_m_framebufferResized set_framebufferSize set_gpu_pending
       set_trace].


Lemma DrawFrame_acquire_usable env s semaphore :
  m_imageAvailableSemaphores s !! m_currentFrame s = Some semaphore ->
  fst (env_acquire env) = VK_SUCCESS \/ fst (env_acquire env) = VK_SUBOPTIMAL_KHR ->
  DrawFrame_acquire env s
  = Ok (Some (snd (env_acquire env)))
       (set_trace (trace s ++ [EvAcquireNextImage (m_swapChain s) semaphore]) s).
Proof.
  intros Hs Hr. unfold DrawFrame_acquire.
  rewrite bind_get_run, bind_vector_at_run, Hs, bind_emit_run.
  destruct (decide (VK_ERROR_OUT_OF_DATE_KHR = fst (env_acquire env))) as [Heq|_].
  { destruct Hr as [Hr|Hr]; rewrite Hr in Heq; discriminate. }
  destruct (decide _) as [[H1 H2]|_]; [|reflexivity].
  destruct Hr as [Hr|Hr]; congruence.
Qed.

Lemma DrawFrame_record_run env imageIndex s signaled commandBuffer framebuffer :
  m_inFlightFences s !! m_currentFrame s = Some signaled ->
  m_commandBuffers s !! imageIndex = Some commandBuffer ->
  m_swapChainFramebuffers s !! imageIndex = Some framebuffer ->
  env_beginCommandBuffer env = VK_SUCCESS ->
  env_endCommandBuffer env = VK_SUCCESS ->
  DrawFrame_record env imageIndex s
  = Ok tt
      (set_trace
         (trace s ++
          [EvResetFences (m_currentFrame s);
           EvResetCommandBuffer commandBuffer;
           EvBeginCommandBuffer commandBuffer;
           EvCmd commandBuffer
             (CmdBeginRenderPass (m_renderPass s) framebuffer (m_swapChainExtent s));
           EvCmd commandBuffer (CmdBindPipeline (m_graphicsPipeline s));
           EvCmd commandBuffer (CmdSetViewport (m_swapChainExtent s));
           EvCmd commandBuffer (CmdSetScissor (m_swapChainExtent s));
           EvCmd commandBuffer (CmdDraw 3 1 0 0);
           EvCmd commandBuffer CmdEndRenderPass;
           EvEndCommandBuffer commandBuffer])
         (set_m_inFlightFences (<[m_currentFrame s := false]> (m_inFlightFences s)) s)).
Proof.
  intros Hf Hcb Hfb Hbegin Hend.
  unfold DrawFrame_record, vkResetFences, RecordCommandBuffer, throw_if.
  rewrite Hbegin, Hend.
  destruct (decide (VK_SUCCESS ≠ VK_SUCCESS)) as [Hne|_]; [congruence|].
  rewrite bind_get_run, bind_vector_at_run, Hf. do 3 run_step.
  rewrite bind_vector_at_run, Hcb, bind_emit_run, bind_vector_at_run, Hcb,
    bind_vector_at_run, Hfb.
  clear. destruct s. fields.
  repeat (run_step; fields). unfold emit, modify, ret. fields.
  now rewrite <- !app_assoc.
Qed.

Lemma DrawFrame_submit_run env imageIndex s waitSemaphore signalSemaphore signaled :
  m_imageAvailableSemaphores s !! m_currentFrame s = Some waitSemaphore ->
  m_renderFinishedSemaphores s !! m_currentFrame s = Some signalSemaphore ->
  m_inFlightFences s !! m_currentFrame s = Some signaled ->
  env_queueSubmit env = VK_SUCCESS ->
  DrawFrame_submit env imageIndex s
  = Ok tt
      (set_gpu_pending
         (gpu_pending s ++
          [{| sub_fence := m_currentFrame s;
              sub_commandBuffer := default VK_NULL_HANDLE (m_commandBuffers s !! imageIndex) |}])
         (set_trace
            (trace s ++
             [EvQueueSubmit waitSemaphore
                (default VK_NULL_HANDLE (m_commandBuffers s !! imageIndex))
                signalSemaphore (m_currentFrame s)]) s)).
Proof.
  intros Ha Hr Hf Hsubmit. unfold DrawFrame_submit, vkQueueSubmit, throw_if.
  rewrite Hsubmit.
  destruct (decide (VK_SUCCESS ≠ VK_SUCCESS)) as [Hne|_]; [congruence|].
  destruct (decide (VK_SUCCESS = VK_SUCCESS)) as [_|Hne]; [|congruence].
  rewrite bind_get_run, bind_vector_at_run, Ha, bind_vector_at_run, Hr, bind_vector_at_run, Hf.
  repeat run_step. reflexivity.
Qed.

Lemma DrawFrame_present_run env imageIndex s waitSemaphore :
  m_renderFinishedSemaphores s !! m_currentFrame s = Some waitSemaphore ->
  env_queuePresent env = VK_SUCCESS ->
  m_framebufferResized s = false ->
  DrawFrame_present env imageIndex s
  = Ok tt (set_trace (trace s ++ [EvQueuePresent waitSemaphore (m_swapChain s) imageIndex]) s).
Proof.
  intros Hr Hpresent Hflag. unfold DrawFrame_present, throw_if.
  rewrite bind_get_run, bind_vector_at_run, Hr, bind_emit_run, Hpresent, Hflag.
  destruct (decide _) as [[H|[H|H]]|_]; try discriminate.
  destruct (decide (VK_SUCCESS ≠ VK_SUCCESS)) as [Hne|_]; [congruence|]. reflexivity.
Qed.

(** X20: with the fence of the current slot signalled, the resize flag
    clear, an acquisition that hands out an image for which there are a
    command buffer and a framebuffer, and a driver that accepts every call,
    [DrawFrame] returns after exactly these calls, in this order: the fence
    wait, the acquisition signalling the slot's image-available semaphore,
    the fence reset, the reset and the recording of the image's command
    buffer, one submit that waits on the image-available semaphore and
    signals the slot's render-finished semaphore and fence, and the
    presentation waiting on that render-finished semaphore.  The GPU queue
    has grown by this one submission, the slot's fence is unsignalled, and
    the frame index has moved on. *)
Theorem X20_presented_frame (env : FrameEnv) (s : State)
    (imageAvailable renderFinished commandBuffer framebuffer : handle)
    (Hfence : m_inFlightFences s !! m_currentFrame s = Some true)
    (Hia : m_imageAvailableSemaphores s !! m_currentFrame s = Some imageAvailable)
    (Hrf : m_renderFinishedSemaphores s !! m_currentFrame s = Some renderFinished)
    (Hcb : m_commandBuffers s !! snd (env_acquire env) = Some commandBuffer)
    (Hfb : m_swapChainFramebuffers s !! snd (env_acquire env) = Some framebuffer)
    (Hacquire : fst (env_acquire env) = VK_SUCCESS \/ fst (env_acquire env) = VK_SUBOPTIMAL_KHR)
    (Hbegin : env_beginCommandBuffer env = VK_SUCCESS)
    (Hend : env_endCommandBuffer env = VK_SUCCESS)
    (Hsubmit : env_queueSubmit env = VK_SUCCESS)
    (Hpresent : env_queuePresent env = VK_SUCCESS)
    (Hflag : m_framebufferResized s = false) :
  exists s',
    DrawFrame env s = Ok tt s'
    /\ emitted s s'
       = [EvWaitForFences (m_currentFrame s);
          EvAcquireNextImage (m_swapChain s) imageAvailable;
          EvResetFences (m_currentFrame s);
          EvResetCommandBuffer commandBuffer;
          EvBeginCommandBuffer commandBuffer;
          EvCmd commandBuffer
            (CmdBeginRenderPass (m_renderPass s) framebuffer (m_swapChainExtent s));
          EvCmd commandBuffer (CmdBindPipeline (m_graphicsPipeline s));
          EvCmd commandBuffer (CmdSetViewport (m_swapChainExtent s));
          EvCmd commandBuffer (CmdSetScissor (m_swapChainExtent s));
          EvCmd commandBuffer (CmdDraw 3 1 0 0);
          EvCmd commandBuffer CmdEndRenderPass;
          EvEndCommandBuffer commandBuffer;
          EvQueueSubmit imageAvailable commandBuffer renderFinished (m_currentFrame s);
          EvQueuePresent renderFinished (m_swapChain s) (snd (env_acquire env))]
    /\ gpu_pending s'
       = gpu_pending s ++ [{| sub_fence := m_currentFrame s;
                              sub_commandBuffer := commandBuffer |}]
    /\ m_inFlightFences s' = <[m_currentFrame s := false]> (m_inFlightFences s)
    /\ m_currentFrame s' = ((m_currentFrame s + 1) mod MAX_FRAMES_IN_FLIGHT)%nat.
Proof.
  pose proof (DrawFrame_wait_signaled s Hfence) as H1.
  set (s1 := set_trace (trace s ++ [EvWaitForFences (m_currentFrame s)]) s) in H1.
  pose proof (DrawFrame_acquire_usable env s1 imageAvailable Hia Hacquire) as H2.
  set (s2 := set_trace _ s1) in H2.
  pose proof (DrawFrame_record_run env (snd (env_acquire env)) s2 true commandBuffer framebuffer
                Hfence Hcb Hfb Hbegin Hend) as H3.
  set (s3 := set_trace _ _) in H3.
  assert (Hfence3 : m_inFlightFences s3 !! m_currentFrame s3 = Some false).
  { subst s3 s2 s1. cbn. apply list_lookup_insert_eq. eapply lookup_lt_Some. exact Hfence. }
  pose proof (DrawFrame_submit_run env (snd (env_acquire env)) s3 imageAvailable renderFinished
                false Hia Hrf Hfence3 Hsubmit) as H4.
  set (s4 := set_gpu_pending _ _) in H4.
  pose proof (DrawFrame_present_run env (snd (env_acquire env)) s4 renderFinished
                Hrf Hpresent Hflag) as H5.
  set (s5 := set_trace _ s4) in H5.
  exists (set_m_currentFrame ((m_currentFrame s5 + 1) mod MAX_FRAMES_IN_FLIGHT)%nat s5).
  split.
  { unfold DrawFrame.
    rewrite (bind_run_Ok _ _ _ _ _ H1), (bind_run_Ok _ _ _ _ _ H2), (bind_run_Ok _ _ _ _ _ H3),
      (bind_run_Ok _ _ _ _ _ H4), (bind_run_Ok _ _ _ _ _ H5). reflexivity. }
  assert (Hcb3 : m_commandBuffers s3 !! snd (env_acquire env) = Some commandBuffer)
    by exact Hcb.
  subst s5. fields. subst s4. fields. rewrite Hcb3. subst s3. fields.
  subst s2. fields. subst s1. fields. cbn [default].
  split; [|auto]. apply emitted_app. now rewrite <- !app_assoc.
Qed.

Lemma X20_presented_frame_witness :
  exists s',
    DrawFrame example_frame1 example_state = Ok tt s'
    /\ gpu_pending s' = [{| sub_fence := 0; sub_commandBuffer := 50%N |}]
    /\ m_inFlightFences s' = [false; true].
Proof.
  destruct (X20_presented_frame example_frame1 example_state 60%N 70%N 50%N 120%N)
    as (s' & Hrun & _ & Hpending & Hfences & _);
    try (vm_compute; reflexivity).
  { left. reflexivity. }
  exists s'. split; [exact Hrun|]. split; [exact Hpending|exact Hfences].
Defined.

(** ** The state in which the main loop is entered *)

Lemma init_tail_chain ienv :
  respects chain_keeps
    (CreateCommandPool ienv;; CreateCommandBuffers ienv;; CreateSyncObjects ienv).
Proof.
  assert (Hloop : forall n i, respects chain_keeps (CreateSyncObjects_loop ienv n i)).
  { induction n as [|n IH]; intros i; simpl; unfold create_or_throw;
      respects_walk ltac:(solve [eauto]) keeps_side. }
  unfold CreateCommandPool, CreateCommandBuffers, CreateSyncObjects.
  respects_walk ltac:(solve [eauto]) keeps_side.
Qed.

Lemma InitVulkan_window ienv : respects window_keeps (InitVulkan ienv).
Proof.
  assert (H1 : forall images i,
             respects window_keeps (CreateImageViews_loop (init_swapChain ienv) images i))
    by (induction images as [|image images IH]; intros i; simpl; window_auto).
  assert (H2 : forall views i,
             respects window_keeps (CreateFramebuffers_loop (init_swapChain ienv) views i))
    by (induction views as [|view views IH]; intros i; simpl; window_auto).
  assert (H3 : forall n i, respects window_keeps (CreateSyncObjects_loop ienv n i))
    by (induction n as [|n IH]; intros i; simpl; unfold create_or_throw; window_auto).
  unfold InitVulkan, PickPhysicalDevice, CreateSwapChain, CreateImageViews, CreateRenderPass,
    CreateGraphicsPipeline, CreateFramebuffers, CreateCommandPool, CreateCommandBuffers,
    CreateSyncObjects.
  window_auto.
Qed.

Lemma init_state (ienv : InitEnv) (s0 : State)
    (Hinit : (InitWindow ienv;; InitVulkan ienv) HelloTriangleApplication = Ok tt s0) :
  let chain := init_swapChain ienv in
  let n := length (env_swapchainImages chain) in
  (exists pre device post,
      init_devices ienv = pre ++ device :: post
      /\ Forall (fun d => ~ eligible d) pre
      /\ eligible device
      /\ m_physicalDevice s0 = Some device)
  /\ m_swapChainImages s0 = env_swapchainImages chain
  /\ m_swapChainImageViews s0 = map (fun i => snd (env_createImageView chain i)) (seq 0 n)
  /\ m_swapChainFramebuffers s0 = map (fun i => snd (env_createFramebuffer chain i)) (seq 0 n)
  /\ length (m_commandBuffers s0) = n
  /\ m_inFlightFences s0 = [true; true]
  /\ gpu_pending s0 = []
  /\ m_currentFrame s0 = 0%nat
  /\ m_framebufferResized s0 = false
  /\ framebufferSize s0 = init_framebufferSize ienv.
Proof.
  intros chain n.
  split; [exact (init_device ienv s0 Hinit)|].
  pose proof (init_command_buffers ienv s0 Hinit) as Hbuffers.
  pose proof (init_fences ienv s0 Hinit) as Hfences.
  destruct (init_idle ienv HelloTriangleApplication) as [Hidle Hcur].
  rewrite Hinit in Hidle, Hcur. simpl in Hidle, Hcur.
  apply bind_Ok_inv in Hinit as ([] & s1 & Hwindow & H).
  pose proof (InitVulkan_window ienv s1) as Hw. rewrite H in Hw. destruct Hw as [Hflag Hsize].
  simpl in Hflag, Hsize.
  assert (Hs1 : m_framebufferResized s1 = false
                /\ framebufferSize s1 = init_framebufferSize ienv).
  { revert Hwindow. unfold InitWindow, throw_if.
    destruct (decide _); [discriminate|]. rewrite bind_ret_run. intros [= <-]. auto. }
  unfold InitVulkan in H.
  do 5 (apply bind_Ok_inv in H as (? & ? & _ & H)).
  apply bind_Ok_inv in H as ([] & sa & Hchain & H).
  apply bind_Ok_inv in H as ([] & sb & Hviews & H).
  apply bind_Ok_inv in H as ([] & sc & Hpass & H).
  apply bind_Ok_inv in H as ([] & sd & Hpipe & H).
  apply bind_Ok_inv in H as ([] & se & Hfbs & H).
  destruct (CreateSwapChain_images _ _ _ Hchain) as (Himages & _).
  apply CreateImageViews_Ok_inv in Hviews. apply CreateFramebuffers_Ok_inv in Hfbs.
  assert (Hbd : chain_keeps sb sd).
  { assert (Hr : respects chain_keeps (CreateRenderPass ienv;; CreateGraphicsPipeline ienv))
      by (unfold CreateRenderPass, CreateGraphicsPipeline;
          respects_walk ltac:(solve [eauto]) keeps_side).
    specialize (Hr sb). now rewrite (bind_run_Ok _ _ _ _ _ Hpass), Hpipe in Hr. }
  pose proof (init_tail_chain ienv se) as He0. rewrite H in He0. simpl in He0.
  destruct Hbd as [_ Bi Bv _], He0 as [_ Ei Ev Ef].
  assert (Hi0 : m_swapChainImages s0 = env_swapchainImages chain).
  { rewrite Ei, Hfbs. cbn. rewrite Bi, Hviews. cbn. exact Himages. }
  assert (Hv0 : m_swapChainImageViews s0
                = map (fun i => snd (env_createImageView chain i)) (seq 0 n)).
  { rewrite Ev, Hfbs. cbn. rewrite Bv, Hviews. cbn. now rewrite Himages. }
  split; [exact Hi0|]. split; [exact Hv0|]. split.
  { rewrite Ef, Hfbs. cbn. rewrite Bv, Hviews. cbn.
    now rewrite length_map, length_seq, Himages. }
  split; [now rewrite Hbuffers, Hi0|]. split; [exact Hfences|].
  split; [now apply Hidle|]. split; [exact Hcur|].
  destruct Hs1 as [Hf1 Hz1]. split; congruence.
Qed.

(** X21: when initialisation has succeeded, the main loop starts with the
    first eligible device of the enumeration selected, the images of the
    swap chain the driver reported, one image view, one framebuffer and one
    command buffer per image, the views and framebuffers being the handles
    the driver returned in the order of the images, both fences signalled,
    nothing in the GPU queue, frame index 0, the resize flag clear and the
    window size GLFW reported. *)
Theorem X21_initialised (ienv : InitEnv) (s0 : State)
    (Hinit : (InitWindow ienv;; InitVulkan ienv) HelloTriangleApplication = Ok tt s0) :
  let chain := init_swapChain ienv in
  let n := length (env_swapchainImages chain) in
  (exists pre device post,
      init_devices ienv = pre ++ device :: post
      /\ Forall (fun d => ~ eligible d) pre
      /\ eligible device
      /\ m_physicalDevice s0 = Some device)
  /\ m_swapChainImages s0 = env_swapchainImages chain
  /\ m_swapChainImageViews s0 = map (fun i => snd (env_createImageView chain i)) (seq 0 n)
  /\ m_swapChainFramebuffers s0 = map (fun i => snd (env_createFramebuffer chain i)) (seq 0 n)
  /\ length (m_commandBuffers s0) = n
  /\ m_inFlightFences s0 = [true; true]
  /\ gpu_pending s0 = []
  /\ m_currentFrame s0 = 0%nat
  /\ m_framebufferResized s0 = false
  /\ framebufferSize s0 = init_framebufferSize ienv.
Proof. exact (init_state ienv s0 Hinit). Qed.

Lemma X21_initialised_witness :
  (InitWindow example_init;; InitVulkan example_init) HelloTriangleApplication
  = Ok tt example_state
  /\ m_swapChainImageViews example_state = [110; 111; 112]%N
  /\ m_swapChainFramebuffers example_state = [120; 121; 122]%N
  /\ length (m_commandBuffers example_state) = 3%nat.
Proof.
  assert (Hinit : (InitWindow example_init;; InitVulkan example_init) HelloTriangleApplication
                  = Ok tt example_state) by (vm_compute; reflexivity).
  split; [exact Hinit|].
  destruct (X21_initialised example_init example_state Hinit)
    as (_ & _ & Hviews & Hfbs & Hbuffers & _).
  split; [exact Hviews|]. split; [exact Hfbs|exact Hbuffers].
Defined.

(** ** What the loop never touches *)

Global Instance objects_keep_refl : Reflexive objects_keep.
Proof. intros s. constructor; reflexivity. Qed.

Global Instance objects_keep_trans : Transitive objects_keep.
Proof. intros s1 s2 s3 [] []. constructor; congruence. Qed.

Lemma rebuild_keeps_objects s s' : rebuild_keeps s s' -> objects_keep s s'.
Proof. intros []. constructor; assumption. Qed.

Lemma gpu_finish_objects k s : objects_keep s (gpu_finish k s).
Proof. unfold gpu_finish. destruct (gpu_pending s !! k); constructor; reflexivity. Qed.

Ltac objects_side := first [ apply gpu_finish_objects | constructor; reflexivity ].

Lemma run_phase_objects pc env : respects objects_keep (run_phase pc env).
Proof.
  pose proof (respects_weaken _ _ _ rebuild_keeps_objects
                (glfwPollEvents_keeps (env_pollEvents env))).
  pose proof (respects_weaken _ _ _ rebuild_keeps_objects (DrawFrame_acquire_keeps env)).
  pose proof (fun i => respects_weaken _ _ _ rebuild_keeps_objects
                         (DrawFrame_present_keeps env i)).
  destruct pc; cbn [run_phase];
    unfold DrawFrame_wait, vkWaitForFences, DrawFrame_record, vkResetFences,
      RecordCommandBuffer, DrawFrame_submit, vkQueueSubmit, DrawFrame_advance;
    respects_walk ltac:(solve [eauto]) objects_side.
Qed.

Lemma step_objects cfg cfg' : step cfg cfg' -> objects_keep (snd cfg) (snd cfg').
Proof.
  intros Hstep. destruct Hstep as [pc s k Hk|pc env s pc' s' _ Hrun
    |pc env s what s' _ Hrun|pc env s s' _ Hrun|s]; simpl.
  - apply gpu_finish_objects.
  - pose proof (run_phase_objects pc env s) as H. now rewrite Hrun in H.
  - pose proof (run_phase_objects pc env s) as H. now rewrite Hrun in H.
  - pose proof (run_phase_objects pc env s) as H. now rewrite Hrun in H.
  - apply rebuild_keeps_objects, vkDeviceWaitIdle_keeps.
Qed.

(** X22: from the moment initialisation has returned, nothing the main loop
    does, no frame, no swap chain recreation and no GPU completion, changes
    the selected device, the render pass, the pipeline layout, the graphics
    pipeline, the command pool, the semaphores or the command buffers: in
    particular the command buffers are never allocated again. *)
Theorem X22_loop_keeps_objects (ienv : InitEnv) (s0 : State) (pc : Pc) (s : State)
    (Hinit : (InitWindow ienv;; InitVulkan ienv) HelloTriangleApplication = Ok tt s0)
    (Hsteps : rtc step (PcPoll, s0) (pc, s)) :
  m_physicalDevice s = m_physicalDevice s0
  /\ m_renderPass s = m_renderPass s0
  /\ m_pipelineLayout s = m_pipelineLayout s0
  /\ m_graphicsPipeline s = m_graphicsPipeline s0
  /\ m_commandPool s = m_commandPool s0
  /\ m_commandBuffers s = m_commandBuffers s0
  /\ m_imageAvailableSemaphores s = m_imageAvailableSemaphores s0
  /\ m_renderFinishedSemaphores s = m_renderFinishedSemaphores s0
  /\ length (m_commandBuffers s) = length (env_swapchainImages (init_swapChain ienv)).
Proof.
  assert (Hk : objects_keep (snd (PcPoll, s0)) (snd (pc, s))).
  { clear Hinit. induction Hsteps as [|cfg1 cfg2 cfg3 Hstep _ IH]; [reflexivity|].
    etransitivity; [|exact IH]. now apply step_objects. }
  destruct Hk as [H1 H2 H3 H4 H5 H6 H7 H8]. simpl in *.
  repeat (split; [assumption|]).
  rewrite H6. now destruct (init_state ienv s0 Hinit) as (_ & _ & _ & _ & Hbuffers & _).
Qed.

Lemma X22_loop_keeps_objects_witness :
  (InitWindow example_init;; InitVulkan example_init) HelloTriangleApplication
  = Ok tt example_state
  /\ rtc step (PcPoll, example_state) (PcPoll, example_resized)
  /\ length (m_swapChainImages example_resized) = 4%nat
  /\ m_commandBuffers example_resized = [50; 51; 52]%N.
Proof.
  assert (Hinit : (InitWindow example_init;; InitVulkan example_init) HelloTriangleApplication
                  = Ok tt example_state) by (vm_compute; reflexivity).
  assert (Hsteps : rtc step (PcPoll, example_state) (PcPoll, example_resized)).
  { apply (frame_steps example_resize_frame example_state example_polled1 example_resized);
      vm_compute; reflexivity. }
  split; [exact Hinit|]. split; [exact Hsteps|]. split; [vm_compute; reflexivity|].
  destruct (X22_loop_keeps_objects example_init example_state PcPoll example_resized
              Hinit Hsteps) as (_ & _ & _ & _ & _ & Hbuffers & _).
  rewrite Hbuffers. vm_compute. reflexivity.
Defined.

(** ** Image indices and the per-image vectors *)

Lemma gpu_finish_chain k s : chain_keeps s (gpu_finish k s).
Proof. unfold gpu_finish. destruct (gpu_pending s !! k); [keeps_side|reflexivity]. Qed.

Lemma chain_keeps_consistent s s' : chain_keeps s s' -> chain_consistent s -> chain_consistent s'.
Proof. intros [_ Hi Hv Hf] [H1 H2]. unfold chain_consistent. rewrite Hi, Hv, Hf. auto. Qed.

Lemma RecreateSwapChain_consistent env s s' :
  RecreateSwapChain env s = Ok tt s' -> chain_consistent s'.
Proof.
  intros H. destruct (RecreateSwapChain_result env s s' H) as (_ & Hi & Hv & Hf & _).
  unfold chain_consistent. now rewrite Hi, Hv, Hf, !length_map, !length_seq.
Qed.

Lemma DrawFrame_present_chain env imageIndex s s' :
  DrawFrame_present env imageIndex s = Ok tt s' ->
  chain_keeps s s' \/ exists s0, RecreateSwapChain (env_recreate env) s0 = Ok tt s'.
Proof.
  unfold DrawFrame_present. rewrite bind_get_run, bind_vector_at_run.
  destruct (m_renderFinishedSemaphores s !! m_currentFrame s); [|discriminate].
  rewrite bind_emit_run. destruct (decide _).
  - rewrite bind_modify_run. eauto.
  - unfold throw_if. destruct (decide _); [discriminate|]. intros [= <-]. left. keeps_side.
Qed.

Lemma run_phase_chain_inv pc env s pc' s' :
  chain_inv pc s -> run_phase pc env s = Ok pc' s' -> chain_inv pc' s'.
Proof.
  assert (Hside : forall m : M unit,
             respects chain_keeps m -> forall st st', m st = Ok tt st' ->
             chain_consistent st -> chain_consistent st').
  { intros m Hm st st' Hrun. apply chain_keeps_consistent.
    specialize (Hm st). now rewrite Hrun in Hm. }
  intros Hinv. destruct pc; cbn [run_phase].
  - intros ([] & Hrun & ->)%then_ret_Ok. simpl in *. revert Hinv. eapply Hside; [|exact Hrun].
    unfold glfwPollEvents, deliver_events, FramebufferResizeCallback.
    respects_walk ltac:(solve [eauto]) keeps_side.
  - intros ([] & Hrun & ->)%then_ret_Ok. simpl in *. revert Hinv. eapply Hside; [|exact Hrun].
    unfold DrawFrame_wait, vkWaitForFences.
    respects_walk ltac:(solve [eauto]) ltac:(first [apply gpu_finish_chain|keeps_side]).
  - intros (acquired & Hrun & ->)%then_ret_Ok. simpl in Hinv.
    pose proof (DrawFrame_acquire_result env s _ s' Hrun) as Hresult.
    destruct acquired as [imageIndex|]; simpl.
    + destruct Hresult as (_ & _ & ->). exact Hinv.
    + destruct (DrawFrame_acquire_stale env s _ s' Hresult Hrun) as (s0 & _ & Hrec).
      eapply RecreateSwapChain_consistent. exact Hrec.
  - intros ([] & Hrun & ->)%then_ret_Ok. simpl in *.
    pose proof (DrawFrame_record_frame_keeps env imageIndex s) as Hk. rewrite Hrun in Hk.
    revert Hinv. eapply Hside; [|exact Hrun].
    unfold DrawFrame_record, vkResetFences, RecordCommandBuffer.
    respects_walk ltac:(solve [eauto]) keeps_side.
  - intros ([] & Hrun & ->)%then_ret_Ok. simpl in *. revert Hinv. eapply Hside; [|exact Hrun].
    unfold DrawFrame_submit, vkQueueSubmit.
    respects_walk ltac:(solve [eauto]) keeps_side.
  - intros ([] & Hrun & ->)%then_ret_Ok. simpl in *.
    destruct (DrawFrame_present_chain env imageIndex s s' Hrun) as [Hk|(s0 & Hrec)].
    + now apply (chain_keeps_consistent _ _ Hk).
    + eapply RecreateSwapChain_consistent. exact Hrec.
  - intros ([] & Hrun & ->)%then_ret_Ok. simpl in *. injection Hrun as <-. exact Hinv.
  - intros [= <- <-]. exact I.
Qed.

Lemma reachable_chain_inv pc s : reachable (pc, s) -> chain_inv pc s.
Proof.
  intros (ienv & s0 & Hinit & Hsteps).
  assert (H0 : chain_inv PcPoll s0).
  { destruct (init_state ienv s0 Hinit) as (_ & Hi & Hv & Hf & _).
    split; rewrite Hi, ?Hv, ?Hf, length_map, length_seq; reflexivity. }
  change (chain_inv (fst (pc, s)) (snd (pc, s))).
  revert H0. change s0 with (snd (PcPoll, s0)) at 1. change PcPoll with (fst (PcPoll, s0)) at 1.
  induction Hsteps as [cfg|cfg1 cfg2 cfg3 Hstep _ IH]; [auto|].
  intros H. apply IH. clear IH.
  destruct Hstep as [pc1 s1 k Hk|pc1 env s1 pc' s' _ Hrun
    |pc1 env s1 what s' _ Hrun|pc1 env s1 s' _ Hrun|s1]; simpl in *; try exact I.
  - destruct pc1; simpl in *; try exact I;
      exact (chain_keeps_consistent _ _ (gpu_finish_chain k s1) H).
  - eapply run_phase_chain_inv; eassumption.
Qed.

(** X23: in the running loop there is always one image view and one
    framebuffer per swap chain image.  So when acquisition returns the
    index of one of the chain's images and the chain has no more images
    than there are command buffers, [DrawFrame] is not left by
    [std::out_of_range]. *)
Theorem X23_image_index_in_range (env : FrameEnv) (s : State)
    (Hreach : reachable (PcWait, s))
    (Hindex : (snd (env_acquire env) < length (m_swapChainImages s))%nat)
    (Himages : (length (m_swapChainImages s) <= length (m_commandBuffers s))%nat) :
  length (m_swapChainImageViews s) = length (m_swapChainImages s)
  /\ length (m_swapChainFramebuffers s) = length (m_swapChainImages s)
  /\ forall s', DrawFrame env s <> Throw "std::out_of_range" s'.
Proof.
  destruct (reachable_chain_inv _ _ Hreach) as [Hv Hf].
  split; [exact Hv|]. split; [exact Hf|]. intros s' Hthrown.
  destruct (DrawFrame_running_throws env s s' _ Hreach Hthrown) as [_ Hrange].
  destruct (Hrange eq_refl) as [_ [Hcb|Hfb]]; lia.
Qed.

Lemma X23_image_index_in_range_witness :
  reachable (PcWait, example_polled1)
  /\ (snd (env_acquire example_frame1) < length (m_swapChainImages example_polled1))%nat
  /\ (length (m_swapChainImages example_polled1)
      <= length (m_commandBuffers example_polled1))%nat
  /\ length (m_swapChainFramebuffers example_polled1) = 3%nat.
Proof.
  assert (Hreach : reachable (PcWait, example_polled1)).
  { exists example_init, example_state. split; [vm_compute; reflexivity|].
    apply rtc_once. apply (step_cpu PcPoll example_frame1); [discriminate|].
    vm_compute. reflexivity. }
  assert (Hindex : (snd (env_acquire example_frame1)
                    < length (m_swapChainImages example_polled1))%nat)
    by (vm_compute; lia).
  assert (Himages : (length (m_swapChainImages example_polled1)
                     <= length (m_commandBuffers example_polled1))%nat)
    by (vm_compute; lia).
  split; [exact Hreach|]. split; [exact Hindex|]. split; [exact Himages|].
  destruct (X23_image_index_in_range example_frame1 example_polled1 Hreach Hindex Himages)
    as (_ & Hfbs & _).
  rewrite Hfbs. vm_compute. reflexivity.
Defined.

(** ** A recreation that fails *)

Lemma CreateSwapChain_refused env s s' :
  CreateSwapChain env s = Throw "failed to create swap chain" s' ->
  m_swapChain s' = snd (env_createSwapchain env)
  /\ m_swapChainImageViews s' = m_swapChainImageViews s
  /\ m_swapChainFramebuffers s' = m_swapChainFramebuffers s
  /\ exists evs, trace s' = trace s ++ evs.
Proof.
  unfold CreateSwapChain. rewrite bind_get_run. cbv zeta. unfold optional_value.
  destruct (graphicsFamily _); [|intros [= Hwhat _]; discriminate Hwhat].
  rewrite bind_ret_run.
  destruct (presentFamily _); [|intros [= Hwhat _]; discriminate Hwhat].
  rewrite bind_ret_run, bind_emit_run, bind_modify_run. unfold throw_if. destruct (decide _).
  - rewrite bind_throw_run. intros [= <-]. cbn. repeat (split; [reflexivity|]).
    eexists. reflexivity.
  - repeat run_step. discriminate.
Qed.

(** X24: when a swap chain recreation is left by "failed to create swap
    chain", the old framebuffers, the old image views and the old chain have
    already been destroyed; [m_swapChainFramebuffers] and
    [m_swapChainImageViews] still hold the destroyed handles, and
    [m_swapChain] holds what the driver, which was given the member to write
    to, left there when it refused. *)
Theorem X24_failed_recreation (env : SwapChainEnv) (s s' : State)
    (Hthrown : RecreateSwapChain env s = Throw "failed to create swap chain" s') :
  m_swapChain s' = snd (env_createSwapchain env)
  /\ m_swapChainImageViews s' = m_swapChainImageViews s
  /\ m_swapChainFramebuffers s' = m_swapChainFramebuffers s
  /\ EvDestroySwapchain (m_swapChain s) ∈ emitted s s'
  /\ (forall imageView, imageView ∈ m_swapChainImageViews s ->
        EvDestroyImageView imageView ∈ emitted s s')
  /\ (forall framebuffer, framebuffer ∈ m_swapChainFramebuffers s ->
        EvDestroyFramebuffer framebuffer ∈ emitted s s').
Proof.
  rewrite RecreateSwapChain_unfold in Hthrown.
  set (s0 := set_trace (trace s ++ [EvCall "RecreateSwapChain"]) s) in Hthrown.
  pose proof (RecreateSwapChain_wait_emits (env_waitEvents env) (framebufferSize s) s0) as Hw.
  pose proof (RecreateSwapChain_wait_chain (env_waitEvents env) (framebufferSize s) s0) as Hc.
  pose proof (RecreateSwapChain_wait_no_throw (env_waitEvents env) (framebufferSize s) s0) as Hn.
  destruct (RecreateSwapChain_wait _ _ s0) as [[] s1|w s1|s1]; simpl in Hw, Hc.
  2:{ exfalso. eapply Hn. reflexivity. }
  2:{ discriminate. }
  destruct Hw as (wevs & Hwt & _).
  destruct (vkDeviceWaitIdle_emits s1) as (gevs & Hgt & _).
  pose proof (vkDeviceWaitIdle_chain s1) as Hc1.
  set (s2 := res_state (vkDeviceWaitIdle s1)) in *.
  unfold bind at 1 in Hthrown. rewrite CleanupSwapChain_run in Hthrown.
  set (s3 := set_trace _ s2) in Hthrown.
  assert (Hs2 : chain_keeps s s2).
  { transitivity s1; [|exact Hc1]. transitivity s0; [|exact Hc]. subst s0. keeps_side. }
  apply bind_Throw_inv in Hthrown as [H|([] & s4 & _ & H)].
  2:{ apply bind_Throw_inv in H as [H|([] & s5 & _ & H)].
      - apply CreateImageViews_throws in H. destruct H as [H|[]]. discriminate H.
      - apply CreateFramebuffers_throws in H. destruct H as [H|[]]. discriminate H. }
  apply CreateSwapChain_refused in H as (Hchain & Hviews & Hfbs & evs & Ht).
  destruct Hs2 as [F1 _ F3 F4].
  split; [exact Hchain|].
  split; [rewrite Hviews; subst s3; simpl; exact F3|].
  split; [rewrite Hfbs; subst s3; simpl; exact F4|].
  assert (Hemitted :
    emitted s s' = ([EvCall "RecreateSwapChain"] ++ wevs ++ gevs)
                   ++ map EvDestroyFramebuffer (m_swapChainFramebuffers s)
                   ++ map EvDestroyImageView (m_swapChainImageViews s)
                   ++ [EvDestroySwapchain (m_swapChain s)] ++ evs).
  { apply emitted_app. rewrite Ht. subst s3. simpl. rewrite Hgt, Hwt, F1, F3, F4.
    subst s0. simpl. now rewrite <- !app_assoc. }
  rewrite Hemitted. split; [|split].
  - rewrite !elem_of_app. right. right. right. left. apply list_elem_of_here.
  - intros imageView Hin. rewrite !elem_of_app. right. right. left.
    apply list_elem_of_fmap. eauto.
  - intros framebuffer Hin. rewrite !elem_of_app. right. left.
    apply list_elem_of_fmap. eauto.
Qed.

Lemma X24_failed_recreation_witness :
  let env :=
    {| env_waitEvents := [];
       env_support := example_support 2;
       env_createSwapchain := (VK_ERROR_OUT_OF_DEVICE_MEMORY, 999%N);
       env_swapchainImages := [];
       env_createImageView := fun _ => (VK_SUCCESS, VK_NULL_HANDLE);
       env_createFramebuffer := fun _ => (VK_SUCCESS, VK_NULL_HANDLE) |} in
  let s' := res_state (RecreateSwapChain env example_state) in
  RecreateSwapChain env example_state = Throw "failed to create swap chain" s'
  /\ m_swapChainFramebuffers s' = [120; 121; 122]%N
  /\ EvDestroyFramebuffer 120%N ∈ emitted example_state s'
  /\ EvDestroySwapchain 100%N ∈ emitted example_state s'.
Proof.
  intros env s'.
  assert (Hthrown : RecreateSwapChain env example_state
                    = Throw "failed to create swap chain" s') by (vm_compute; reflexivity).
  split; [exact Hthrown|].
  destruct (X24_failed_recreation env example_state s' Hthrown)
    as (_ & _ & Hfbs & Hchain & _ & Hdestroyed).
  split; [rewrite Hfbs; vm_compute; reflexivity|].
  split; [|exact Hchain].
  apply Hdestroyed. vm_compute. apply list_elem_of_here.
Defined.

(** ** One recreation per frame at most *)

Lemma recreations_app evs1 evs2 :
  recreations (evs1 ++ evs2) = (recreations evs1 + recreations evs2)%nat.
Proof. unfold recreations. now rewrite List.filter_app, length_app. Qed.

Lemma recreations_none (L : list EventClass) evs :
  ClsCall ∉ L -> Forall (fun e => event_class e ∈ L) evs -> recreations evs = 0%nat.
Proof.
  intros Hnot Hall. unfold recreations. induction Hall as [|e evs He _ IH]; [reflexivity|].
  simpl. destruct e; simpl in *; try exact IH. contradiction.
Qed.

Lemma recreates_none (L : list EventClass) s s' :
  ClsCall ∉ L -> trace_ext (fun e => event_class e ∈ L) s s' -> recreates_at_most 0 s s'.
Proof.
  intros Hnot (evs & Ht & Hall). exists evs. split; [exact Ht|].
  now rewrite (recreations_none L evs Hnot Hall).
Qed.

Lemma recreates_trans n m s1 s2 s3 :
  recreates_at_most n s1 s2 -> recreates_at_most m s2 s3 -> recreates_at_most (n + m) s1 s3.
Proof.
  intros (e1 & H1 & C1) (e2 & H2 & C2). exists (e1 ++ e2). split.
  - now rewrite H2, H1, app_assoc.
  - rewrite recreations_app. lia.
Qed.

Lemma recreates_weaken n m s s' :
  (n <= m)%nat -> recreates_at_most n s s' -> recreates_at_most m s s'.
Proof. intros Hle (evs & Ht & Hc). exists evs. split; [exact Ht|lia]. Qed.

Lemma RecreateSwapChain_recreates env s :
  recreates_at_most 1 s (res_state (RecreateSwapChain env s)).
Proof.
  assert (H : emits [ClsWindow; ClsGpu; ClsRelease; ClsAlloc; ClsQuery]
                (s' <- get;;
                 RecreateSwapChain_wait (env_waitEvents env) (framebufferSize s');;
                 vkDeviceWaitIdle;; CleanupSwapChain;;
                 CreateSwapChain env;; CreateImageViews env;; CreateFramebuffers env))
    by emits_auto.
  set (s0 := set_trace (trace s ++ [EvCall "RecreateSwapChain"]) s).
  change (recreates_at_most (1 + 0) s
            (res_state ((s' <- get;;
                         RecreateSwapChain_wait (env_waitEvents env) (framebufferSize s');;
                         vkDeviceWaitIdle;; CleanupSwapChain;;
                         CreateSwapChain env;; CreateImageViews env;; CreateFramebuffers env)
                          s0))).
  apply (recreates_trans 1 0 s s0).
  - exists [EvCall "RecreateSwapChain"]. split; [reflexivity|]. unfold recreations. simpl. lia.
  - eapply recreates_none; [|apply H]. set_solver.
Qed.

Lemma DrawFrame_present_recreates env imageIndex s :
  recreates_at_most 1 s (res_state ((DrawFrame_present env imageIndex;; DrawFrame_advance) s)).
Proof.
  unfold DrawFrame_present. rewrite !bind_assoc, bind_get_run, bind_assoc, bind_vector_at_run.
  destruct (m_renderFinishedSemaphores s !! m_currentFrame s) as [semaphore|].
  2:{ exists []. split; [simpl; now rewrite app_nil_r|]. unfold recreations. simpl. lia. }
  rewrite bind_assoc, bind_emit_run.
  set (s1 := set_trace _ s).
  assert (H1 : recreates_at_most 0 s s1).
  { eexists. split; [reflexivity|]. unfold recreations. simpl. lia. }
  change 1%nat with (0 + 1)%nat. eapply recreates_trans; [exact H1|].
  destruct (decide _).
  - rewrite bind_assoc, bind_modify_run.
    set (s2 := set_m_framebufferResized false s1).
    pose proof (RecreateSwapChain_recreates (env_recreate env) s2) as Hr.
    unfold bind. destruct (RecreateSwapChain (env_recreate env) s2) as [[] s3|w s3|s3];
      exact Hr.
  - apply (recreates_weaken 0); [lia|]. unfold throw_if, bind.
    destruct (decide _); simpl; exists []; (split; [now rewrite app_nil_r|]);
      unfold recreations; simpl; lia.
Qed.

Lemma DrawFrame_acquire_recreates env s :
  recreates_at_most 1 s (res_state (DrawFrame_acquire env s))
  /\ (forall imageIndex s', DrawFrame_acquire env s = Ok (Some imageIndex) s' ->
        recreates_at_most 0 s s').
Proof.
  split.
  - unfold DrawFrame_acquire. rewrite bind_get_run, bind_vector_at_run.
    destruct (m_imageAvailableSemaphores s !! m_currentFrame s) as [semaphore|].
    2:{ exists []. split; [simpl; now rewrite app_nil_r|]. unfold recreations. simpl. lia. }
    rewrite bind_emit_run. set (s1 := set_trace _ s).
    assert (H1 : recreates_at_most 0 s s1).
    { eexists. split; [reflexivity|]. unfold recreations. simpl. lia. }
    change 1%nat with (0 + 1)%nat. eapply recreates_trans; [exact H1|].
    destruct (decide _).
    + pose proof (RecreateSwapChain_recreates (env_recreate env) s1) as Hr.
      unfold bind. destruct (RecreateSwapChain (env_recreate env) s1) as [[] s3|w s3|s3];
        exact Hr.
    + apply (recreates_weaken 0); [lia|].
      destruct (decide _); simpl; exists []; (split; [now rewrite app_nil_r|]);
        unfold recreations; simpl; lia.
  - intros imageIndex s' Hrun.
    destruct (DrawFrame_acquire_result env s _ s' Hrun) as (_ & Hfresh & _).
    pose proof (DrawFrame_acquire_usable_emits env Hfresh s) as He. rewrite Hrun in He.
    eapply recreates_none; [|exact He]. set_solver.
Qed.

Lemma DrawFrame_recreates env s : recreates_at_most 1 s (res_state (DrawFrame env s)).
Proof.
  assert (Hwait : recreates_at_most 0 s (res_state (DrawFrame_wait s)))
    by (eapply recreates_none; [|apply DrawFrame_wait_emits]; set_solver).
  unfold DrawFrame.
  destruct (DrawFrame_wait s) as [[] s1|w s1|s1] eqn:Hw; simpl in Hwait.
  2:{ rewrite (bind_run_Throw _ _ _ _ _ Hw). now apply (recreates_weaken 0); [lia|]. }
  2:{ rewrite (bind_run_Block _ _ _ _ Hw). now apply (recreates_weaken 0); [lia|]. }
  rewrite (bind_run_Ok _ _ _ _ _ Hw).
  destruct (DrawFrame_acquire_recreates env s1) as [Hacq Hfresh].
  change 1%nat with (0 + 1)%nat. eapply recreates_trans; [exact Hwait|].
  destruct (DrawFrame_acquire env s1) as [[imageIndex|] s2|w s2|s2] eqn:Ha; simpl in Hacq.
  2:{ rewrite (bind_run_Ok _ _ _ _ _ Ha). exact Hacq. }
  2:{ rewrite (bind_run_Throw _ _ _ _ _ Ha). exact Hacq. }
  2:{ rewrite (bind_run_Block _ _ _ _ Ha). exact Hacq. }
  rewrite (bind_run_Ok _ _ _ _ _ Ha). specialize (Hfresh _ _ eq_refl).
  change 1%nat with (0 + 1)%nat. eapply recreates_trans; [exact Hfresh|].
  assert (Hrecord : recreates_at_most 0 s2 (res_state (DrawFrame_record env imageIndex s2)))
    by (eapply recreates_none; [|apply DrawFrame_record_emits]; set_solver).
  destruct (DrawFrame_record env imageIndex s2) as [[] s3|w s3|s3] eqn:Hr; simpl in Hrecord.
  2:{ rewrite (bind_run_Throw _ _ _ _ _ Hr). now apply (recreates_weaken 0); [lia|]. }
  2:{ rewrite (bind_run_Block _ _ _ _ Hr). now apply (recreates_weaken 0); [lia|]. }
  rewrite (bind_run_Ok _ _ _ _ _ Hr).
  change 1%nat with (0 + 1)%nat. eapply recreates_trans; [exact Hrecord|].
  assert (Hsubmit : recreates_at_most 0 s3 (res_state (DrawFrame_submit env imageIndex s3)))
    by (eapply recreates_none; [|apply DrawFrame_submit_emits]; set_solver).
  destruct (DrawFrame_submit env imageIndex s3) as [[] s4|w s4|s4] eqn:Hs; simpl in Hsubmit.
  2:{ rewrite (bind_run_Throw _ _ _ _ _ Hs). now apply (recreates_weaken 0); [lia|]. }
  2:{ rewrite (bind_run_Block _ _ _ _ Hs). now apply (recreates_weaken 0); [lia|]. }
  rewrite (bind_run_Ok _ _ _ _ _ Hs).
  change 1%nat with (0 + 1)%nat. eapply recreates_trans; [exact Hsubmit|].
  apply DrawFrame_present_recreates.
Qed.

(** X25: whatever the driver answers and however the call ends, one call
    of [DrawFrame] enters [RecreateSwapChain] at most once: a chain rebuilt
    after a stale acquisition is not rebuilt again by the same frame. *)
Theorem X25_one_recreation_per_frame (env : FrameEnv) (s : State) :
  (recreations (emitted s (res_state (DrawFrame env s))) <= 1)%nat.
Proof.
  destruct (DrawFrame_recreates env s) as (evs & Ht & Hc).
  now rewrite (emitted_app _ _ _ Ht).
Qed.
